(** * lib/vm.js: scripts, contexts and the SIGINT bridge

    A shallow embedding of Node's [vm] module (lib/vm.js, v10.15.3).  The
    module is glue between the caller, the native [contextify] binding and the
    process event emitter, so its functions are embedded as computations in a
    small monad that threads the world, may throw, and records the calls made
    to the outside (native binding, process emitter). *)

From Stdlib Require Import ZArith Lia.
From stdpp Require Import base option strings list gmap pretty.

Local Open Scope Z_scope.

(** ** JavaScript values *)

Definition ref := positive.
Bind Scope positive_scope with ref.

(** A number is an IEEE double.  The module only asks whether a number is an
    integer, compares integers and shifts them, so integral doubles carry
    their value (negative zero is identified with [NInt 0]: the module cannot
    tell them apart) and the others only what is needed to tell them apart. *)
Inductive number :=
| NInt (z : Z)
| NFrac (repr : string)
| NNaN
| NPosInf
| NNegInf.

Inductive value :=
| VUndefined
| VNull
| VBool (b : bool)
| VNum (n : number)
| VBigInt (z : Z)
| VStr (s : string)
| VSymbol (id : positive)
| VObj (r : ref)
| VFun (r : ref).

Arguments VSymbol id%_positive.

#[global] Instance number_eq_dec : EqDecision number.
Proof. solve_decision. Defined.
#[global] Instance value_eq_dec : EqDecision value.
Proof. solve_decision. Defined.

Definition typeof (v : value) : string :=
  match v with
  | VUndefined => "undefined"
  | VNull => "object"
  | VBool _ => "boolean"
  | VNum _ => "number"
  | VBigInt _ => "bigint"
  | VStr _ => "string"
  | VSymbol _ => "symbol"
  | VObj _ => "object"
  | VFun _ => "function"
  end.

(** [typeof v !== 'object' || v === null], negated. *)
Definition is_object (v : value) : bool :=
  bool_decide (typeof v = "object") && negb (bool_decide (v = VNull)).

(** ToBoolean, as used by [if (options)] and [!m]. *)
Definition truthy (v : value) : bool :=
  match v with
  | VUndefined | VNull => false
  | VBool b => b
  | VNum (NInt z) => negb (z =? 0)%Z
  | VNum NNaN => false
  | VNum _ => true
  | VBigInt z => negb (z =? 0)%Z
  | VStr s => negb (bool_decide (s = ""))
  | VSymbol _ | VObj _ | VFun _ => true
  end.

(** ToInt32 and ToUint32 of an integral double. *)
Definition ToInt32 (z : Z) : Z := (z + 2 ^ 31) mod 2 ^ 32 - 2 ^ 31.
Definition ToUint32 (z : Z) : Z := z mod 2 ^ 32.

(** ** Objects, literals and the world *)

Inductive kind := KPlain | KArray | KUint8Array | KModuleNamespace | KScript.

#[global] Instance kind_eq_dec : EqDecision kind.
Proof. solve_decision. Defined.

(** A heap object: its own string-keyed data properties and, for an array,
    its elements. *)
Record object := Object {
  o_kind : kind;
  o_props : gmap string value;
  o_items : list value;
}.

(** An object literal that the module builds for its own use ([{}],
    [{ filename: options }], [Object.assign({}, options, {...})]).  It never
    escapes, so it is passed by value; [l_parsingContext] is the property
    keyed by the module-private symbol [kParsingContext]. *)
Record literal := Literal {
  l_props : gmap string value;
  l_parsingContext : value;
}.

Inductive arg :=
| AVal (v : value)
| ALit (l : literal).

#[global] Instance literal_eq_dec : EqDecision literal.
Proof. solve_decision. Defined.
#[global] Instance arg_eq_dec : EqDecision arg.
Proof. solve_decision. Defined.

(** The literal built by [getContextOptions]: [{ name, origin,
    codeGeneration }] with [codeGeneration] either [undefined] or the nested
    literal [{ strings, wasm }]. *)
Record ctxLiteral := CtxLiteral {
  cl_name : value;
  cl_origin : value;
  cl_codeGeneration : option (value * value);
}.

Inductive ctxarg :=
| CVal (v : value)
| CLit (c : ctxLiteral).

(** The arguments of the native calls are the values the module passes on. *)
Record compile_args := CompileArgs {
  ca_code : string;
  ca_filename : value;
  ca_lineOffset : value;
  ca_columnOffset : value;
  ca_cachedData : value;
  ca_produceCachedData : value;
  ca_parsingContext : value;
  ca_sourceless : value;
}.

(** [args: [timeout, displayErrors, breakOnSigint]]. *)
Record run_args := RunArgs {
  ra_timeout : value;
  ra_displayErrors : value;
  ra_breakOnSigint : value;
}.

Record function_args := FunctionArgs {
  fa_code : value;
  fa_filename : value;
  fa_lineOffset : value;
  fa_columnOffset : value;
  fa_cachedData : value;
  fa_produceCachedData : value;
  fa_parsingContext : value;
  fa_contextExtensions : list value;
  fa_params : option (list value);
}.

Record context_tag := ContextTag {
  ct_name : value;
  ct_origin : value;
  ct_strings : value;
  ct_wasm : value;
}.

Record World := mkWorld {
  heap : gmap ref object;
  contexts : gmap ref context_tag;
  scripts : gmap ref compile_args;
  callbackMap : gmap ref value;
  wrapMap : gset ref;
  linkingStatusMap : gmap ref string;
  sigint : list value;
  defaultContextNameIndex : Z;
}.

Definition set_heap (h : gmap ref object) (w : World) : World :=
  mkWorld h (contexts w) (scripts w) (callbackMap w) (wrapMap w)
          (linkingStatusMap w) (sigint w) (defaultContextNameIndex w).
Definition set_contexts (c : gmap ref context_tag) (w : World) : World :=
  mkWorld (heap w) c (scripts w) (callbackMap w) (wrapMap w)
          (linkingStatusMap w) (sigint w) (defaultContextNameIndex w).
Definition set_scripts (s : gmap ref compile_args) (w : World) : World :=
  mkWorld (heap w) (contexts w) s (callbackMap w) (wrapMap w)
          (linkingStatusMap w) (sigint w) (defaultContextNameIndex w).
Definition set_callbackMap (m : gmap ref value) (w : World) : World :=
  mkWorld (heap w) (contexts w) (scripts w) m (wrapMap w)
          (linkingStatusMap w) (sigint w) (defaultContextNameIndex w).
Definition set_sigint (l : list value) (w : World) : World :=
  mkWorld (heap w) (contexts w) (scripts w) (callbackMap w) (wrapMap w)
          (linkingStatusMap w) l (defaultContextNameIndex w).
Definition set_defaultContextNameIndex (i : Z) (w : World) : World :=
  mkWorld (heap w) (contexts w) (scripts w) (callbackMap w) (wrapMap w)
          (linkingStatusMap w) (sigint w) i.

(** ** Exceptions and outside calls *)

Inductive exn :=
| ERR_INVALID_ARG_TYPE (name : string) (expected : list string) (actual : value)
| ERR_OUT_OF_RANGE (name : string) (range : string) (actual : value)
| ERR_VM_MODULE_NOT_MODULE
| ERR_VM_MODULE_STATUS (msg : string)
| TypeError (msg : string)
| ERR_SCRIPT_EXECUTION_TIMEOUT
| ERR_SCRIPT_EXECUTION_INTERRUPTED
| Thrown (v : value).

Inductive run_target :=
| ThisContext
| InContext (sandbox : value).

(** The calls the module makes on the outside world, in program order. *)
Inductive event :=
| EvToString (r : ref)
| EvCompile (a : compile_args)
| EvRun (t : run_target) (script : ref) (a : run_args)
| EvCompileFunction (a : function_args)
| EvMakeContext (sandbox : value) (tag : context_tag)
| EvRemoveAllListeners
| EvAddListener (l : value)
| EvCall (f : value) (args : list value)
| EvGet (m : value) (k : string).

#[global] Instance exn_eq_dec : EqDecision exn.
Proof. solve_decision. Defined.

(** ** The monad: world passing, completions, trace of outside calls *)

Inductive completion (A : Type) :=
| Normal (a : A)
| Throw (e : exn).
Arguments Normal {A} a.
Arguments Throw {A} e.

Definition M (A : Type) : Type := World -> completion A * World * list event.

Definition ret {A} (a : A) : M A := fun w => (Normal a, w, []).
Definition throw {A} (e : exn) : M A := fun w => (Throw e, w, []).

Definition bind {A B} (m : M A) (f : A -> M B) : M B :=
  fun w =>
    match m w with
    | (Normal a, w1, t1) =>
        match f a w1 with
        | (c, w2, t2) => (c, w2, t1 ++ t2)
        end
    | (Throw e, w1, t1) => (Throw e, w1, t1)
    end.

(** [try { body } finally { fin }]: [fin] runs on both completions; a throw
    from [fin] replaces the completion of [body]. *)
Definition try_finally {A} (body : M A) (fin : M unit) : M A :=
  fun w =>
    match body w with
    | (c, w1, t1) =>
        match fin w1 with
        | (Normal _, w2, t2) => (c, w2, t1 ++ t2)
        | (Throw e, w2, t2) => (Throw e, w2, t1 ++ t2)
        end
    end.

(** The outcome [r], after the outside calls [t1]. *)
Definition after {A} (t1 : list event) (r : completion A * World * list event)
  : completion A * World * list event :=
  let '(c, w, t) := r in (c, w, t1 ++ t).

Declare Scope vm_scope.
Delimit Scope vm_scope with vm.
Notation "x <- m ;; k" := (bind m (fun x => k))
  (at level 100, m at next level, right associativity) : vm_scope.
Notation "m ;; k" := (bind m (fun _ => k))
  (at level 100, right associativity) : vm_scope.
Local Open Scope vm_scope.

Definition get_world : M World := fun w => (Normal w, w, []).

(** [for (const x of l) body(x)] and [ArrayForEach(l, (x, i) => body(x, i))]. *)
Fixpoint for_of {A} (l : list A) (body : A -> M unit) : M unit :=
  match l with
  | [] => ret tt
  | x :: l' => body x ;; for_of l' body
  end.

Fixpoint ArrayForEach_from {A} (i : nat) (l : list A) (body : A -> nat -> M unit)
  : M unit :=
  match l with
  | [] => ret tt
  | x :: l' => body x i ;; ArrayForEach_from (S i) l' body
  end.
Definition ArrayForEach {A} (l : list A) (body : A -> nat -> M unit) : M unit :=
  ArrayForEach_from 0 l body.

(** ** The engine

    What the script engine and the code it runs do is outside the module: the
    compiler, the execution of a compiled unit, the conversion of an object to
    a string (which runs the object's own [toString]), the call of a
    caller-supplied function, the reading of a property of a module record
    (which runs the record's accessor) and the printing of numbers.
    Compilation parses and runs no code, so it reads the world and leaves it
    as it is; the others run code that is not the module's, which may throw
    and may change all of the world. *)
Class Engine := {
  NumberToString : number -> string;
  ObjectToString : ref -> World -> completion string * World;
  ContextifyScript : compile_args -> World -> completion unit;
  ContextifyScript_run :
    run_target -> ref -> run_args -> World -> completion value * World;
  contextify_compileFunction :
    function_args -> World -> completion value * World;
  call_function : value -> list value -> World -> completion value * World;
  record_get : value -> string -> World -> completion value * World;
}.

Section VM.
Context `{Engine}.

(** The string conversion of a template literal, as in [code = `${code}`]. *)
Definition ToString (v : value) : M string :=
  match v with
  | VUndefined => ret "undefined"
  | VNull => ret "null"
  | VBool true => ret "true"
  | VBool false => ret "false"
  | VNum n => ret (NumberToString n)
  | VBigInt z => ret (pretty z)
  | VStr s => ret s
  | VSymbol _ => throw (TypeError "Cannot convert a Symbol value to a string")
  | VObj r | VFun r =>
      fun w => let '(c, w') := ObjectToString r w in (c, w', [EvToString r])
  end.

(** The values whose conversion runs no code of the caller's. *)
Definition string_of_primitive (v : value) : option string :=
  match v with
  | VUndefined => Some "undefined"
  | VNull => Some "null"
  | VBool true => Some "true"
  | VBool false => Some "false"
  | VNum n => Some (NumberToString n)
  | VBigInt z => Some (pretty z)
  | VStr s => Some s
  | VSymbol _ | VObj _ | VFun _ => None
  end.

(** *** Reading objects *)

Definition lookup_object (w : World) (v : value) : option object :=
  match v with
  | VObj r | VFun r => heap w !! r
  | _ => None
  end.

(** [o.k] for one of the option names the module reads.  A primitive has none
    of them; [undefined] and [null] are never read (every reader checks
    first). *)
Definition get_value_prop (w : World) (v : value) (k : string) : value :=
  match lookup_object w v with
  | Some o => default VUndefined (o_props o !! k)
  | None => VUndefined
  end.

Definition get_prop (w : World) (o : arg) (k : string) : value :=
  match o with
  | AVal v => get_value_prop w v k
  | ALit l => default VUndefined (l_props l !! k)
  end.

(** [o[kParsingContext]]: the symbol is private to the module, so only its
    own literals carry it. *)
Definition get_parsingContext (o : arg) : value :=
  match o with
  | AVal _ => VUndefined
  | ALit l => l_parsingContext l
  end.

(** [x = d] in a destructuring pattern or a parameter list. *)
Definition or_default (v d : value) : value :=
  match v with
  | VUndefined => d
  | _ => v
  end.

(** The same with a default that is computed only when needed. *)
Definition or_default_M (v : value) (d : M value) : M value :=
  match v with
  | VUndefined => d
  | _ => ret v
  end.

Definition ArrayIsArray (w : World) (v : value) : option (list value) :=
  match v with
  | VObj r =>
      match heap w !! r with
      | Some o => if decide (o_kind o = KArray) then Some (o_items o) else None
      | None => None
      end
  | _ => None
  end.

(** Modelled from the spec: [isUint8Array] and [isModuleNamespaceObject] of
    [util.types] are not among the sources.  They recognise the byte buffers
    of section 3 and the module-namespace objects of section 4.3, here the
    heap objects of that kind. *)
Definition has_kind (k : kind) (w : World) (v : value) : bool :=
  match v with
  | VObj r =>
      match heap w !! r with
      | Some o => bool_decide (o_kind o = k)
      | None => false
      end
  | _ => false
  end.
Definition isUint8Array := has_kind KUint8Array.

(** The own enumerable string-keyed properties that [Object.assign] copies.
    (Index keys of an array or a string are left out: no reader asks for
    one.) *)
Definition own_props (w : World) (v : value) : gmap string value :=
  match lookup_object w v with
  | Some o => o_props o
  | None => ∅
  end.

(** [Object.assign({}, options, { [kParsingContext]: sandbox })]. *)
Definition assign_parsingContext (w : World) (options : arg) (sandbox : value)
  : literal :=
  match options with
  | AVal v => Literal (own_props w v) sandbox
  | ALit l => Literal (l_props l) sandbox
  end.

Definition alloc (o : object) : M ref :=
  fun w =>
    let r := fresh (dom (heap w)) in
    (Normal r, set_heap (<[r := o]> (heap w)) w, []).

(** *** The native [contextify] binding *)

(** Modelled from the spec: the native binding's [isContext] (imported as
    [_isContext]) is not among the sources.  It is the identity-testable
    predicate of section 3: an object is a context when [makeContext] has
    wrapped it. *)
Definition _isContext (w : World) (sandbox : value) : bool :=
  match sandbox with
  | VObj r => bool_decide (is_Some (contexts w !! r))
  | _ => false
  end.

(** Modelled from the spec: the native binding's [makeContext] is not among
    the sources.  Section 4.2: a fresh context wraps the given object, tagged
    with its name, origin and the two code-generation booleans. *)
Definition makeContext (sandbox name origin strings wasm : value) : M unit :=
  fun w =>
    let tag := ContextTag name origin strings wasm in
    match sandbox with
    | VObj r =>
        (Normal tt, set_contexts (<[r := tag]> (contexts w)) w,
         [EvMakeContext sandbox tag])
    | _ => (Normal tt, w, [EvMakeContext sandbox tag])
    end.

(** [super(...)] in the [Script] constructor: the engine compiles, and the
    object under construction becomes a script. *)
Definition super_ContextifyScript (a : compile_args) : M ref :=
  fun w =>
    match ContextifyScript a w with
    | Normal _ =>
        let r := fresh (dom (heap w)) in
        (Normal r,
         set_scripts (<[r := a]> (scripts w))
           (set_heap (<[r := Object KScript ∅ []]> (heap w)) w),
         [EvCompile a])
    | Throw e => (Throw e, w, [EvCompile a])
    end.

Definition super_run (t : run_target) (this : ref) (a : run_args) : M value :=
  fun w => let '(c, w') := ContextifyScript_run t this a w in (c, w', [EvRun t this a]).

Definition _compileFunction (a : function_args) : M value :=
  fun w =>
    let '(c, w') := contextify_compileFunction a w in (c, w', [EvCompileFunction a]).



(** *** The process event emitter, for the ['SIGINT'] event *)

(** Modelled from the spec: the event emitter of [process] is not among the
    sources.  Section 4.3: the listeners are kept in call order;
    [rawListeners] reads them, [removeAllListeners] detaches all of them and
    [addListener], the public registration path, attaches one at the end. *)
Definition process_listenerCount : M nat :=
  fun w => (Normal (length (sigint w)), w, []).
Definition process_rawListeners : M (list value) :=
  fun w => (Normal (sigint w), w, []).
Definition process_removeAllListeners : M unit :=
  fun w => (Normal tt, set_sigint [] w, [EvRemoveAllListeners]).
Definition process_addListener (l : value) : M unit :=
  fun w => (Normal tt, set_sigint (sigint w ++ [l]) w, [EvAddListener l]).

(** ** lib/vm.js *)

Definition invalid_arg_type {A} (name expected : string) (actual : value) : M A :=
  throw (ERR_INVALID_ARG_TYPE name [expected] actual).

Definition validateContext (sandbox : value) : M unit :=
  if negb (is_object sandbox) then
    invalid_arg_type "contextifiedSandbox" "Object" sandbox
  else
    w <- get_world ;;
    if negb (_isContext w sandbox) then
      invalid_arg_type "contextifiedSandbox" "vm.Context" sandbox
    else ret tt.

(** [(prop >> 0) !== prop] is evaluated on integers only: [Number.isInteger]
    comes first. *)
Definition validateInteger (prop : value) (propName : string) : M unit :=
  match prop with
  | VNum (NInt z) =>
      if bool_decide (ToInt32 z ≠ z) then
        throw (ERR_OUT_OF_RANGE propName "32-bit integer" prop)
      else ret tt
  | _ => invalid_arg_type propName "integer" prop
  end.

Definition validateString (prop : value) (propName : string) : M unit :=
  if negb (bool_decide (prop = VUndefined))
     && negb (bool_decide (typeof prop = "string"))
  then invalid_arg_type propName "string" prop
  else ret tt.

Definition validateBool (prop : value) (propName : string) : M unit :=
  if negb (bool_decide (prop = VUndefined))
     && negb (bool_decide (typeof prop = "boolean"))
  then invalid_arg_type propName "boolean" prop
  else ret tt.

Definition validateObject (prop : value) (propName : string) : M unit :=
  if negb (bool_decide (prop = VUndefined)) && negb (is_object prop)
  then invalid_arg_type propName "Object" prop
  else ret tt.

(** Modelled from the spec: [validateUint32] of internal/validators is not
    among the sources.  Section 7 has an out-of-range error for a numeric
    offset outside the range; the range is the one the validator is named
    after, the unsigned 32-bit integers ([value === (value >>> 0)]), and a
    value that is not a number is an invalid argument. *)
Definition validateUint32 (value : value) (name : string) : M unit :=
  match value with
  | VNum (NInt z) =>
      if bool_decide (ToUint32 z ≠ z) then
        throw (ERR_OUT_OF_RANGE name ">= 0 && < 4294967296" value)
      else ret tt
  | VNum _ => throw (ERR_OUT_OF_RANGE name "an integer" value)
  | _ => invalid_arg_type name "number" value
  end.

Definition arg_is_object (o : arg) : bool :=
  match o with
  | AVal v => is_object v
  | ALit _ => true
  end.

(** The value an error reports for an argument; a literal is always an
    object, so no error reports one. *)
Definition arg_value (o : arg) : value :=
  match o with
  | AVal v => v
  | ALit _ => VUndefined
  end.

Definition empty_literal : literal := Literal ∅ VUndefined.

(** [options = {}] in a parameter list. *)
Definition default_options (options : arg) : arg :=
  match options with
  | AVal VUndefined => ALit empty_literal
  | _ => options
  end.





Definition callbackMap_set (this : ref) (importModuleDynamically : value)
  : M unit :=
  fun w =>
    (Normal tt,
     set_callbackMap (<[this := importModuleDynamically]> (callbackMap w)) w, []).

(** [new Script(code, options)]. *)
Definition Script_new (code : value) (options : arg) : M ref :=
  let options := default_options options in
  code <- ToString code ;;
  options <-
    match options with
    | AVal (VStr s) => ret (ALit (Literal {[ "filename" := VStr s ]} VUndefined))
    | _ =>
        if negb (arg_is_object options) then
          invalid_arg_type "options" "Object" (arg_value options)
        else ret options
    end ;;
  w <- get_world ;;
  let filename :=
    or_default (get_prop w options "filename") (VStr "evalmachine.<anonymous>") in
  let lineOffset := or_default (get_prop w options "lineOffset") (VNum (NInt 0)) in
  let columnOffset :=
    or_default (get_prop w options "columnOffset") (VNum (NInt 0)) in
  let cachedData := get_prop w options "cachedData" in
  let produceCachedData :=
    or_default (get_prop w options "produceCachedData") (VBool false) in
  let importModuleDynamically := get_prop w options "importModuleDynamically" in
  let parsingContext := get_parsingContext options in
  let sourceless := or_default (get_prop w options "sourceless") (VBool false) in
  if negb (bool_decide (typeof filename = "string")) then
    invalid_arg_type "options.filename" "string" filename
  else
  validateInteger lineOffset "options.lineOffset" ;;
  validateInteger columnOffset "options.columnOffset" ;;
  if negb (bool_decide (cachedData = VUndefined)) && negb (isUint8Array w cachedData)
  then throw (ERR_INVALID_ARG_TYPE "options.cachedData"
                ["Buffer"; "Uint8Array"] cachedData)
  else
  if negb (bool_decide (typeof produceCachedData = "boolean")) then
    invalid_arg_type "options.produceCachedData" "boolean" produceCachedData
  else
  this <- super_ContextifyScript
            (CompileArgs code filename lineOffset columnOffset cachedData
                         produceCachedData parsingContext sourceless) ;;
  (if negb (bool_decide (importModuleDynamically = VUndefined)) then
     if negb (bool_decide (typeof importModuleDynamically = "function")) then
       invalid_arg_type "options.importModuleDynamically" "function"
                        importModuleDynamically
     else callbackMap_set this importModuleDynamically
   else ret tt) ;;
  ret this.

Definition getRunInContextArgs (options : arg) : M (value * run_args) :=
  let options := default_options options in
  if negb (arg_is_object options) then
    invalid_arg_type "options" "Object" (arg_value options)
  else
  w <- get_world ;;
  timeout <-
    (let timeout := get_prop w options "timeout" in
     match timeout with
     | VUndefined => ret (VNum (NInt (-1)))
     | VNum (NInt z) =>
         if (z <=? 0)%Z then
           invalid_arg_type "options.timeout" "a positive integer" timeout
         else ret timeout
     | _ => invalid_arg_type "options.timeout" "a positive integer" timeout
     end) ;;
  let displayErrors := or_default (get_prop w options "displayErrors") (VBool true) in
  let breakOnSigint := or_default (get_prop w options "breakOnSigint") (VBool false) in
  if negb (bool_decide (typeof displayErrors = "boolean")) then
    invalid_arg_type "options.displayErrors" "boolean" displayErrors
  else if negb (bool_decide (typeof breakOnSigint = "boolean")) then
    invalid_arg_type "options.breakOnSigint" "boolean" breakOnSigint
  else ret (breakOnSigint, RunArgs timeout displayErrors breakOnSigint).

Definition empty_ctxLiteral : ctxLiteral := CtxLiteral VUndefined VUndefined None.

(** [if (options)]. *)
Definition arg_truthy (options : arg) : bool :=
  match options with
  | AVal v => truthy v
  | ALit _ => true
  end.

Definition getContextOptions (options : arg) : M ctxLiteral :=
  if arg_truthy options then
    w <- get_world ;;
    let contextCodeGeneration := get_prop w options "contextCodeGeneration" in
    validateObject contextCodeGeneration "options.contextCodeGeneration" ;;
    let contextOptions :=
      CtxLiteral (get_prop w options "contextName")
                 (get_prop w options "contextOrigin")
                 (if bool_decide (typeof contextCodeGeneration = "object") then
                    Some (get_value_prop w contextCodeGeneration "strings",
                          get_value_prop w contextCodeGeneration "wasm")
                  else None) in
    validateString (cl_name contextOptions) "options.contextName" ;;
    validateString (cl_origin contextOptions) "options.contextOrigin" ;;
    match cl_codeGeneration contextOptions with
    | Some (strings, wasm) =>
        validateBool strings "options.contextCodeGeneration.strings" ;;
        validateBool wasm "options.contextCodeGeneration.wasm"
    | None => ret tt
    end ;;
    ret contextOptions
  else ret empty_ctxLiteral.

Definition isContext (sandbox : value) : M bool :=
  if negb (is_object sandbox) then invalid_arg_type "sandbox" "Object" sandbox
  else
    w <- get_world ;;
    ret (_isContext w sandbox).

(** [let defaultContextNameIndex = 1], a double: past 2^53 the increment
    no longer changes it. *)
Definition next_default_name : M value :=
  fun w =>
    let i := defaultContextNameIndex w in
    (Normal (VStr ("VM Context " +:+ NumberToString (NInt i))),
     set_defaultContextNameIndex (if (i <? 2 ^ 53)%Z then i + 1 else i) w, []).

(** [options.codeGeneration]: a caller's value or the nested literal of
    [getContextOptions]. *)
Inductive codegen :=
| CGVal (v : value)
| CGLit (strings wasm : value).

(** The three properties [createContext] destructures from [options]. *)
Definition options_name (w : World) (options : ctxarg) : value :=
  match options with
  | CVal v => get_value_prop w v "name"
  | CLit c => cl_name c
  end.

Definition options_origin (w : World) (options : ctxarg) : value :=
  match options with
  | CVal v => get_value_prop w v "origin"
  | CLit c => cl_origin c
  end.

Definition options_codeGeneration (w : World) (options : ctxarg) : codegen :=
  match options with
  | CVal v => CGVal (get_value_prop w v "codeGeneration")
  | CLit c =>
      match cl_codeGeneration c with
      | Some (strings, wasm) => CGLit strings wasm
      | None => CGVal VUndefined
      end
  end.

Definition codeGeneration_is_undefined (codeGeneration : codegen) : bool :=
  match codeGeneration with
  | CGVal v => bool_decide (v = VUndefined)
  | CGLit _ _ => false
  end.

(** [{ strings = true, wasm = true } = codeGeneration], for a
    [codeGeneration] that is not [undefined]. *)
Definition codeGeneration_strings (w : World) (codeGeneration : codegen) : value :=
  match codeGeneration with
  | CGVal v => or_default (get_value_prop w v "strings") (VBool true)
  | CGLit strings _ => or_default strings (VBool true)
  end.

Definition codeGeneration_wasm (w : World) (codeGeneration : codegen) : value :=
  match codeGeneration with
  | CGVal v => or_default (get_value_prop w v "wasm") (VBool true)
  | CGLit _ wasm => or_default wasm (VBool true)
  end.

Definition default_ctxarg (options : ctxarg) : ctxarg :=
  match options with
  | CVal VUndefined => CLit empty_ctxLiteral
  | _ => options
  end.

Definition ctxarg_is_object (options : ctxarg) : bool :=
  match options with
  | CVal v => is_object v
  | CLit _ => true
  end.

Definition ctxarg_value (options : ctxarg) : value :=
  match options with
  | CVal v => v
  | CLit _ => VUndefined
  end.

Definition createContext (sandbox : value) (options : ctxarg) : M value :=
  sandbox <-
    match sandbox with
    | VUndefined => r <- alloc (Object KPlain ∅ []) ;; ret (VObj r)
    | _ => ret sandbox
    end ;;
  let options := default_ctxarg options in
  b <- isContext sandbox ;;
  if b : bool then ret sandbox
  else
  if negb (ctxarg_is_object options) then
    invalid_arg_type "options" "Object" (ctxarg_value options)
  else
  w <- get_world ;;
  let origin := options_origin w options in
  let codeGeneration := options_codeGeneration w options in
  name <- or_default_M (options_name w options) next_default_name ;;
  if negb (bool_decide (typeof name = "string")) then
    invalid_arg_type "options.name" "string" (options_name w options)
  else
  validateString origin "options.origin" ;;
  match codeGeneration with
  | CGVal v => validateObject v "options.codeGeneration"
  | CGLit _ _ => ret tt
  end ;;
  if codeGeneration_is_undefined codeGeneration then
    makeContext sandbox name origin (VBool true) (VBool true) ;;
    ret sandbox
  else
    let strings := codeGeneration_strings w codeGeneration in
    let wasm := codeGeneration_wasm w codeGeneration in
    validateBool strings "options.codeGeneration.strings" ;;
    validateBool wasm "options.codeGeneration.wasm" ;;
    makeContext sandbox name origin strings wasm ;;
    ret sandbox.

(** The [options] that [createContext] lets through. *)
Definition undefined_or (type : string) (v : value) : bool :=
  bool_decide (v = VUndefined) || bool_decide (typeof v = type).

Definition valid_context_options (w : World) (options : value) : bool :=
  bool_decide (options = VUndefined)
  || (is_object options
      && undefined_or "string" (get_value_prop w options "name")
      && undefined_or "string" (get_value_prop w options "origin")
      && (let codeGeneration := get_value_prop w options "codeGeneration" in
          bool_decide (codeGeneration = VUndefined)
          || (is_object codeGeneration
              && undefined_or "boolean" (get_value_prop w codeGeneration "strings")
              && undefined_or "boolean" (get_value_prop w codeGeneration "wasm")))).

Definition createScript (code : value) (options : arg) : M ref :=
  Script_new code options.

(** Remove all SIGINT listeners and re-attach them after the wrapped function
    has executed. *)
Definition sigintHandlersWrap {A} (fn : M A) : M A :=
  sigintListeners <- process_rawListeners ;;
  process_removeAllListeners ;;
  try_finally fn (for_of sigintListeners process_addListener).

(** [breakOnSigint && process.listenerCount('SIGINT') > 0]. *)
Definition wants_sigint_wrap (breakOnSigint : value) : M bool :=
  if truthy breakOnSigint then
    n <- process_listenerCount ;; ret (bool_decide (0 < n)%nat)
  else ret false.

Definition Script_runInThisContext (this : ref) (options : arg) : M value :=
  x <- getRunInContextArgs options ;;
  let '(breakOnSigint, args) := x in
  wrap <- wants_sigint_wrap breakOnSigint ;;
  if wrap : bool then sigintHandlersWrap (super_run ThisContext this args)
  else super_run ThisContext this args.

Definition Script_runInContext (this : ref) (contextifiedSandbox : value)
    (options : arg) : M value :=
  validateContext contextifiedSandbox ;;
  x <- getRunInContextArgs options ;;
  let '(breakOnSigint, args) := x in
  wrap <- wants_sigint_wrap breakOnSigint ;;
  if wrap : bool then
    sigintHandlersWrap (super_run (InContext contextifiedSandbox) this args)
  else super_run (InContext contextifiedSandbox) this args.

Definition Script_runInNewContext (this : ref) (sandbox : value) (options : arg)
  : M value :=
  contextOptions <- getContextOptions options ;;
  context <- createContext sandbox (CLit contextOptions) ;;
  Script_runInContext this context options.

Definition runInContext (code contextifiedSandbox options : value) : M value :=
  validateContext contextifiedSandbox ;;
  w <- get_world ;;
  let options :=
    match options with
    | VStr _ => Literal {[ "filename" := options ]} contextifiedSandbox
    | _ => assign_parsingContext w (AVal options) contextifiedSandbox
    end in
  script <- createScript code (ALit options) ;;
  Script_runInContext script contextifiedSandbox (ALit options).

Definition runInNewContext (code sandbox options : value) : M value :=
  let options :=
    match options with
    | VStr _ => ALit (Literal {[ "filename" := options ]} VUndefined)
    | _ => AVal options
    end in
  contextOptions <- getContextOptions options ;;
  sandbox <- createContext sandbox (CLit contextOptions) ;;
  w <- get_world ;;
  let options := ALit (assign_parsingContext w options sandbox) in
  script <- createScript code options ;;
  Script_runInNewContext script sandbox options.

Definition runInThisContext (code options : value) : M value :=
  let options :=
    match options with
    | VStr _ => ALit (Literal {[ "filename" := options ]} VUndefined)
    | _ => AVal options
    end in
  script <- createScript code options ;;
  Script_runInThisContext script options.

Definition index_name (array : string) (i : nat) : string :=
  array +:+ "[" +:+ pretty i +:+ "]".

(** [if (params !== undefined) { ... }]: an array of strings. *)
Definition validate_params (w : World) (params : value) : M unit :=
  if bool_decide (params = VUndefined) then ret tt
  else
    match ArrayIsArray w params with
    | None => invalid_arg_type "params" "Array" params
    | Some items =>
        ArrayForEach items (fun param i =>
          if negb (bool_decide (typeof param = "string")) then
            invalid_arg_type (index_name "params" i) "string" param
          else ret tt)
    end.

(** [if (parsingContext !== undefined) { ... }]: a context. *)
Definition validate_parsingContext (parsingContext : value) : M unit :=
  if bool_decide (parsingContext = VUndefined) then ret tt
  else
    bad <- (if negb (is_object parsingContext) then ret true
            else b <- isContext parsingContext ;; ret (negb b)) ;;
    if bad : bool then
      invalid_arg_type "options.parsingContext" "Context" parsingContext
    else ret tt.

(** [contextExtensions = []] and [if (!ArrayIsArray(contextExtensions))]. *)
Definition contextExtensions_items (w : World) (contextExtensions : value)
  : M (list value) :=
  if bool_decide (contextExtensions = VUndefined) then ret []
  else
    match ArrayIsArray w contextExtensions with
    | None =>
        invalid_arg_type "options.contextExtensions" "Array" contextExtensions
    | Some items => ret items
    end.

(** [ArrayForEach(contextExtensions, (extension, i) => { ... })]. *)
Definition validate_contextExtensions (extensions : list value) : M unit :=
  ArrayForEach extensions (fun extension i =>
    if negb (bool_decide (typeof extension = "object")) then
      invalid_arg_type (index_name "options.contextExtensions" i) "object"
                       extension
    else ret tt).

Definition params_items (w : World) (params : value) : option (list value) :=
  if bool_decide (params = VUndefined) then None else ArrayIsArray w params.

Definition compileFunction (code params options : value) : M value :=
  let options := default_options (AVal options) in
  if negb (bool_decide (typeof code = "string")) then
    invalid_arg_type "code" "string" code
  else
  w <- get_world ;;
  validate_params w params ;;
  (if bool_decide (options = AVal VNull) then
     throw (TypeError "Cannot destructure 'null'")
   else ret tt) ;;
  let filename := or_default (get_prop w options "filename") (VStr "") in
  let columnOffset :=
    or_default (get_prop w options "columnOffset") (VNum (NInt 0)) in
  let lineOffset := or_default (get_prop w options "lineOffset") (VNum (NInt 0)) in
  let cachedData := get_prop w options "cachedData" in
  let produceCachedData :=
    or_default (get_prop w options "produceCachedData") (VBool false) in
  let parsingContext := get_prop w options "parsingContext" in
  let contextExtensions := get_prop w options "contextExtensions" in
  if negb (bool_decide (typeof filename = "string")) then
    invalid_arg_type "options.filename" "string" filename
  else
  validateUint32 columnOffset "options.columnOffset" ;;
  validateUint32 lineOffset "options.lineOffset" ;;
  if negb (bool_decide (cachedData = VUndefined)) && negb (isUint8Array w cachedData)
  then invalid_arg_type "options.cachedData" "Uint8Array" cachedData
  else
  if negb (bool_decide (typeof produceCachedData = "boolean")) then
    invalid_arg_type "options.produceCachedData" "boolean" produceCachedData
  else
  validate_parsingContext parsingContext ;;
  extensions <- contextExtensions_items w contextExtensions ;;
  validate_contextExtensions extensions ;;
  _compileFunction
    (FunctionArgs code filename lineOffset columnOffset cachedData
                  produceCachedData parsingContext extensions
                  (params_items w params)).

(** *** The free functions as compositions

    Section 4.4 of the specification words the three free functions as
    compositions.  [runInNewContext_composition] follows its words with the
    module's own operations, for every argument; the compositions from the
    engine's operations, for valid arguments, come with the notions of the
    statements below. *)

(** [options] as a full options object: a bare string is a file name. *)
Definition options_object (options : value) : arg :=
  match options with
  | VStr _ => ALit (Literal {[ "filename" := options ]} VUndefined)
  | _ => AVal options
  end.

(** First create (or recognise) a context from [sandbox] using the context
    options derived from [options], then compile [code] once into a unit,
    then run that unit in the resulting context. *)
Definition runInNewContext_composition (code sandbox options : value) : M value :=
  let options := options_object options in
  contextOptions <- getContextOptions options ;;
  context <- createContext sandbox (CLit contextOptions) ;;
  w <- get_world ;;
  let options := ALit (assign_parsingContext w options context) in
  unit <- createScript code options ;;
  Script_runInContext unit context options.

End VM.

(** ** Notions of the statements *)

(** The two ranges of the offset validators. *)
Definition int32 (z : Z) : Prop := - 2 ^ 31 <= z <= 2 ^ 31 - 1.
Definition uint32 (z : Z) : Prop := 0 <= z <= 2 ^ 32 - 1.

(** The option [k] of [options] after the default [d]. *)
Definition option_of (w : World) (options : arg) (k : string) (d : value) : value :=
  or_default (get_prop w (default_options options) k) d.

(** Parameters that [compileFunction] lets through: [undefined] or an array of
    strings. *)
Definition valid_params (w : World) (params : value) : Prop :=
  params = VUndefined
  \/ exists items,
       ArrayIsArray w params = Some items
       /\ Forall (fun param => typeof param = "string") items.

(** Options of [compileFunction] that pass every check other than the two
    offsets and the context extensions. *)
Definition valid_function_options (w : World) (options : value) : Prop :=
  options <> VNull
  /\ typeof (option_of w (AVal options) "filename" (VStr "")) = "string"
  /\ (get_prop w (default_options (AVal options)) "cachedData" = VUndefined
      \/ isUint8Array w
           (get_prop w (default_options (AVal options)) "cachedData") = true)
  /\ typeof (option_of w (AVal options) "produceCachedData" (VBool false))
      = "boolean"
  /\ (get_prop w (default_options (AVal options)) "parsingContext" = VUndefined
      \/ _isContext w
           (get_prop w (default_options (AVal options)) "parsingContext") = true).

(** The elements of [options.contextExtensions], when it is an array or left
    out. *)
Definition extensions_of (w : World) (options : value) : option (list value) :=
  let contextExtensions :=
    get_prop w (default_options (AVal options)) "contextExtensions" in
  if bool_decide (contextExtensions = VUndefined) then Some []
  else ArrayIsArray w contextExtensions.

Definition valid_offsets (w : World) (options : value) : Prop :=
  exists zc zl,
    option_of w (AVal options) "columnOffset" (VNum (NInt 0)) = VNum (NInt zc)
    /\ uint32 zc
    /\ option_of w (AVal options) "lineOffset" (VNum (NInt 0)) = VNum (NInt zl)
    /\ uint32 zl.

(** The arguments that reach the native [compileFunction]. *)
Definition function_args_of (w : World) (code params options : value)
    (extensions : list value) : function_args :=
  let o := default_options (AVal options) in
  FunctionArgs code
    (or_default (get_prop w o "filename") (VStr ""))
    (or_default (get_prop w o "lineOffset") (VNum (NInt 0)))
    (or_default (get_prop w o "columnOffset") (VNum (NInt 0)))
    (get_prop w o "cachedData")
    (or_default (get_prop w o "produceCachedData") (VBool false))
    (get_prop w o "parsingContext")
    extensions
    (params_items w params).

(** The arguments that reach the native [ContextifyScript] constructor. *)
Definition compile_args_of (w : World) (code : string) (options : arg)
  : compile_args :=
  let o := default_options options in
  CompileArgs code
    (or_default (get_prop w o "filename") (VStr "evalmachine.<anonymous>"))
    (or_default (get_prop w o "lineOffset") (VNum (NInt 0)))
    (or_default (get_prop w o "columnOffset") (VNum (NInt 0)))
    (get_prop w o "cachedData")
    (or_default (get_prop w o "produceCachedData") (VBool false))
    (get_parsingContext o)
    (or_default (get_prop w o "sourceless") (VBool false)).

(** Options of the [Script] constructor that pass every check other than the
    two offsets: an object (or nothing) with a string for a file name,
    a [Uint8Array] for cached data and a boolean [produceCachedData], when
    given. *)
Definition valid_script_options (w : World) (options : arg) : Prop :=
  arg_is_object (default_options options) = true
  /\ typeof (option_of w options "filename" (VStr "evalmachine.<anonymous>"))
      = "string"
  /\ (get_prop w (default_options options) "cachedData" = VUndefined
      \/ isUint8Array w (get_prop w (default_options options) "cachedData")
         = true)
  /\ typeof (option_of w options "produceCachedData" (VBool false)) = "boolean".

(** What a run under the SIGINT bridge comes to, for the engine's target [t]:
    the engine runs with every listener detached, and the saved listeners are
    added again behind the ones the run left. *)
Definition bridged_run `{Engine} (t : run_target) (this : ref) (args : run_args)
    (w : World) : completion value * World * list event :=
  let '(c, w1) := ContextifyScript_run t this args (set_sigint [] w) in
  (c, set_sigint (sigint w1 ++ sigint w) w1,
   [EvRemoveAllListeners; EvRun t this args] ++ map EvAddListener (sigint w)).

Definition listener_event (e : event) : bool :=
  match e with
  | EvRemoveAllListeners | EvAddListener _ => true
  | _ => false
  end.

(** *** Compile once, then run

    The compositions of section 4.4 in terms of what the engine does, for
    arguments that are valid.  The compiler (section 4.1) has the engine
    compile the source with its metadata and attaches the resolver, when
    one is given, to the unit; the executor (section 4.3) has the engine
    run the unit on the target, under the SIGINT bridge when [breakOnSigint]
    is true and a listener is registered. *)
Definition compile_unit `{Engine} (a : compile_args) (resolver : value)
  : M ref :=
  unit <- super_ContextifyScript a ;;
  (if bool_decide (resolver = VUndefined) then ret tt
   else callbackMap_set unit resolver) ;;
  ret unit.

Definition run_unit `{Engine} (target : run_target) (unit : ref)
    (request : run_args) : M value :=
  fun w =>
    if bool_decide (ra_breakOnSigint request = VBool true)
       && bool_decide (sigint w <> [])
    then bridged_run target unit request w
    else super_run target unit request w.

Definition compile_then_run `{Engine} (target : run_target) (a : compile_args)
    (resolver : value) (request : run_args) : M value :=
  unit <- compile_unit a resolver ;;
  run_unit target unit request.

(** The source with its metadata, and the execution request, that the
    options [options] stand for, read in the world [w]. *)
Definition unit_args (w : World) (s : string) (options : arg)
    (parsingContext : value) : compile_args :=
  CompileArgs s
    (option_of w options "filename" (VStr "evalmachine.<anonymous>"))
    (option_of w options "lineOffset" (VNum (NInt 0)))
    (option_of w options "columnOffset" (VNum (NInt 0)))
    (get_prop w (default_options options) "cachedData")
    (option_of w options "produceCachedData" (VBool false))
    parsingContext
    (option_of w options "sourceless" (VBool false)).

Definition request_of (w : World) (options : arg) : run_args :=
  RunArgs (option_of w options "timeout" (VNum (NInt (-1))))
          (option_of w options "displayErrors" (VBool true))
          (option_of w options "breakOnSigint" (VBool false)).

(** Options that are valid for compiling: a string for a file name, offsets
    that are signed 32-bit integers, a [Uint8Array] for cached data, a
    boolean [produceCachedData] and a function for a resolver, when given. *)
Definition valid_unit_options (w : World) (options : arg) : Prop :=
  typeof (option_of w options "filename" (VStr "evalmachine.<anonymous>"))
    = "string"
  /\ (exists zl,
        option_of w options "lineOffset" (VNum (NInt 0)) = VNum (NInt zl)
        /\ int32 zl)
  /\ (exists zc,
        option_of w options "columnOffset" (VNum (NInt 0)) = VNum (NInt zc)
        /\ int32 zc)
  /\ (get_prop w (default_options options) "cachedData" = VUndefined
      \/ isUint8Array w (get_prop w (default_options options) "cachedData")
         = true)
  /\ typeof (option_of w options "produceCachedData" (VBool false)) = "boolean"
  /\ (get_prop w (default_options options) "importModuleDynamically"
        = VUndefined
      \/ typeof (get_prop w (default_options options)
                   "importModuleDynamically") = "function").

(** Options that are valid for running: a positive integer for a timeout
    and booleans for the two flags, when given. *)
Definition valid_request (w : World) (options : arg) : Prop :=
  (get_prop w (default_options options) "timeout" = VUndefined
   \/ exists z,
        get_prop w (default_options options) "timeout" = VNum (NInt z)
        /\ 0 < z)
  /\ typeof (option_of w options "displayErrors" (VBool true)) = "boolean"
  /\ typeof (option_of w options "breakOnSigint" (VBool false)) = "boolean".

(** A value that is no object: its conversion to a string runs no code of
    the caller's. *)
Definition primitive (v : value) : Prop :=
  forall r, v <> VObj r /\ v <> VFun r.

(** Two worlds in which every object reads the same: what [o.k] gives for a
    name [k] is the same in both. *)
Definition same_props (w w' : World) : Prop :=
  forall v k, get_value_prop w' v k = get_value_prop w v k.

(** Frame conditions.  A relation between the world before, the world after
    and the outside calls made is a frame when doing nothing satisfies it and
    it composes along a sequence; a computation respects it when each of its
    outcomes does. *)
Class Frame (R : World -> World -> list event -> Prop) : Prop := {
  frame_refl : forall w, R w w [];
  frame_trans : forall w w1 w2 t1 t2, R w w1 t1 -> R w1 w2 t2 -> R w w2 (t1 ++ t2);
}.

Definition respects (R : World -> World -> list event -> Prop) {A} (m : M A)
  : Prop :=
  forall w c w' t, m w = (c, w', t) -> R w w' t.

(** The computation changes nothing and calls nothing. *)
Definition unchanged (w w' : World) (t : list event) : Prop := w' = w /\ t = [].

(** Every object reads as before. *)
Definition props_kept (w w' : World) (t : list event) : Prop := same_props w w'.

(** The contexts are as before. *)
Definition contexts_kept (w w' : World) (t : list event) : Prop :=
  contexts w' = contexts w.

(** The number of compilations among the outside calls. *)
Definition is_compile (e : event) : bool :=
  match e with
  | EvCompile _ => true
  | _ => false
  end.

Definition compilations (t : list event) : nat :=
  length (List.filter is_compile t).

Definition no_compilation (w w' : World) (t : list event) : Prop :=
  compilations t = 0%nat.

Definition one_compilation_at_most (w w' : World) (t : list event) : Prop :=
  (compilations t <= 1)%nat.

(** ** Two concrete engines and some worlds, to run the module on examples *)

Definition print_number (n : number) : string :=
  match n with
  | NInt z => pretty z
  | NFrac repr => repr
  | NNaN => "NaN"
  | NPosInf => "Infinity"
  | NNegInf => "-Infinity"
  end.

(** Every script completes at once with [undefined] and touches nothing; a
    called function returns its first argument; a module record's
    properties read as the ones stored in the heap. *)
Definition idle_engine : Engine := {|
  NumberToString := print_number;
  ObjectToString := fun _ w => (Normal "[object Object]", w);
  ContextifyScript := fun _ _ => Normal tt;
  ContextifyScript_run := fun _ _ _ w => (Normal VUndefined, w);
  contextify_compileFunction := fun _ w => (Normal (VFun 1), w);
  call_function := fun _ args w => (Normal (hd VUndefined args), w);
  record_get := fun m k w => (Normal (get_value_prop w m k), w);
|}.

(** The script run is [process.on('SIGINT', g)] with [g] the function
    [VFun 9]. *)
Definition registering_engine : Engine := {|
  NumberToString := print_number;
  ObjectToString := fun _ w => (Normal "[object Object]", w);
  ContextifyScript := fun _ _ => Normal tt;
  ContextifyScript_run := fun _ _ _ w =>
    (Normal VUndefined, set_sigint (sigint w ++ [VFun 9]) w);
  contextify_compileFunction := fun _ w => (Normal (VFun 1), w);
  call_function := fun _ args w => (Normal (hd VUndefined args), w);
  record_get := fun m k w => (Normal (get_value_prop w m k), w);
|}.


Definition empty_world : World := mkWorld ∅ ∅ ∅ ∅ ∅ ∅ [] 1.

Definition plain (props : list (string * value)) : object :=
  Object KPlain (list_to_map props) [].
Definition array (items : list value) : object := Object KArray ∅ items.

Definition with_object (r : ref) (o : object) (w : World) : World :=
  set_heap (<[r := o]> (heap w)) w.

(** A process with one SIGINT listener, [VFun 7], the script 1 compiled from
    [process.on('SIGINT', g)] and an options object 2,
    [{ breakOnSigint: true }]. *)
Definition sigint_world : World :=
  set_sigint [VFun 7]
    (set_scripts
       {[ 1%positive :=
            CompileArgs "process.on('SIGINT', g)"
              (VStr "evalmachine.<anonymous>") (VNum (NInt 0)) (VNum (NInt 0))
              VUndefined (VBool false) VUndefined (VBool false) ]}
       (with_object 1 (Object KScript ∅ [])
          (with_object 2 (plain [("breakOnSigint", VBool true)]) empty_world))).

(** A world in which object 1 is a context. *)
Definition context_world : World :=
  set_contexts {[ 1%positive := ContextTag (VStr "c") VUndefined (VBool true) (VBool true) ]}
    (with_object 1 (plain [("x", VNum (NInt 1))]) empty_world).

(** A plain object 1 and the options object 2, [{ name: 'sandbox',
    codeGeneration: { strings: false } }]. *)
Definition sandbox_world : World :=
  with_object 2 (plain [("name", VStr "sandbox");
                        ("codeGeneration", VObj 3)])
    (with_object 3 (plain [("strings", VBool false)])
       (with_object 1 (plain [("x", VNum (NInt 1))]) empty_world)).

(** [compileFunction]'s options [{ contextExtensions: [null, {}] }] (object
    2, with the array 3 and the object 4), and [{ lineOffset: -1 }]
    (object 5). *)
Definition extensions_world : World :=
  with_object 2 (plain [("contextExtensions", VObj 3)])
    (with_object 3 (array [VNull; VObj 4])
       (with_object 4 (plain [])
          (with_object 5 (plain [("lineOffset", VNum (NInt (-1)))])
             empty_world))).


(** ** Notions of the further statements *)

(** Run arguments as the engine may expect them: the timeout is -1 (none) or a
    positive integer, and the two flags are booleans. *)
Definition well_formed_run_args (a : run_args) : Prop :=
  (ra_timeout a = VNum (NInt (-1))
   \/ exists z, ra_timeout a = VNum (NInt z) /\ 0 < z)
  /\ typeof (ra_displayErrors a) = "boolean"
  /\ typeof (ra_breakOnSigint a) = "boolean".

(** Compile arguments as the engine may expect them. *)
Definition well_formed_compile_args (w : World) (a : compile_args) : Prop :=
  typeof (ca_filename a) = "string"
  /\ (exists zl, ca_lineOffset a = VNum (NInt zl) /\ int32 zl)
  /\ (exists zc, ca_columnOffset a = VNum (NInt zc) /\ int32 zc)
  /\ (ca_cachedData a = VUndefined \/ isUint8Array w (ca_cachedData a) = true)
  /\ typeof (ca_produceCachedData a) = "boolean".

Definition well_formed_function_args (w : World) (a : function_args) : Prop :=
  typeof (fa_code a) = "string"
  /\ typeof (fa_filename a) = "string"
  /\ (exists zl, fa_lineOffset a = VNum (NInt zl) /\ uint32 zl)
  /\ (exists zc, fa_columnOffset a = VNum (NInt zc) /\ uint32 zc)
  /\ (fa_cachedData a = VUndefined \/ isUint8Array w (fa_cachedData a) = true)
  /\ typeof (fa_produceCachedData a) = "boolean"
  /\ (fa_parsingContext a = VUndefined
      \/ _isContext w (fa_parsingContext a) = true)
  /\ Forall (fun extension => typeof extension = "object")
            (fa_contextExtensions a)
  /\ (forall items,
        fa_params a = Some items ->
        Forall (fun param => typeof param = "string") items).

(** Every context is an object of the heap. *)
Definition contexts_in_heap (w : World) : Prop :=
  forall r, is_Some (contexts w !! r) -> is_Some (heap w !! r).

Definition is_run (e : event) : bool :=
  match e with
  | EvRun _ _ _ => true
  | _ => false
  end.

(** An outcome of a run method for the target [target]: either a validation
    failure, which changes nothing and calls nothing, or one run of the
    engine, of this script, with well-formed arguments. *)
Definition validated_or_run (target : run_target) (this : ref) (w : World)
    (r : completion value * World * list event) : Prop :=
  let '(c, w', t) := r in
  ((exists e, c = Throw e) /\ w' = w /\ t = [])
  \/ exists args,
       well_formed_run_args args
       /\ List.filter is_run t = [EvRun target this args].

(** Two options objects: 2 is [{ importModuleDynamically: 5 }], 3 has the
    function [VFun 8] for a resolver; the script 9 has the resolver
    [VFun 10] already. *)
Definition resolver_world : World :=
  set_callbackMap {[ 9%positive := VFun 10 ]}
    (with_object 2 (plain [("importModuleDynamically", VNum (NInt 5))])
       (with_object 3 (plain [("importModuleDynamically", VFun 8)])
          (with_object 9 (Object KScript ∅ []) empty_world))).

(** The [importModuleDynamically] option as the constructor reads it: the
    string shorthand for options carries a file name and nothing else. *)
Definition resolver_option `{Engine} (w : World) (options : arg) : value :=
  match options with
  | AVal (VStr _) => VUndefined
  | _ => get_prop w (default_options options) "importModuleDynamically"
  end.

(** The counter after [defaultContextNameIndex++]. *)
Definition next_index (i : Z) : Z := if (i <? 2 ^ 53)%Z then i + 1 else i.

(** [createContext] draws a default name when its options are an object
    without a [name]. *)
Definition default_name_used (w : World) (options : ctxarg) : bool :=
  ctxarg_is_object (default_ctxarg options)
  && bool_decide (options_name w (default_ctxarg options) = VUndefined).

(** The world after the name has been settled. *)
Definition named (w : World) (options : ctxarg) : World :=
  if default_name_used w options then
    set_defaultContextNameIndex (next_index (defaultContextNameIndex w)) w
  else w.

(** The tag [createContext] hands to [makeContext] for the given options. *)
Definition context_tag_of `{Engine} (w : World) (options : ctxarg)
  : context_tag :=
  let options := default_ctxarg options in
  let codeGeneration := options_codeGeneration w options in
  ContextTag
    (or_default (options_name w options)
       (VStr ("VM Context " +:+
              NumberToString (NInt (defaultContextNameIndex w)))))
    (options_origin w options)
    (if codeGeneration_is_undefined codeGeneration then VBool true
     else codeGeneration_strings w codeGeneration)
    (if codeGeneration_is_undefined codeGeneration then VBool true
     else codeGeneration_wasm w codeGeneration).

(** A tag as the engine may expect it. *)
Definition well_formed_tag (tag : context_tag) : Prop :=
  typeof (ct_name tag) = "string"
  /\ (ct_origin tag = VUndefined \/ typeof (ct_origin tag) = "string")
  /\ typeof (ct_strings tag) = "boolean"
  /\ typeof (ct_wasm tag) = "boolean".

(** A plain object 1 and the options object 2, [{ origin: 5 }]. *)
Definition origin_world : World :=
  with_object 2 (plain [("origin", VNum (NInt 5))])
    (with_object 1 (plain []) empty_world).

(** Context options as [getContextOptions] lets them through. *)
Definition valid_ctxLiteral (c : ctxLiteral) : Prop :=
  undefined_or "string" (cl_name c) = true
  /\ undefined_or "string" (cl_origin c) = true
  /\ match cl_codeGeneration c with
     | Some (strings, wasm) =>
         undefined_or "boolean" strings = true
         /\ undefined_or "boolean" wasm = true
     | None => True
     end.

(** A plain object 1 and the options object 2 of a run in a new context,
    [{ contextName: 'sandbox', contextCodeGeneration: { strings: false } }]. *)
Definition run_options_world : World :=
  with_object 2 (plain [("contextName", VStr "sandbox");
                        ("contextCodeGeneration", VObj 3)])
    (with_object 3 (plain [("strings", VBool false)])
       (with_object 1 (plain []) empty_world)).

(** The parameter array 2, [['a', 7, true]]. *)
Definition params_world : World :=
  with_object 2 (array [VStr "a"; VNum (NInt 7); VBool true]) empty_world.

(** The options object 2, [{ filename: 'a.js' }]. *)
Definition filename_world : World :=
  with_object 2 (plain [("filename", VStr "a.js")]) empty_world.

(** A plain object 1 and the run options 2, [{ timeout: 0 }]. *)
Definition timeout_world : World :=
  with_object 2 (plain [("timeout", VNum (NInt 0))])
    (with_object 1 (plain []) empty_world).

(** An outside call that belongs to a run on the target [target]: a
    compilation parses for that target (the module passes the context as
    [kParsingContext], and nothing for the host's own context), the engine
    runs on it, and a context that is made is the one.  Conversions of the
    code and the listener calls of the SIGINT bridge belong to any run; a
    function compilation, a resolver call or a read of a module record
    belongs to none. *)
Definition run_in (target : run_target) (e : event) : Prop :=
  match e with
  | EvCompile a =>
      ca_parsingContext a =
        match target with
        | ThisContext => VUndefined
        | InContext context => context
        end
  | EvRun t _ _ => t = target
  | EvMakeContext sandbox _ => target = InContext sandbox
  | EvToString _ | EvRemoveAllListeners | EvAddListener _ => True
  | EvCompileFunction _ | EvCall _ _ | EvGet _ _ => False
  end.

(** Every outside call satisfies [P]. *)
Definition traced (P : event -> Prop) (w w' : World) (t : list event) : Prop :=
  Forall P t.

(** * Properties *)

(** ** Laws of the monad *)

Lemma bind_ret_l {A B} (a : A) (f : A -> M B) (w : World) :
  bind (ret a) f w = f a w.
Proof. unfold bind, ret. by destruct (f a w) as [[c w2] t2]. Qed.

Lemma bind_throw {A B} (e : exn) (f : A -> M B) (w : World) :
  bind (throw e) f w = (Throw e, w, []).
Proof. reflexivity. Qed.

Lemma bind_get_world {B} (f : World -> M B) (w : World) :
  bind get_world f w = f w w.
Proof. unfold bind, get_world. by destruct (f w w) as [[c w2] t2]. Qed.

Lemma bind_assoc {A B C} (m : M A) (f : A -> M B) (g : B -> M C) (w : World) :
  bind (bind m f) g w = bind m (fun a => bind (f a) g) w.
Proof.
  unfold bind. destruct (m w) as [[[a|e] w1] t1]; [|done].
  destruct (f a w1) as [[[b|e] w2] t2]; [|done].
  destruct (g b w2) as [[c w3] t3]. by rewrite app_assoc.
Qed.

Lemma bind_ext {A B} (m : M A) (f g : A -> M B) (w : World) :
  (forall a w', f a w' = g a w') -> bind m f w = bind m g w.
Proof.
  intros Hfg. unfold bind. destruct (m w) as [[[a|e] w1] t1]; [|done].
  by rewrite Hfg.
Qed.

Lemma bind_pure {A B} (m : M A) (f : A -> M B) (w : World) (a : A) :
  m w = (Normal a, w, []) -> bind m f w = f a w.
Proof.
  intros Hm. unfold bind. rewrite Hm. by destruct (f a w) as [[c w2] t2].
Qed.

Lemma bind_fail {A B} (m : M A) (f : A -> M B) (w w' : World) e t :
  m w = (Throw e, w', t) -> bind m f w = (Throw e, w', t).
Proof. intros Hm. unfold bind. by rewrite Hm. Qed.

Lemma bind_step {A B} (m : M A) (f : A -> M B) (w w1 : World) (a : A) t1 :
  m w = (Normal a, w1, t1) -> bind m f w = after t1 (f a w1).
Proof. intros Hm. unfold bind, after. by rewrite Hm. Qed.

Lemma after_nil {A} (r : completion A * World * list event) : after [] r = r.
Proof. by destruct r as [[c w] t]. Qed.

Lemma after_after {A} t1 t2 (r : completion A * World * list event) :
  after t1 (after t2 r) = after (t1 ++ t2) r.
Proof. destruct r as [[c w] t]. cbn. by rewrite app_assoc. Qed.

#[local] Arguments bind : simpl never.
#[local] Arguments get_value_prop : simpl never.
#[local] Arguments get_prop : simpl never.
#[local] Arguments makeContext : simpl never.
#[local] Arguments validateString : simpl never.
#[local] Arguments validateObject : simpl never.
#[local] Arguments validateBool : simpl never.
#[local] Arguments validateInteger : simpl never.
#[local] Arguments validateUint32 : simpl never.
#[local] Arguments validateContext : simpl never.
#[local] Arguments next_default_name : simpl never.
#[local] Arguments _isContext : simpl never.
#[local] Arguments isContext : simpl never.
#[local] Arguments undefined_or : simpl never.
#[local] Arguments is_object : simpl never.

(** Decide the closed tests of the goal. *)
Ltac decides :=
  repeat match goal with
    | |- context [bool_decide ?P] =>
        first [ rewrite (bool_decide_eq_true_2 P) by done
              | rewrite (bool_decide_eq_false_2 P) by done ]
    end.

(** ** The validators *)

Lemma validateString_eq v n w :
  validateString v n w =
    if undefined_or "string" v then (Normal tt, w, [])
    else (Throw (ERR_INVALID_ARG_TYPE n ["string"] v), w, []).
Proof. unfold validateString, undefined_or. by repeat case_bool_decide. Qed.

Lemma validateBool_eq v n w :
  validateBool v n w =
    if undefined_or "boolean" v then (Normal tt, w, [])
    else (Throw (ERR_INVALID_ARG_TYPE n ["boolean"] v), w, []).
Proof. unfold validateBool, undefined_or. by repeat case_bool_decide. Qed.

Lemma validateObject_eq v n w :
  validateObject v n w =
    if bool_decide (v = VUndefined) || is_object v then (Normal tt, w, [])
    else (Throw (ERR_INVALID_ARG_TYPE n ["Object"] v), w, []).
Proof. unfold validateObject. case_bool_decide; by destruct (is_object v). Qed.

Lemma bind_validateString {B} v n (f : unit -> M B) w :
  bind (validateString v n) f w =
    if undefined_or "string" v then f tt w
    else (Throw (ERR_INVALID_ARG_TYPE n ["string"] v), w, []).
Proof.
  destruct (undefined_or "string" v) eqn:Hv.
  - apply bind_pure. by rewrite validateString_eq, Hv.
  - eapply bind_fail. by rewrite validateString_eq, Hv.
Qed.

Lemma bind_validateBool {B} v n (f : unit -> M B) w :
  bind (validateBool v n) f w =
    if undefined_or "boolean" v then f tt w
    else (Throw (ERR_INVALID_ARG_TYPE n ["boolean"] v), w, []).
Proof.
  destruct (undefined_or "boolean" v) eqn:Hv.
  - apply bind_pure. by rewrite validateBool_eq, Hv.
  - eapply bind_fail. by rewrite validateBool_eq, Hv.
Qed.

Lemma bind_validateObject {B} v n (f : unit -> M B) w :
  bind (validateObject v n) f w =
    if bool_decide (v = VUndefined) || is_object v then f tt w
    else (Throw (ERR_INVALID_ARG_TYPE n ["Object"] v), w, []).
Proof.
  destruct (bool_decide (v = VUndefined) || is_object v) eqn:Hv.
  - apply bind_pure. by rewrite validateObject_eq, Hv.
  - eapply bind_fail. by rewrite validateObject_eq, Hv.
Qed.

Lemma or_default_M_defined v d : v <> VUndefined -> or_default_M v d = ret v.
Proof. by destruct v. Qed.

Lemma undefined_or_default v :
  undefined_or "boolean" (or_default v (VBool true)) = undefined_or "boolean" v.
Proof. by destruct v. Qed.

(** ** [isContext] *)

Lemma is_object_spec (v : value) :
  is_object v = true <-> typeof v = "object" /\ v <> VNull.
Proof.
  unfold is_object. rewrite andb_true_iff, negb_true_iff.
  rewrite bool_decide_eq_true, bool_decide_eq_false. done.
Qed.

Lemma is_object_VObj (v : value) : is_object v = true <-> exists r, v = VObj r.
Proof.
  split.
  - destruct v; try discriminate. eauto.
  - by intros [r ->].
Qed.

Lemma isContext_eq (v : value) (w : World) :
  isContext v w =
    if is_object v then (Normal (_isContext w v), w, [])
    else (Throw (ERR_INVALID_ARG_TYPE "sandbox" ["Object"] v), w, []).
Proof.
  unfold isContext. destruct (is_object v); [|done].
  cbn [negb]. by rewrite bind_get_world.
Qed.

(** C5.  [isContext] throws exactly on the values that are not objects (by
    the module's own test: [typeof] is ['object'] and the value is not
    [null]), and then it is the invalid-argument type error; on every object
    it returns the boolean of the native predicate, context or not, touching
    nothing. *)
Theorem isContext_total (v : value) (w : World) :
  ((exists e w' t, isContext v w = (Throw e, w', t))
     <-> ~ (typeof v = "object" /\ v <> VNull))
  /\ (~ (typeof v = "object" /\ v <> VNull) ->
      isContext v w = (Throw (ERR_INVALID_ARG_TYPE "sandbox" ["Object"] v), w, []))
  /\ (typeof v = "object" /\ v <> VNull ->
      isContext v w = (Normal (_isContext w v), w, [])).
Proof.
  rewrite isContext_eq, <- is_object_spec.
  destruct (is_object v); split_and!.
  - split; [by intros (e & w' & t & [=]) | by intros []].
  - by intros [].
  - done.
  - split; [done | eauto].
  - done.
  - done.
Qed.

Lemma isContext_total_witness :
  isContext (VObj 1) empty_world = (Normal false, empty_world, [])
  /\ isContext (VNum (NInt 3)) empty_world =
       (Throw (ERR_INVALID_ARG_TYPE "sandbox" ["Object"] (VNum (NInt 3))),
        empty_world, []).
Proof.
  split.
  - apply (isContext_total (VObj 1) empty_world). by split.
  - apply (isContext_total (VNum (NInt 3)) empty_world). by intros [? ?].
Defined.

(** ** [createContext] *)

Lemma isContext_VObj r w :
  isContext (VObj r) w = (Normal (_isContext w (VObj r)), w, []).
Proof. by rewrite isContext_eq. Qed.

Lemma bind_makeContext {B} (r : ref) name origin strings wasm (f : unit -> M B) w :
  bind (makeContext (VObj r) name origin strings wasm) f w =
    let tag := ContextTag name origin strings wasm in
    after [EvMakeContext (VObj r) tag]
          (f tt (set_contexts (<[r := tag]> (contexts w)) w)).
Proof. by apply bind_step. Qed.

Lemma bind_next_default_name `{Engine} {B} (f : value -> M B) w :
  bind next_default_name f w =
    let i := defaultContextNameIndex w in
    f (VStr ("VM Context " +:+ NumberToString (NInt i)))
      (set_defaultContextNameIndex (if (i <? 2 ^ 53)%Z then i + 1 else i) w).
Proof. cbv zeta. erewrite bind_step; [apply after_nil|done]. Qed.

Lemma _isContext_VObj (w : World) (v : value) :
  _isContext w v = true -> exists r, v = VObj r.
Proof. destruct v; try discriminate. eauto. Qed.

Lemma createContext_of_context `{Engine} (x : value) (o : ctxarg) (w : World) :
  _isContext w x = true -> createContext x o w = (Normal x, w, []).
Proof.
  intros Hx. destruct (_isContext_VObj _ _ Hx) as [r ->].
  unfold createContext. rewrite bind_ret_l.
  rewrite (bind_pure _ _ _ _ (isContext_VObj r w)). by rewrite Hx.
Qed.

(** What [createContext] does to an object that is not yet a context: with
    valid options it registers the object itself, with others it throws
    before the native call. *)
Lemma createContext_valid `{Engine} (x options : value) (w : World) :
  is_object x = true -> _isContext w x = false ->
  if valid_context_options w options then
    exists w' tag,
      createContext x (CVal options) w = (Normal x, w', [EvMakeContext x tag])
      /\ _isContext w' x = true /\ heap w' = heap w
  else exists e w', createContext x (CVal options) w = (Throw e, w', []).
Proof.
  intros Hobj Hctx. apply is_object_VObj in Hobj as [r ->].
  unfold createContext. rewrite bind_ret_l.
  rewrite (bind_pure _ _ _ _ (isContext_VObj r w)). rewrite Hctx.
  unfold valid_context_options.
  assert (Hfin : forall n o s ws w0, heap w0 = heap w ->
    exists w' tag,
      (makeContext (VObj r) n o s ws ;; ret (VObj r)) w0 =
        (Normal (VObj r), w', [EvMakeContext (VObj r) tag])
      /\ _isContext w' (VObj r) = true /\ heap w' = heap w).
  { intros n o s ws w0 Hw0. rewrite bind_makeContext. cbn.
    eexists _, _. split_and!; [done| |done].
    apply bool_decide_eq_true_2. cbn. by rewrite lookup_insert_eq. }
  destruct (decide (options = VUndefined)) as [->|Hu].
  { cbn. rewrite bind_get_world. cbn.
    rewrite bind_next_default_name. cbn. decides. cbn.
    rewrite bind_validateString.
    change (undefined_or "string" VUndefined) with true. cbv iota.
    rewrite bind_validateObject. decides. cbn.
    edestruct Hfin as (w' & tag & -> & ? & ?); [|eauto]. done. }
  rewrite (bool_decide_eq_false_2 _ Hu). cbn [orb].
  replace (default_ctxarg (CVal options)) with (CVal options)
    by (by destruct options).
  cbn [ctxarg_is_object ctxarg_value].
  destruct (is_object options) eqn:Hoo; cbn [negb andb]; [|by eexists _, _].
  rewrite bind_get_world.
  cbn [options_name options_origin options_codeGeneration].
  generalize (get_value_prop w options "name") as n.
  generalize (get_value_prop w options "origin") as o.
  generalize (get_value_prop w options "codeGeneration") as cg. intros cg o n.
  cbn [codeGeneration_is_undefined codeGeneration_strings codeGeneration_wasm].
  assert (Hname :
    (n = VUndefined /\ undefined_or "string" n = true)
    \/ (n <> VUndefined
        /\ undefined_or "string" n = bool_decide (typeof n = "string"))).
  { unfold undefined_or. destruct (decide (n = VUndefined)) as [->|Hn];
      [left|right]; split; try done.
    by rewrite (bool_decide_eq_false_2 _ Hn). }
  destruct Hname as [[-> ->]|[Hn ->]].
  - cbn [or_default_M]. rewrite bind_next_default_name. cbn [typeof]. decides.
    cbn [negb andb]. cbv zeta. rewrite bind_validateString.
    destruct (undefined_or "string" o); cbn [andb]; [|by eexists _, _].
    rewrite bind_validateObject.
    destruct (bool_decide (cg = VUndefined)); cbn [orb]; [by apply Hfin|].
    destruct (is_object cg) eqn:Hocg; cbn [andb]; [|by eexists _, _].
    rewrite bind_validateBool, undefined_or_default.
    destruct (undefined_or "boolean" (get_value_prop w cg "strings"));
      cbn [andb]; [|by eexists _, _].
    rewrite bind_validateBool, undefined_or_default.
    destruct (undefined_or "boolean" (get_value_prop w cg "wasm"));
      cbn [andb]; [|by eexists _, _].
    by apply Hfin.
  - rewrite (or_default_M_defined _ _ Hn), bind_ret_l.
    destruct (bool_decide (typeof n = "string")); cbn [negb andb];
      [|by eexists _, _].
    rewrite bind_validateString.
    destruct (undefined_or "string" o); cbn [andb]; [|by eexists _, _].
    rewrite bind_validateObject.
    destruct (bool_decide (cg = VUndefined)); cbn [orb]; [by apply Hfin|].
    destruct (is_object cg) eqn:Hocg; cbn [andb]; [|by eexists _, _].
    rewrite bind_validateBool, undefined_or_default.
    destruct (undefined_or "boolean" (get_value_prop w cg "strings"));
      cbn [andb]; [|by eexists _, _].
    rewrite bind_validateBool, undefined_or_default.
    destruct (undefined_or "boolean" (get_value_prop w cg "wasm"));
      cbn [andb]; [|by eexists _, _].
    by apply Hfin.
Qed.

Lemma bind_Normal_inv {A B} (m : M A) (f : A -> M B) w b w' t :
  bind m f w = (Normal b, w', t) ->
  exists a w1 t1 t2,
    m w = (Normal a, w1, t1) /\ f a w1 = (Normal b, w', t2) /\ t = t1 ++ t2.
Proof.
  unfold bind. destruct (m w) as [[[a|e] w1] t1]; [|done].
  destruct (f a w1) as [[c w2] t2] eqn:Hf. intros [= -> -> <-].
  by eexists _, _, _, _.
Qed.

Lemma makeContext_is_context r name origin strings wasm w c w' t :
  makeContext (VObj r) name origin strings wasm w = (c, w', t) ->
  _isContext w' (VObj r) = true.
Proof.
  unfold makeContext. intros [= <- <- <-].
  apply bool_decide_eq_true_2. cbn. by rewrite lookup_insert_eq.
Qed.

(** Whatever [createContext] returns is a context afterwards. *)
Lemma createContext_result_is_context `{Engine} x o w v w1 t1 :
  createContext x o w = (Normal v, w1, t1) -> _isContext w1 v = true.
Proof.
  unfold createContext. intros Hc.
  apply bind_Normal_inv in Hc as (s & w0 & t0 & t2 & _ & Hc & _).
  apply bind_Normal_inv in Hc as (b & w2 & t3 & t4 & Hb & Hc & _).
  rewrite isContext_eq in Hb. destruct (is_object s) eqn:Hs; [|done].
  injection Hb as <- <- <-. apply is_object_VObj in Hs as [r ->].
  destruct (_isContext w0 (VObj r)) eqn:Hr.
  { by injection Hc as <- <- <-. }
  destruct (negb _); [done|].
  apply bind_Normal_inv in Hc as (w3 & w4 & ? & ? & [= <- <- <-] & Hc & _).
  apply bind_Normal_inv in Hc as (name & w5 & ? & ? & _ & Hc & _).
  destruct (negb _); [done|].
  apply bind_Normal_inv in Hc as (? & w6 & ? & ? & _ & Hc & _).
  apply bind_Normal_inv in Hc as (? & w7 & ? & ? & _ & Hc & _).
  destruct (codeGeneration_is_undefined _).
  - apply bind_Normal_inv in Hc as (? & w8 & ? & ? & Hm & [= <- <- <-] & _).
    by eapply makeContext_is_context.
  - apply bind_Normal_inv in Hc as (? & w8 & ? & ? & _ & Hc & _).
    apply bind_Normal_inv in Hc as (? & w9 & ? & ? & _ & Hc & _).
    apply bind_Normal_inv in Hc as (? & w10 & ? & ? & Hm & [= <- <- <-] & _).
    by eapply makeContext_is_context.
Qed.

(** C2.  [createContext] is idempotent: a recognised context is returned
    itself, whatever the options, and nothing changes and nothing is called;
    so applying [createContext] to anything [createContext] returned gives the
    same object back, and for every object [x] the call [createContext(x)]
    returns [x]. *)
Theorem createContext_idempotent `{Engine} (x : value) (w : World) :
  (forall options,
     _isContext w x = true -> createContext x options w = (Normal x, w, []))
  /\ (forall options v w1 t1,
       createContext x options w = (Normal v, w1, t1) ->
       forall options', createContext v options' w1 = (Normal v, w1, []))
  /\ (is_object x = true ->
      exists w1 t1, createContext x (CVal VUndefined) w = (Normal x, w1, t1)).
Proof.
  split_and!.
  - intros options Hx. by apply createContext_of_context.
  - intros options v w1 t1 Hc options'.
    apply createContext_of_context. by eapply createContext_result_is_context.
  - intros Hx. destruct (_isContext w x) eqn:Hctx.
    + eexists _, _. by apply createContext_of_context.
    + destruct (createContext_valid x VUndefined w Hx Hctx)
        as (w' & tag & Hc & _). eauto.
Qed.

Lemma createContext_idempotent_witness :
  @createContext idle_engine (VObj 1) (CVal VUndefined) context_world =
    (Normal (VObj 1), context_world, []).
Proof.
  apply (@createContext_idempotent idle_engine (VObj 1) context_world).
  reflexivity.
Defined.

(** C9.  [createContext] contextifies the sandbox in place: for an object [x]
    that is not a context and valid options, the call returns [x] itself
    after one native [makeContext] call on [x]; the heap is as before (no
    wrapper object is made) and [x] satisfies the context predicate
    afterwards. *)
Theorem createContext_in_place `{Engine} (x options : value) (w : World) :
  is_object x = true ->
  _isContext w x = false ->
  valid_context_options w options = true ->
  exists w' tag,
    createContext x (CVal options) w = (Normal x, w', [EvMakeContext x tag])
    /\ isContext x w' = (Normal true, w', [])
    /\ heap w' = heap w.
Proof.
  intros Hx Hctx Hvalid.
  pose proof (createContext_valid x options w Hx Hctx) as Hc.
  rewrite Hvalid in Hc. destruct Hc as (w' & tag & Hc & Hctx' & Hheap).
  exists w', tag. split_and!; [done| |done].
  by rewrite isContext_eq, Hx, Hctx'.
Qed.

Lemma createContext_in_place_witness :
  exists w' tag,
    @createContext idle_engine (VObj 1) (CVal (VObj 2)) sandbox_world =
      (Normal (VObj 1), w', [EvMakeContext (VObj 1) tag])
    /\ isContext (VObj 1) w' = (Normal true, w', [])
    /\ heap w' = heap sandbox_world.
Proof.
  apply (@createContext_in_place idle_engine (VObj 1) (VObj 2) sandbox_world);
    reflexivity.
Defined.

(** ** The SIGINT bridge *)

Lemma for_of_addListener (l : list value) (w : World) :
  for_of l process_addListener w =
    (Normal tt, set_sigint (sigint w ++ l) w, map EvAddListener l).
Proof.
  revert w. induction l as [|x l IH]; intros w.
  - cbn. rewrite app_nil_r. by destruct w.
  - cbn [for_of]. erewrite bind_step; [|done]. rewrite IH. cbn.
    by rewrite <- app_assoc.
Qed.

(** The wrapper on every completion [c] of the wrapped call: the call runs
    with no listener attached, and the saved listeners are added, in order,
    after what the call left. *)
Lemma sigintHandlersWrap_eq {A} (fn : M A) (w : World) :
  sigintHandlersWrap fn w =
    let '(c, w1, t1) := fn (set_sigint [] w) in
    (c, set_sigint (sigint w1 ++ sigint w) w1,
     EvRemoveAllListeners :: t1 ++ map EvAddListener (sigint w)).
Proof.
  unfold sigintHandlersWrap, process_rawListeners, process_removeAllListeners.
  erewrite bind_pure; [|done]. erewrite bind_step; [|done].
  unfold try_finally. destruct (fn (set_sigint [] w)) as [[c w1] t1].
  by rewrite for_of_addListener.
Qed.

Lemma getRunInContextArgs_inv (o : arg) (w : World) c w' t :
  getRunInContextArgs o w = (c, w', t) ->
  w' = w /\ t = []
  /\ forall b args, c = Normal (b, args) ->
       b = or_default (get_prop w (default_options o) "breakOnSigint")
                      (VBool false)
       /\ typeof b = "boolean".
Proof.
  unfold getRunInContextArgs.
  destruct (negb (arg_is_object (default_options o))).
  { by intros [= <- <- <-]. }
  rewrite bind_get_world.
  set (timeout := get_prop w (default_options o) "timeout").
  set (brk := or_default _ (VBool false)).
  set (disp := or_default _ (VBool true)).
  assert (Hnext : forall tm c w' t,
    (if negb (bool_decide (typeof disp = "boolean"))
     then invalid_arg_type "options.displayErrors" "boolean" disp
     else if negb (bool_decide (typeof brk = "boolean"))
          then invalid_arg_type "options.breakOnSigint" "boolean" brk
          else ret (brk, RunArgs tm disp brk)) w = (c, w', t) ->
    w' = w /\ t = []
    /\ forall b args, c = Normal (b, args) -> b = brk /\ typeof b = "boolean").
  { intros tm c0 w0 t0. destruct (negb _); [by intros [= <- <- <-]|].
    case_bool_decide as Hb; cbn [negb]; intros [= <- <- <-]; [|done].
    split_and!; try done. by intros b args [= <- <-]. }
  destruct timeout as [| | |[z| | | |]| | | | |];
    try (by (erewrite bind_fail; [|done]); intros [= <- <- <-]);
    try (by rewrite bind_ret_l; apply Hnext).
  destruct (z <=? 0)%Z.
  - by (erewrite bind_fail; [|done]); intros [= <- <- <-].
  - rewrite bind_ret_l. apply Hnext.
Qed.

Lemma wants_sigint_wrap_eq (b : value) (w : World) :
  wants_sigint_wrap b w =
    (Normal (truthy b && bool_decide (0 < length (sigint w))%nat), w, []).
Proof.
  unfold wants_sigint_wrap. destruct (truthy b); [|done].
  by erewrite bind_pure.
Qed.

Lemma bridged_run_eq `{Engine} t this args w :
  sigintHandlersWrap (super_run t this args) w = bridged_run t this args w.
Proof.
  rewrite sigintHandlersWrap_eq. unfold super_run, bridged_run.
  by destruct (ContextifyScript_run _ _ _ _) as [c w1].
Qed.

Lemma validateContext_eq (v : value) (w : World) :
  validateContext v w =
    if negb (is_object v) then
      (Throw (ERR_INVALID_ARG_TYPE "contextifiedSandbox" ["Object"] v), w, [])
    else if negb (_isContext w v) then
      (Throw (ERR_INVALID_ARG_TYPE "contextifiedSandbox" ["vm.Context"] v), w, [])
    else (Normal tt, w, []).
Proof.
  unfold validateContext. destruct (negb (is_object v)); [done|].
  rewrite bind_get_world. by destruct (negb (_isContext w v)).
Qed.

(** C1, as amended.  With [breakOnSigint] true and a listener registered, the
    run detaches all listeners, lets the engine run, and on every completion
    of the engine (normal return, timeout, interruption, any other throw)
    adds the saved listeners again, in order, through [addListener], behind
    the listeners the executed code left registered.  When the executed code
    leaves none, the listeners after the call are those before it. *)
Theorem sigint_listeners_reattached `{Engine} (this : ref) (ctx : value)
    (options : arg) (args : run_args) (w : World) :
  getRunInContextArgs options w = (Normal (VBool true, args), w, []) ->
  sigint w <> [] ->
  Script_runInThisContext this options w = bridged_run ThisContext this args w
  /\ (validateContext ctx w = (Normal tt, w, []) ->
      Script_runInContext this ctx options w =
        bridged_run (InContext ctx) this args w)
  /\ (forall t c w1,
        ContextifyScript_run t this args (set_sigint [] w) = (c, w1) ->
        exists w',
          bridged_run t this args w =
            (c, w',
             [EvRemoveAllListeners; EvRun t this args]
               ++ map EvAddListener (sigint w))
          /\ sigint w' = sigint w1 ++ sigint w
          /\ (sigint w1 = [] -> sigint w' = sigint w)).
Proof.
  intros Hargs Hne.
  assert (Hwrap : wants_sigint_wrap (VBool true) w = (Normal true, w, [])).
  { rewrite wants_sigint_wrap_eq. cbn. rewrite bool_decide_eq_true_2; [done|].
    destruct (sigint w); [done|cbn; lia]. }
  split_and!.
  - unfold Script_runInThisContext.
    rewrite (bind_pure _ _ _ _ Hargs), (bind_pure _ _ _ _ Hwrap).
    apply bridged_run_eq.
  - intros Hctx. unfold Script_runInContext.
    rewrite (bind_pure _ _ _ _ Hctx).
    rewrite (bind_pure _ _ _ _ Hargs), (bind_pure _ _ _ _ Hwrap).
    apply bridged_run_eq.
  - intros t c w1 Hrun. unfold bridged_run. rewrite Hrun.
    eexists. split_and!; [done|done|]. cbn. by intros ->.
Qed.

Lemma sigint_listeners_reattached_witness :
  @Script_runInThisContext idle_engine 1 (AVal (VObj 2)) sigint_world =
    @bridged_run idle_engine ThisContext 1
      (RunArgs (VNum (NInt (-1))) (VBool true) (VBool true)) sigint_world.
Proof.
  apply (@sigint_listeners_reattached idle_engine 1 VNull (AVal (VObj 2))
           (RunArgs (VNum (NInt (-1))) (VBool true) (VBool true)) sigint_world).
  - reflexivity.
  - discriminate.
Defined.

(** C1 as stated fails when the executed code registers a SIGINT listener of
    its own: one listener before the call, two after it. *)
Lemma sigint_listeners_not_restored :
  get_prop sigint_world (AVal (VObj 2)) "breakOnSigint" = VBool true
  /\ sigint sigint_world = [VFun 7]
  /\ exists w',
       @Script_runInThisContext registering_engine 1 (AVal (VObj 2)) sigint_world =
         (Normal VUndefined, w',
          [EvRemoveAllListeners;
           EvRun ThisContext 1
             (RunArgs (VNum (NInt (-1))) (VBool true) (VBool true));
           EvAddListener (VFun 7)])
       /\ sigint w' = [VFun 9; VFun 7].
Proof. split_and!; [done|done|]. eexists. split; reflexivity. Qed.

(** C4.  With [breakOnSigint] false, or with no SIGINT listener registered,
    a run is the engine's run and nothing else: the same completion, the same
    world, one outside call; whatever the options, such a run makes no
    [removeAllListeners] and no [addListener] call. *)
Theorem run_without_bridge `{Engine} (this : ref) (ctx : value)
    (options : arg) (w : World) :
  get_prop w (default_options options) "breakOnSigint" <> VBool true
  \/ sigint w = [] ->
  (forall b args,
     getRunInContextArgs options w = (Normal (b, args), w, []) ->
     Script_runInThisContext this options w = super_run ThisContext this args w
     /\ (validateContext ctx w = (Normal tt, w, []) ->
         Script_runInContext this ctx options w =
           super_run (InContext ctx) this args w))
  /\ (forall c w' t,
        Script_runInThisContext this options w = (c, w', t) ->
        forallb (fun e => negb (listener_event e)) t = true)
  /\ (forall c w' t,
        Script_runInContext this ctx options w = (c, w', t) ->
        forallb (fun e => negb (listener_event e)) t = true).
Proof.
  intros Hoff.
  assert (Hwrap : forall b args,
    getRunInContextArgs options w = (Normal (b, args), w, []) ->
    wants_sigint_wrap b w = (Normal false, w, [])).
  { intros b args Hargs. rewrite wants_sigint_wrap_eq.
    destruct (getRunInContextArgs_inv _ _ _ _ _ Hargs) as (_ & _ & Hb).
    destruct (Hb b args eq_refl) as [Hbrk Hty].
    destruct Hoff as [Hoff| ->]; [|by rewrite andb_false_r].
    destruct b as [| |[]| | | | | |]; try done.
    destruct (get_prop w (default_options options) "breakOnSigint");
      cbn in Hbrk; congruence. }
  assert (Hthis : forall b args,
    getRunInContextArgs options w = (Normal (b, args), w, []) ->
    Script_runInThisContext this options w = super_run ThisContext this args w).
  { intros b args Hargs. unfold Script_runInThisContext.
    by rewrite (bind_pure _ _ _ _ Hargs), (bind_pure _ _ _ _ (Hwrap _ _ Hargs)). }
  assert (Hin : forall b args,
    getRunInContextArgs options w = (Normal (b, args), w, []) ->
    validateContext ctx w = (Normal tt, w, []) ->
    Script_runInContext this ctx options w =
      super_run (InContext ctx) this args w).
  { intros b args Hargs Hctx. unfold Script_runInContext.
    rewrite (bind_pure _ _ _ _ Hctx).
    by rewrite (bind_pure _ _ _ _ Hargs), (bind_pure _ _ _ _ (Hwrap _ _ Hargs)). }
  assert (Hrun : forall t args c w' tr,
    super_run t this args w = (c, w', tr) ->
    forallb (fun e => negb (listener_event e)) tr = true).
  { intros t args c w' tr. unfold super_run.
    destruct (ContextifyScript_run _ _ _ _). by intros [= <- <- <-]. }
  split_and!.
  - intros b args Hargs. split; [by eapply Hthis|by eapply Hin].
  - intros c w' t.
    destruct (getRunInContextArgs options w) as [[[[b args]|e] w0] t0] eqn:Hargs.
    + destruct (getRunInContextArgs_inv _ _ _ _ _ Hargs) as (-> & -> & _).
      rewrite (Hthis _ _ eq_refl). apply Hrun.
    + unfold Script_runInThisContext. rewrite (bind_fail _ _ _ _ _ _ Hargs).
      destruct (getRunInContextArgs_inv _ _ _ _ _ Hargs) as (-> & -> & _).
      by intros [= <- <- <-].
  - intros c w' t. pose proof (validateContext_eq ctx w) as Hctx.
    destruct (negb (is_object ctx));
      [unfold Script_runInContext; rewrite (bind_fail _ _ _ _ _ _ Hctx);
       by intros [= <- <- <-]|].
    destruct (negb (_isContext w ctx));
      [unfold Script_runInContext; rewrite (bind_fail _ _ _ _ _ _ Hctx);
       by intros [= <- <- <-]|].
    destruct (getRunInContextArgs options w) as [[[[b args]|e] w0] t0] eqn:Hargs.
    + destruct (getRunInContextArgs_inv _ _ _ _ _ Hargs) as (-> & -> & _).
      rewrite (Hin _ _ eq_refl Hctx). apply Hrun.
    + unfold Script_runInContext. rewrite (bind_pure _ _ _ _ Hctx).
      rewrite (bind_fail _ _ _ _ _ _ Hargs).
      destruct (getRunInContextArgs_inv _ _ _ _ _ Hargs) as (-> & -> & _).
      by intros [= <- <- <-].
Qed.

Lemma run_without_bridge_witness :
  @Script_runInThisContext registering_engine 1 (AVal VUndefined) sigint_world =
    @super_run registering_engine ThisContext 1
      (RunArgs (VNum (NInt (-1))) (VBool true) (VBool false)) sigint_world.
Proof.
  eapply (@run_without_bridge registering_engine 1 VNull (AVal VUndefined)
            sigint_world).
  - left. discriminate.
  - reflexivity.
Defined.

(** ** The offset validators *)

Lemma ToInt32_fixed (z : Z) : ToInt32 z = z <-> int32 z.
Proof.
  unfold ToInt32, int32. split.
  - intros Hz. pose proof (Z.mod_pos_bound (z + 2 ^ 31) (2 ^ 32)). lia.
  - intros Hz. rewrite Z.mod_small; lia.
Qed.

Lemma ToUint32_fixed (z : Z) : ToUint32 z = z <-> uint32 z.
Proof.
  unfold ToUint32, uint32. split.
  - intros Hz. pose proof (Z.mod_pos_bound z (2 ^ 32)). lia.
  - intros Hz. rewrite Z.mod_small; lia.
Qed.

Lemma validateInteger_int (z : Z) (name : string) (w : World) :
  (int32 z -> validateInteger (VNum (NInt z)) name w = (Normal tt, w, []))
  /\ (~ int32 z ->
      validateInteger (VNum (NInt z)) name w =
        (Throw (ERR_OUT_OF_RANGE name "32-bit integer" (VNum (NInt z))), w, [])).
Proof.
  unfold validateInteger. rewrite <- ToInt32_fixed.
  split; intros Hz; by case_bool_decide.
Qed.

Lemma validateUint32_int (z : Z) (name : string) (w : World) :
  (uint32 z -> validateUint32 (VNum (NInt z)) name w = (Normal tt, w, []))
  /\ (~ uint32 z ->
      validateUint32 (VNum (NInt z)) name w =
        (Throw (ERR_OUT_OF_RANGE name ">= 0 && < 4294967296" (VNum (NInt z))),
         w, [])).
Proof.
  unfold validateUint32. rewrite <- ToUint32_fixed.
  split; intros Hz; by case_bool_decide.
Qed.

(** ** Loops over arrays *)

Lemma ArrayForEach_from_pass {A} (i : nat) (l : list A) body (w : World) :
  (forall j x, l !! j = Some x -> body x (i + j)%nat w = (Normal tt, w, [])) ->
  ArrayForEach_from i l body w = (Normal tt, w, []).
Proof.
  revert i. induction l as [|x l IH]; intros i Hl; [done|].
  cbn [ArrayForEach_from]. erewrite bind_pure.
  - apply IH. intros j y Hj. replace (S i + j)%nat with (i + S j)%nat by lia.
    by apply Hl.
  - specialize (Hl 0%nat x eq_refl). by rewrite Nat.add_0_r in Hl.
Qed.

Lemma ArrayForEach_from_stop {A} (i : nat) (pre post : list A) (x : A) body
    (w : World) e :
  (forall j y, pre !! j = Some y -> body y (i + j)%nat w = (Normal tt, w, [])) ->
  body x (i + length pre)%nat w = (Throw e, w, []) ->
  ArrayForEach_from i (pre ++ x :: post) body w = (Throw e, w, []).
Proof.
  revert i. induction pre as [|y pre IH]; intros i Hpre Hx.
  - cbn [app ArrayForEach_from]. eapply bind_fail.
    cbn in Hx. by rewrite Nat.add_0_r in Hx.
  - cbn [app ArrayForEach_from]. erewrite bind_pure.
    + apply IH.
      * intros j z Hj. replace (S i + j)%nat with (i + S j)%nat by lia.
        by apply Hpre.
      * replace (S i + length pre)%nat with (i + length (y :: pre))%nat
          by (cbn; lia). done.
    + specialize (Hpre 0%nat y eq_refl). by rewrite Nat.add_0_r in Hpre.
Qed.

Lemma validate_params_valid (w : World) (params : value) :
  valid_params w params -> validate_params w params w = (Normal tt, w, []).
Proof.
  unfold validate_params. intros [->|(items & Hitems & Hall)]; [done|].
  case_bool_decide; [done|]. rewrite Hitems.
  apply ArrayForEach_from_pass. intros j x Hj.
  rewrite Forall_lookup in Hall. rewrite (Hall _ _ Hj). by decides.
Qed.

Lemma validate_contextExtensions_pass (items : list value) (w : World) :
  Forall (fun extension => typeof extension = "object") items ->
  validate_contextExtensions items w = (Normal tt, w, []).
Proof.
  intros Hall. apply ArrayForEach_from_pass. intros j x Hj.
  rewrite Forall_lookup in Hall. rewrite (Hall _ _ Hj). by decides.
Qed.

Lemma validate_contextExtensions_stop (pre post : list value) (x : value)
    (w : World) :
  Forall (fun extension => typeof extension = "object") pre ->
  typeof x <> "object" ->
  validate_contextExtensions (pre ++ x :: post) w =
    (Throw (ERR_INVALID_ARG_TYPE
              (index_name "options.contextExtensions" (length pre))
              ["object"] x), w, []).
Proof.
  intros Hall Hx. apply ArrayForEach_from_stop.
  - intros j y Hj. rewrite Forall_lookup in Hall. rewrite (Hall _ _ Hj).
    by decides.
  - by rewrite (bool_decide_eq_false_2 _ Hx).
Qed.

(** ** [compileFunction] *)

Lemma compileFunction_not_string `{Engine} (code params options : value)
    (w : World) :
  typeof code <> "string" ->
  compileFunction code params options w =
    (Throw (ERR_INVALID_ARG_TYPE "code" ["string"] code), w, []).
Proof.
  intros Hcode. unfold compileFunction.
  by rewrite (bool_decide_eq_false_2 _ Hcode).
Qed.

Lemma validate_parsingContext_valid (w : World) (parsingContext : value) :
  parsingContext = VUndefined \/ _isContext w parsingContext = true ->
  validate_parsingContext parsingContext w = (Normal tt, w, []).
Proof.
  unfold validate_parsingContext. intros [->|Hctx]; [done|].
  case_bool_decide; [done|].
  destruct (_isContext_VObj _ _ Hctx) as [r ->].
  change (negb (is_object (VObj r))) with false. cbv iota.
  rewrite bind_assoc, (bind_pure _ _ _ _ (isContext_VObj r w)), Hctx.
  by rewrite !bind_ret_l.
Qed.

Lemma contextExtensions_items_eq (w : World) (options : value) :
  contextExtensions_items w
    (get_prop w (default_options (AVal options)) "contextExtensions") w =
    match extensions_of w options with
    | Some items => (Normal items, w, [])
    | None =>
        (Throw (ERR_INVALID_ARG_TYPE "options.contextExtensions" ["Array"]
                  (get_prop w (default_options (AVal options))
                     "contextExtensions")), w, [])
    end.
Proof.
  unfold contextExtensions_items, extensions_of. cbv zeta.
  case_bool_decide; [done|]. by destruct (ArrayIsArray _ _).
Qed.

(** [compileFunction] up to the two offsets, for arguments that pass the
    checks before them. *)
Lemma compileFunction_offsets `{Engine} (code params options : value)
    (w : World) (zc zl : Z) :
  typeof code = "string" ->
  valid_params w params ->
  options <> VNull ->
  typeof (option_of w (AVal options) "filename" (VStr "")) = "string" ->
  option_of w (AVal options) "columnOffset" (VNum (NInt 0)) = VNum (NInt zc) ->
  option_of w (AVal options) "lineOffset" (VNum (NInt 0)) = VNum (NInt zl) ->
  (~ uint32 zc ->
   compileFunction code params options w =
     (Throw (ERR_OUT_OF_RANGE "options.columnOffset" ">= 0 && < 4294967296"
               (VNum (NInt zc))), w, []))
  /\ (uint32 zc -> ~ uint32 zl ->
      compileFunction code params options w =
        (Throw (ERR_OUT_OF_RANGE "options.lineOffset" ">= 0 && < 4294967296"
                  (VNum (NInt zl))), w, [])).
Proof.
  intros Hcode Hparams Hnull Hfile Hcol Hline.
  unfold option_of in *. unfold compileFunction.
  rewrite (bool_decide_eq_true_2 _ Hcode). cbn [negb].
  rewrite bind_get_world.
  rewrite (bind_pure _ _ _ _ (validate_params_valid _ _ Hparams)).
  rewrite bool_decide_eq_false_2 by (by destruct options).
  rewrite bind_ret_l.
  rewrite (bool_decide_eq_true_2 _ Hfile). cbn [negb].
  rewrite Hcol, Hline.
  destruct (validateUint32_int zc "options.columnOffset" w) as [Hc1 Hc2].
  destruct (validateUint32_int zl "options.lineOffset" w) as [Hl1 Hl2].
  split.
  - intros Hzc. by rewrite (bind_fail _ _ _ _ _ _ (Hc2 Hzc)).
  - intros Hzc Hzl. rewrite (bind_pure _ _ _ _ (Hc1 Hzc)).
    by rewrite (bind_fail _ _ _ _ _ _ (Hl2 Hzl)).
Qed.

(** [compileFunction] from the context extensions on, for arguments that
    pass every check before them. *)
Lemma compileFunction_extensions `{Engine} (code params options : value)
    (w : World) (items : list value) :
  typeof code = "string" ->
  valid_params w params ->
  valid_function_options w options ->
  valid_offsets w options ->
  extensions_of w options = Some items ->
  compileFunction code params options w =
    (validate_contextExtensions items ;;
     _compileFunction (function_args_of w code params options items)) w.
Proof.
  intros Hcode Hparams (Hnull & Hfile & Hcached & Hproduce & Hparsing)
    (zc & zl & Hcol & Hzc & Hline & Hzl) Hitems.
  unfold option_of in *. unfold compileFunction.
  rewrite (bool_decide_eq_true_2 _ Hcode). cbn [negb].
  rewrite bind_get_world.
  rewrite (bind_pure _ _ _ _ (validate_params_valid _ _ Hparams)).
  rewrite bool_decide_eq_false_2 by (by destruct options).
  rewrite bind_ret_l.
  rewrite (bool_decide_eq_true_2 _ Hfile). cbn [negb].
  unfold function_args_of. cbv zeta. rewrite Hcol, Hline.
  destruct (validateUint32_int zc "options.columnOffset" w) as [Hc1 _].
  destruct (validateUint32_int zl "options.lineOffset" w) as [Hl1 _].
  rewrite (bind_pure _ _ _ _ (Hc1 Hzc)), (bind_pure _ _ _ _ (Hl1 Hzl)).
  replace (negb (bool_decide (_ = VUndefined)) && negb (isUint8Array w _))
    with false.
  2:{ destruct Hcached as [-> | ->]; [done|by rewrite andb_false_r]. }
  rewrite (bool_decide_eq_true_2 _ Hproduce). cbn [negb].
  rewrite (bind_pure _ _ _ _ (validate_parsingContext_valid _ _ Hparsing)).
  pose proof (contextExtensions_items_eq w options) as Hce.
  rewrite Hitems in Hce. by rewrite (bind_pure _ _ _ _ Hce).
Qed.

(** C10.  The check of [contextExtensions] looks at [typeof] only.  When
    every element has [typeof] ['object'] (and [null] has), the call is the
    native call with the very elements forwarded; otherwise the first element
    whose [typeof] is not ['object'] raises the invalid-argument error that
    names its index, before any native call. *)
Theorem contextExtensions_typeof_object `{Engine} (code params options : value)
    (w : World) (items : list value) :
  typeof code = "string" ->
  valid_params w params ->
  valid_function_options w options ->
  valid_offsets w options ->
  extensions_of w options = Some items ->
  (Forall (fun extension => typeof extension = "object") items ->
   compileFunction code params options w =
     _compileFunction (function_args_of w code params options items) w
   /\ fa_contextExtensions (function_args_of w code params options items)
      = items)
  /\ (Forall (fun extension => extension = VNull \/ exists r, extension = VObj r)
             items ->
      compileFunction code params options w =
        _compileFunction (function_args_of w code params options items) w)
  /\ (forall pre extension post,
        items = pre ++ extension :: post ->
        Forall (fun extension => typeof extension = "object") pre ->
        typeof extension <> "object" ->
        compileFunction code params options w =
          (Throw (ERR_INVALID_ARG_TYPE
                    (index_name "options.contextExtensions" (length pre))
                    ["object"] extension), w, [])).
Proof.
  intros Hcode Hparams Hoptions Hoffsets Hitems.
  rewrite (compileFunction_extensions _ _ _ _ _ Hcode Hparams Hoptions
             Hoffsets Hitems).
  assert (Hpass : Forall (fun extension => typeof extension = "object") items ->
    (validate_contextExtensions items ;;
     _compileFunction (function_args_of w code params options items)) w =
    _compileFunction (function_args_of w code params options items) w).
  { intros Hall.
    by rewrite (bind_pure _ _ _ _ (validate_contextExtensions_pass _ w Hall)). }
  split_and!.
  - intros Hall. split; [by apply Hpass|done].
  - intros Hall. apply Hpass. eapply Forall_impl; [exact Hall|].
    by intros x [->|[r ->]].
  - intros pre x post -> Hpre Hx.
    by rewrite (bind_fail _ _ _ _ _ _
                  (validate_contextExtensions_stop pre post x w Hpre Hx)).
Qed.

Lemma contextExtensions_typeof_object_witness :
  @compileFunction idle_engine (VStr "return 1") VUndefined (VObj 2)
     extensions_world =
    (Normal (VFun 1), extensions_world,
     [EvCompileFunction
        (FunctionArgs (VStr "return 1") (VStr "") (VNum (NInt 0))
           (VNum (NInt 0)) VUndefined (VBool false) VUndefined
           [VNull; VObj 4] None)]).
Proof.
  destruct (@contextExtensions_typeof_object idle_engine (VStr "return 1")
              VUndefined (VObj 2) extensions_world [VNull; VObj 4])
    as [Hpass _].
  - reflexivity.
  - by left.
  - split_and!; [done|reflexivity|by left|reflexivity|by left].
  - exists 0, 0. by split_and!.
  - reflexivity.
  - apply Hpass. repeat constructor.
Defined.

(** ** The [Script] constructor *)

Lemma ToString_primitive `{Engine} (v : value) (s : string) (w : World) :
  string_of_primitive v = Some s -> ToString v w = (Normal s, w, []).
Proof. destruct v as [| |[]| | | | | |]; by intros [= <-]. Qed.

(** The constructor converts its code first and goes on with the string. *)
Lemma Script_new_converts `{Engine} (code : value) (options : arg) (w : World) :
  Script_new code options w =
    (s <- ToString code ;; Script_new (VStr s) options) w.
Proof.
  unfold Script_new. apply bind_ext. intros s w'. cbn [ToString].
  by rewrite bind_ret_l.
Qed.

Lemma Script_new_primitive `{Engine} (code : value) (s : string) (options : arg)
    (w : World) :
  string_of_primitive code = Some s ->
  Script_new code options w = Script_new (VStr s) options w.
Proof.
  intros Hs. rewrite Script_new_converts.
  by rewrite (bind_pure _ _ _ _ (ToString_primitive _ _ w Hs)).
Qed.

Lemma Script_new_options `{Engine} {B} (o : arg) (k : arg -> M B) (w : World) :
  arg_is_object o = true ->
  bind (match o with
        | AVal (VStr s) =>
            ret (ALit (Literal {[ "filename" := VStr s ]} VUndefined))
        | _ =>
            if negb (arg_is_object o) then
              invalid_arg_type "options" "Object" (arg_value o)
            else ret o
        end) k w = k o w.
Proof.
  intros Ho. destruct o as [[]|]; try discriminate; cbn [arg_is_object] in *;
    rewrite ?Ho; cbn [negb]; by rewrite bind_ret_l.
Qed.

(** The constructor up to the two offsets, for options that pass the checks
    before them. *)
Lemma Script_new_offsets `{Engine} (code : string) (options : arg) (w : World)
    (zl zc : Z) :
  arg_is_object (default_options options) = true ->
  typeof (option_of w options "filename" (VStr "evalmachine.<anonymous>"))
    = "string" ->
  option_of w options "lineOffset" (VNum (NInt 0)) = VNum (NInt zl) ->
  option_of w options "columnOffset" (VNum (NInt 0)) = VNum (NInt zc) ->
  (~ int32 zl ->
   Script_new (VStr code) options w =
     (Throw (ERR_OUT_OF_RANGE "options.lineOffset" "32-bit integer"
               (VNum (NInt zl))), w, []))
  /\ (int32 zl -> ~ int32 zc ->
      Script_new (VStr code) options w =
        (Throw (ERR_OUT_OF_RANGE "options.columnOffset" "32-bit integer"
                  (VNum (NInt zc))), w, [])).
Proof.
  intros Hobj Hfile Hline Hcol. unfold option_of in *.
  unfold Script_new. cbn [ToString]. rewrite bind_ret_l.
  rewrite (Script_new_options _ _ _ Hobj), bind_get_world.
  rewrite (bool_decide_eq_true_2 _ Hfile). cbn [negb].
  rewrite Hline, Hcol.
  destruct (validateInteger_int zl "options.lineOffset" w) as [Hl1 Hl2].
  destruct (validateInteger_int zc "options.columnOffset" w) as [Hc1 Hc2].
  split.
  - intros Hzl. by rewrite (bind_fail _ _ _ _ _ _ (Hl2 Hzl)).
  - intros Hzl Hzc. rewrite (bind_pure _ _ _ _ (Hl1 Hzl)).
    by rewrite (bind_fail _ _ _ _ _ _ (Hc2 Hzc)).
Qed.

(** With valid options and both offsets in range the constructor reaches the
    engine: its one outside call is the compilation, with these offsets. *)
Lemma Script_new_compiles `{Engine} (code : string) (options : arg) (w : World)
    (zl zc : Z) :
  valid_script_options w options ->
  option_of w options "lineOffset" (VNum (NInt 0)) = VNum (NInt zl) ->
  option_of w options "columnOffset" (VNum (NInt 0)) = VNum (NInt zc) ->
  int32 zl -> int32 zc ->
  exists c w',
    Script_new (VStr code) options w =
      (c, w', [EvCompile (compile_args_of w code options)]).
Proof.
  intros (Hobj & Hfile & Hcached & Hproduce) Hline Hcol Hzl Hzc.
  unfold option_of in *.
  unfold Script_new. cbn [ToString]. rewrite bind_ret_l.
  rewrite (Script_new_options _ _ _ Hobj), bind_get_world.
  rewrite (bool_decide_eq_true_2 _ Hfile). cbn [negb].
  unfold compile_args_of. cbv zeta. rewrite Hline, Hcol.
  destruct (validateInteger_int zl "options.lineOffset" w) as [Hl1 _].
  destruct (validateInteger_int zc "options.columnOffset" w) as [Hc1 _].
  rewrite (bind_pure _ _ _ _ (Hl1 Hzl)), (bind_pure _ _ _ _ (Hc1 Hzc)).
  replace (negb (bool_decide (_ = VUndefined)) && negb (isUint8Array w _))
    with false.
  2:{ destruct Hcached as [-> | ->]; [done|by rewrite andb_false_r]. }
  rewrite (bool_decide_eq_true_2 _ Hproduce). cbn [negb].
  set (a := CompileArgs _ _ _ _ _ _ _ _).
  unfold bind at 1. unfold super_ContextifyScript.
  destruct (ContextifyScript a w); [|by eexists _, _].
  case_bool_decide; cbn [negb].
  - rewrite bind_ret_l. by eexists _, _.
  - destruct (negb (bool_decide (typeof _ = "function"))).
    + by eexists _, _.
    + unfold callbackMap_set, bind, ret. by eexists _, _.
Qed.

(** A resolver given as [importModuleDynamically] is registered for the new
    script, once the engine has compiled it. *)
Lemma Script_new_registers_resolver `{Engine} (code : string) (options : arg)
    (w : World) (zl zc : Z) (f : ref) :
  valid_script_options w options ->
  option_of w options "lineOffset" (VNum (NInt 0)) = VNum (NInt zl) ->
  option_of w options "columnOffset" (VNum (NInt 0)) = VNum (NInt zc) ->
  int32 zl -> int32 zc ->
  get_prop w (default_options options) "importModuleDynamically" = VFun f ->
  ContextifyScript (compile_args_of w code options) w = Normal tt ->
  exists this w',
    Script_new (VStr code) options w =
      (Normal this, w', [EvCompile (compile_args_of w code options)])
    /\ callbackMap w' !! this = Some (VFun f).
Proof.
  intros (Hobj & Hfile & Hcached & Hproduce) Hline Hcol Hzl Hzc Hf Hcompile.
  unfold option_of in *.
  unfold Script_new. cbn [ToString]. rewrite bind_ret_l.
  rewrite (Script_new_options _ _ _ Hobj), bind_get_world.
  rewrite (bool_decide_eq_true_2 _ Hfile). cbn [negb].
  unfold compile_args_of in *. cbv zeta in *. rewrite Hline, Hcol in *.
  destruct (validateInteger_int zl "options.lineOffset" w) as [Hl1 _].
  destruct (validateInteger_int zc "options.columnOffset" w) as [Hc1 _].
  rewrite (bind_pure _ _ _ _ (Hl1 Hzl)), (bind_pure _ _ _ _ (Hc1 Hzc)).
  replace (negb (bool_decide (_ = VUndefined)) && negb (isUint8Array w _))
    with false.
  2:{ destruct Hcached as [-> | ->]; [done|by rewrite andb_false_r]. }
  rewrite (bool_decide_eq_true_2 _ Hproduce). cbn [negb].
  rewrite Hf. decides. cbn [negb].
  unfold bind at 1. unfold super_ContextifyScript. rewrite Hcompile.
  unfold callbackMap_set, bind, ret. eexists _, _. split; [done|].
  cbn. by rewrite lookup_insert_eq.
Qed.

(** C3, as amended.  The [Script] constructor takes an integer offset in
    [-2^31, 2^31-1] and, on an integer outside it, fails with the
    out-of-range error before the engine is called.  [compileFunction]
    validates its offsets as unsigned: it takes an integer in [0, 2^32-1]
    and fails with the out-of-range error, before the engine is called, on
    an integer outside that range. *)
Theorem offsets_validated `{Engine} (code : string) (zl zc : Z) (w : World) :
  (forall options : arg,
     valid_script_options w options ->
     option_of w options "lineOffset" (VNum (NInt 0)) = VNum (NInt zl) ->
     option_of w options "columnOffset" (VNum (NInt 0)) = VNum (NInt zc) ->
     (int32 zl -> int32 zc ->
      exists c w',
        Script_new (VStr code) options w =
          (c, w', [EvCompile (compile_args_of w code options)]))
     /\ (~ int32 zl ->
         Script_new (VStr code) options w =
           (Throw (ERR_OUT_OF_RANGE "options.lineOffset" "32-bit integer"
                     (VNum (NInt zl))), w, []))
     /\ (int32 zl -> ~ int32 zc ->
         Script_new (VStr code) options w =
           (Throw (ERR_OUT_OF_RANGE "options.columnOffset" "32-bit integer"
                     (VNum (NInt zc))), w, [])))
  /\ (forall (params options : value) (items : list value),
       valid_params w params ->
       valid_function_options w options ->
       option_of w (AVal options) "lineOffset" (VNum (NInt 0)) = VNum (NInt zl) ->
       option_of w (AVal options) "columnOffset" (VNum (NInt 0)) = VNum (NInt zc) ->
       extensions_of w options = Some items ->
       Forall (fun extension => typeof extension = "object") items ->
       (uint32 zl -> uint32 zc ->
        compileFunction (VStr code) params options w =
          _compileFunction
            (function_args_of w (VStr code) params options items) w)
       /\ (~ uint32 zc ->
           compileFunction (VStr code) params options w =
             (Throw (ERR_OUT_OF_RANGE "options.columnOffset"
                       ">= 0 && < 4294967296" (VNum (NInt zc))), w, []))
       /\ (uint32 zc -> ~ uint32 zl ->
           compileFunction (VStr code) params options w =
             (Throw (ERR_OUT_OF_RANGE "options.lineOffset"
                       ">= 0 && < 4294967296" (VNum (NInt zl))), w, []))).
Proof.
  split.
  - intros options Hvalid Hline Hcol.
    pose proof Hvalid as (Hobj & Hfile & _).
    destruct (Script_new_offsets code options w zl zc Hobj Hfile Hline Hcol)
      as [Hl Hc].
    split_and!; [|done|done].
    intros Hzl Hzc. by eapply Script_new_compiles.
  - intros params options items Hparams Hvalid Hline Hcol Hitems Hall.
    pose proof Hvalid as (Hnull & Hfile & _).
    destruct (compileFunction_offsets (VStr code) params options w zc zl
                eq_refl Hparams Hnull Hfile Hcol Hline) as [Hc Hl].
    split_and!; [|done|done].
    intros Hzl Hzc.
    rewrite (compileFunction_extensions (VStr code) params options w items
               eq_refl Hparams Hvalid); [|by exists zc, zl|done].
    by rewrite (bind_pure _ _ _ _ (validate_contextExtensions_pass _ w Hall)).
Qed.

Lemma offsets_validated_witness :
  @compileFunction idle_engine (VStr "return 1") VUndefined (VObj 5)
     extensions_world =
    (Throw (ERR_OUT_OF_RANGE "options.lineOffset" ">= 0 && < 4294967296"
              (VNum (NInt (-1)))), extensions_world, []).
Proof.
  destruct (@offsets_validated idle_engine "return 1" (-1) 0 extensions_world)
    as [_ Hfunction].
  destruct (Hfunction VUndefined (VObj 5) []) as (_ & _ & Hline).
  - by left.
  - split_and!; [done|reflexivity|by left|reflexivity|by left].
  - reflexivity.
  - reflexivity.
  - reflexivity.
  - constructor.
  - apply Hline; unfold uint32; lia.
Defined.

(** C3 as stated fails for [compileFunction]: the line offset -1 is
    representable as a signed 32-bit integer and is rejected. *)
Lemma compileFunction_rejects_negative_offset :
  int32 (-1)
  /\ get_prop extensions_world (AVal (VObj 5)) "lineOffset" = VNum (NInt (-1))
  /\ @compileFunction idle_engine (VStr "return 1") VUndefined (VObj 5)
       extensions_world =
       (Throw (ERR_OUT_OF_RANGE "options.lineOffset" ">= 0 && < 4294967296"
                 (VNum (NInt (-1)))), extensions_world, []).
Proof. split_and!; [unfold int32; lia|reflexivity|reflexivity]. Qed.

(** ** The code argument *)

Lemma bind_cong {A B} (m m' : M A) (f : A -> M B) (w : World) :
  m w = m' w -> bind m f w = bind m' f w.
Proof. intros Hm. unfold bind. by rewrite Hm. Qed.

(** C7, as amended.  [compileFunction] raises the invalid-argument type error
    on a code that is not a string, before any other work.  The [Script]
    constructor and [createScript] make no such check: they convert the code
    to a string and go on with the string, and so does the run family, which
    on a primitive code behaves as on its string. *)
Theorem code_type_check `{Engine} (code : value) (w : World) :
  (forall params options,
     typeof code <> "string" ->
     compileFunction code params options w =
       (Throw (ERR_INVALID_ARG_TYPE "code" ["string"] code), w, []))
  /\ (forall options,
       createScript code options w =
         (s <- ToString code ;; createScript (VStr s) options) w)
  /\ (forall s,
       string_of_primitive code = Some s ->
       forall ctx sandbox options,
         runInThisContext code options w = runInThisContext (VStr s) options w
         /\ runInContext code ctx options w =
            runInContext (VStr s) ctx options w
         /\ runInNewContext code sandbox options w =
            runInNewContext (VStr s) sandbox options w).
Proof.
  split_and!.
  - intros params options Hcode. by apply compileFunction_not_string.
  - intros options. apply Script_new_converts.
  - intros s Hs ctx sandbox options. split_and!.
    + unfold runInThisContext, createScript. apply bind_cong.
      by apply Script_new_primitive.
    + unfold runInContext, createScript. apply bind_ext. intros _ w1.
      apply bind_ext. intros w2 w3. apply bind_cong.
      by apply Script_new_primitive.
    + unfold runInNewContext, createScript. apply bind_ext. intros co w1.
      apply bind_ext. intros sb w2. apply bind_ext. intros w3 w4.
      apply bind_cong. by apply Script_new_primitive.
Qed.

Lemma code_type_check_witness :
  @compileFunction idle_engine (VNum (NInt 42)) VUndefined VUndefined
     empty_world =
    (Throw (ERR_INVALID_ARG_TYPE "code" ["string"] (VNum (NInt 42))),
     empty_world, []).
Proof.
  apply (@code_type_check idle_engine (VNum (NInt 42)) empty_world).
  discriminate.
Defined.

(** C7 as stated fails for the [Script] constructor: the number 42 is no
    string, yet no error is raised and the engine compiles ["42"]. *)
Lemma Script_new_compiles_a_number :
  typeof (VNum (NInt 42)) <> "string"
  /\ exists w',
       @Script_new idle_engine (VNum (NInt 42)) (AVal VUndefined) empty_world =
         (Normal 1%positive, w',
          [EvCompile
             (CompileArgs "42" (VStr "evalmachine.<anonymous>") (VNum (NInt 0))
                (VNum (NInt 0)) VUndefined (VBool false) VUndefined
                (VBool false))]).
Proof. split; [discriminate|]. eexists. reflexivity. Qed.

(** ** The dynamic-import wrapper *)






(** ** Frame conditions *)

#[local] Instance unchanged_frame : Frame unchanged.
Proof.
  split; [done|]. by intros w w1 w2 t1 t2 [-> ->] [-> ->].
Qed.

#[local] Instance props_kept_frame : Frame props_kept.
Proof.
  split; [done|]. intros w w1 w2 t1 t2 H1 H2 v k.
  by rewrite (H2 v k), (H1 v k).
Qed.

#[local] Instance contexts_kept_frame : Frame contexts_kept.
Proof.
  split; [done|]. unfold contexts_kept. by intros w w1 w2 t1 t2 <- <-.
Qed.

Section Respects.
Context (R : World -> World -> list event -> Prop) `{!Frame R}.

Lemma respects_ret {A} (a : A) : respects R (ret a).
Proof. intros w c w' t [= <- <- <-]. apply frame_refl. Qed.

Lemma respects_throw {A} (e : exn) : respects R (@throw A e).
Proof. intros w c w' t [= <- <- <-]. apply frame_refl. Qed.

Lemma respects_invalid_arg_type {A} n x v :
  respects R (@invalid_arg_type A n x v).
Proof. apply respects_throw. Qed.

Lemma respects_get_world : respects R get_world.
Proof. intros w c w' t [= <- <- <-]. apply frame_refl. Qed.

Lemma respects_bind {A B} (m : M A) (f : A -> M B) :
  respects R m -> (forall a, respects R (f a)) -> respects R (bind m f).
Proof.
  intros Hm Hf w c w' t. unfold bind.
  destruct (m w) as [[[a|e] w1] t1] eqn:Hmw.
  - destruct (f a w1) as [[c2 w2] t2] eqn:Hfw. intros [= <- <- <-].
    eapply frame_trans; [by eapply Hm|by eapply Hf].
  - intros [= <- <- <-]. by eapply Hm.
Qed.

Lemma respects_unchanged {A} (m : M A) : respects unchanged m -> respects R m.
Proof. intros Hm w c w' t Hw. destruct (Hm _ _ _ _ Hw) as [-> ->]. apply frame_refl. Qed.

Lemma respects_ArrayForEach_from {A} (i : nat) (l : list A) body :
  (forall x j, respects R (body x j)) -> respects R (ArrayForEach_from i l body).
Proof.
  intros Hbody. revert i. induction l as [|x l IH]; intros i.
  - apply respects_ret.
  - cbn [ArrayForEach_from]. apply respects_bind; [apply Hbody|]. intros _. apply IH.
Qed.
End Respects.

(** Apply the rules along the structure of a computation. *)
Ltac respects_step :=
  match goal with
  | |- respects ?R (ret _) => apply (respects_ret R)
  | |- respects ?R (throw _) => apply (respects_throw R)
  | |- respects ?R (invalid_arg_type _ _ _) => apply (respects_invalid_arg_type R)
  | |- respects ?R get_world => apply (respects_get_world R)
  | |- respects ?R (bind _ _) => apply (respects_bind R); [|intros ?]
  | |- respects _ (if ?b then _ else _) => destruct b
  | |- respects _ (match ?x with _ => _ end) => destruct x
  end.

Ltac respects_steps := repeat respects_step.

Lemma validateString_unchanged v n : respects unchanged (validateString v n).
Proof. unfold validateString. respects_steps. Qed.

Lemma validateBool_unchanged v n : respects unchanged (validateBool v n).
Proof. unfold validateBool. respects_steps. Qed.

Lemma validateObject_unchanged v n : respects unchanged (validateObject v n).
Proof. unfold validateObject. respects_steps. Qed.

Lemma validateInteger_unchanged v n : respects unchanged (validateInteger v n).
Proof. unfold validateInteger. respects_steps. Qed.

Lemma validateContext_unchanged v : respects unchanged (validateContext v).
Proof. unfold validateContext. respects_steps. Qed.

Lemma isContext_unchanged v : respects unchanged (isContext v).
Proof. unfold isContext. respects_steps. Qed.

Lemma getContextOptions_unchanged (o : arg) : respects unchanged (getContextOptions o).
Proof.
  unfold getContextOptions. respects_steps;
    first [apply validateObject_unchanged | apply validateString_unchanged
          | apply validateBool_unchanged].
Qed.

Lemma same_props_heap (w w' : World) : heap w' = heap w -> same_props w w'.
Proof.
  intros Hh v k. unfold get_value_prop, lookup_object. by rewrite Hh.
Qed.

(** A new object without properties changes no reading: where there was no
    object, every property read [undefined] already. *)
Lemma same_props_fresh (w : World) (kd : kind) (items : list value) :
  same_props w
    (set_heap (<[fresh (dom (heap w)) := Object kd ∅ items]> (heap w)) w).
Proof.
  intros v k. unfold get_value_prop, lookup_object.
  assert (Hfresh : heap w !! fresh (dom (heap w)) = None).
  { apply not_elem_of_dom, is_fresh. }
  destruct v; try done; cbn [heap set_heap];
    (destruct (decide (fresh (dom (heap w)) = r)) as [<-|Hr];
     [by rewrite lookup_insert_eq, Hfresh | by rewrite lookup_insert_ne]).
Qed.

Lemma alloc_props_kept (kd : kind) (items : list value) :
  respects props_kept (alloc (Object kd ∅ items)).
Proof. intros w c w' t [= <- <- <-]. apply same_props_fresh. Qed.

Lemma next_default_name_props_kept `{Engine} : respects props_kept next_default_name.
Proof. intros w c w' t [= <- <- <-]. by apply same_props_heap. Qed.

Lemma makeContext_props_kept sandbox name origin strings wasm :
  respects props_kept (makeContext sandbox name origin strings wasm).
Proof.
  intros w c w' t. unfold makeContext.
  destruct sandbox; intros [= <- <- <-]; by apply same_props_heap.
Qed.

Lemma createContext_props_kept `{Engine} (x : value) (o : ctxarg) :
  respects props_kept (createContext x o).
Proof.
  unfold createContext, or_default_M.
  respects_steps;
    first [ apply alloc_props_kept
          | apply next_default_name_props_kept
          | apply makeContext_props_kept
          | apply respects_unchanged; [apply _|];
            first [ apply isContext_unchanged | apply validateString_unchanged
                  | apply validateObject_unchanged
                  | apply validateBool_unchanged ] ].
Qed.

Lemma ToString_unchanged `{Engine} (code : value) :
  primitive code -> respects unchanged (ToString code).
Proof.
  intros Hcode. destruct code as [| |[]| | | | | |]; cbn [ToString];
    try respects_step.
  - by destruct (Hcode r) as [? _].
  - by destruct (Hcode r) as [_ ?].
Qed.

Lemma super_ContextifyScript_props_kept `{Engine} (a : compile_args) :
  respects props_kept (super_ContextifyScript a).
Proof.
  intros w c w' t. unfold super_ContextifyScript.
  destruct (ContextifyScript a w); intros [= <- <- <-]; [|done].
  intros v k. apply (same_props_fresh w KScript []).
Qed.

Lemma super_ContextifyScript_contexts_kept `{Engine} (a : compile_args) :
  respects contexts_kept (super_ContextifyScript a).
Proof.
  intros w c w' t. unfold super_ContextifyScript.
  by destruct (ContextifyScript a w); intros [= <- <- <-].
Qed.

Lemma callbackMap_set_props_kept this f : respects props_kept (callbackMap_set this f).
Proof. intros w c w' t [= <- <- <-]. by apply same_props_heap. Qed.

Lemma callbackMap_set_contexts_kept this f :
  respects contexts_kept (callbackMap_set this f).
Proof. by intros w c w' t [= <- <- <-]. Qed.

Lemma Script_new_props_kept `{Engine} (code : value) (o : arg) :
  primitive code -> respects props_kept (Script_new code o).
Proof.
  intros Hcode. unfold Script_new.
  respects_steps;
    first [ apply super_ContextifyScript_props_kept
          | apply callbackMap_set_props_kept
          | apply respects_unchanged; [apply _|];
            first [ by apply ToString_unchanged
                  | apply validateInteger_unchanged ] ].
Qed.

Lemma Script_new_contexts_kept `{Engine} (code : value) (o : arg) :
  primitive code -> respects contexts_kept (Script_new code o).
Proof.
  intros Hcode. unfold Script_new.
  respects_steps;
    first [ apply super_ContextifyScript_contexts_kept
          | apply callbackMap_set_contexts_kept
          | apply respects_unchanged; [apply _|];
            first [ by apply ToString_unchanged
                  | apply validateInteger_unchanged ] ].
Qed.

(** ** The free functions *)

Lemma bind_ext_reach {A B} (m : M A) (f g : A -> M B) (w : World) :
  (forall a w1 t1, m w = (Normal a, w1, t1) -> f a w1 = g a w1) ->
  bind m f w = bind m g w.
Proof.
  intros Hfg. unfold bind. destruct (m w) as [[[a|e] w1] t1]; [|done].
  by rewrite (Hfg a w1 t1).
Qed.

Lemma own_props_lookup (w : World) (v : value) (k : string) :
  default VUndefined (own_props w v !! k) = get_value_prop w v k.
Proof.
  unfold own_props, get_value_prop. by destruct (lookup_object w v).
Qed.

Lemma _isContext_contexts (w w' : World) (v : value) :
  contexts w' = contexts w -> _isContext w' v = _isContext w v.
Proof. intros Hc. unfold _isContext. by rewrite Hc. Qed.

(** [getContextOptions] depends on what it reads only. *)
Lemma getContextOptions_stable (o1 o2 : arg) (w1 w2 : World) c :
  arg_truthy o1 = true ->
  arg_truthy o2 = true ->
  (forall k, get_prop w2 o2 k = get_prop w1 o1 k) ->
  same_props w1 w2 ->
  getContextOptions o1 w1 = (c, w1, []) ->
  getContextOptions o2 w2 = (c, w2, []).
Proof.
  intros Ht1 Ht2 Hreads Hprops. unfold getContextOptions.
  rewrite Ht1, Ht2, !bind_get_world, !Hreads, !Hprops.
  generalize (get_prop w1 o1 "contextCodeGeneration") as cg.
  generalize (get_prop w1 o1 "contextName") as name.
  generalize (get_prop w1 o1 "contextOrigin") as origin.
  intros origin name cg. cbv zeta. cbn [cl_name cl_origin cl_codeGeneration].
  rewrite !bind_validateObject.
  destruct (bool_decide (cg = VUndefined) || is_object cg);
    [|by intros [= <-]].
  rewrite !bind_validateString.
  destruct (undefined_or "string" name); [|by intros [= <-]].
  destruct (undefined_or "string" origin); [|by intros [= <-]].
  destruct (bool_decide (typeof cg = "object")).
  - rewrite !bind_assoc, !bind_validateBool.
    destruct (undefined_or "boolean" (get_value_prop w1 cg "strings"));
      [|by intros [= <-]].
    destruct (undefined_or "boolean" (get_value_prop w1 cg "wasm"));
      [|by intros [= <-]].
    rewrite ?bind_ret_l. cbn. by intros [= <-].
  - rewrite !bind_ret_l. by intros [= <-].
Qed.

Lemma getContextOptions_no_option (o : arg) (w : World) :
  arg_truthy o = true ->
  (forall k, get_prop w o k = VUndefined) ->
  getContextOptions o w = (Normal empty_ctxLiteral, w, []).
Proof.
  intros Ht Hreads. unfold getContextOptions.
  rewrite Ht, bind_get_world, !Hreads. cbv zeta.
  rewrite bind_validateObject. cbn [cl_name cl_origin cl_codeGeneration].
  decides. cbn [orb]. rewrite !bind_validateString.
  change (undefined_or "string" VUndefined) with true. cbv iota.
  by rewrite !bind_ret_l.
Qed.

Lemma falsy_no_props (w : World) (v : value) :
  truthy v = false -> own_props w v = ∅.
Proof. by destruct v. Qed.

(** The second reading of the context options, by the method
    [Script.runInNewContext], succeeds when the first one, by the free
    function, did and the objects read the same. *)
Lemma getContextOptions_again (options : arg) (context : value)
    (w w2 w3 : World) (contextOptions : ctxLiteral) :
  getContextOptions options w = (Normal contextOptions, w, []) ->
  same_props w w2 ->
  same_props w2 w3 ->
  exists contextOptions',
    getContextOptions (ALit (assign_parsingContext w2 options context)) w3 =
      (Normal contextOptions', w3, []).
Proof.
  intros Hco H2 H3. destruct (arg_truthy options) eqn:Ht.
  - exists contextOptions.
    eapply getContextOptions_stable; [exact Ht|done| | |exact Hco].
    + intros k. destruct options as [v|l]; [|done].
      unfold get_prop. cbn [assign_parsingContext l_props].
      by rewrite own_props_lookup, H2.
    + intros v k. by rewrite H3, H2.
  - exists empty_ctxLiteral. apply getContextOptions_no_option; [done|].
    intros k. destruct options as [v|l]; [|done].
    unfold get_prop. cbn [assign_parsingContext l_props].
    by rewrite (falsy_no_props _ _ Ht).
Qed.

(** *** Compiling once *)

Lemma compilations_app (t1 t2 : list event) :
  compilations (t1 ++ t2) = (compilations t1 + compilations t2)%nat.
Proof. unfold compilations. by rewrite List.filter_app, length_app. Qed.

#[local] Instance no_compilation_frame : Frame no_compilation.
Proof.
  split; [done|]. unfold no_compilation. intros w w1 w2 t1 t2 H1 H2.
  rewrite compilations_app. lia.
Qed.

Lemma once_bind_l {A B} (m : M A) (f : A -> M B) :
  respects no_compilation m ->
  (forall a, respects one_compilation_at_most (f a)) ->
  respects one_compilation_at_most (bind m f).
Proof.
  intros Hm Hf w c w' t. unfold bind.
  destruct (m w) as [[[a|e] w1] t1] eqn:Hmw.
  - destruct (f a w1) as [[c2 w2] t2] eqn:Hfw. intros [= <- <- <-].
    pose proof (Hm _ _ _ _ Hmw) as H1. pose proof (Hf _ _ _ _ _ Hfw) as H2.
    unfold one_compilation_at_most, no_compilation in *.
    rewrite compilations_app. lia.
  - intros [= <- <- <-]. pose proof (Hm _ _ _ _ Hmw) as H1.
    unfold one_compilation_at_most, no_compilation in *. lia.
Qed.

Lemma once_bind_r {A B} (m : M A) (f : A -> M B) :
  respects one_compilation_at_most m ->
  (forall a, respects no_compilation (f a)) ->
  respects one_compilation_at_most (bind m f).
Proof.
  intros Hm Hf w c w' t. unfold bind.
  destruct (m w) as [[[a|e] w1] t1] eqn:Hmw.
  - destruct (f a w1) as [[c2 w2] t2] eqn:Hfw. intros [= <- <- <-].
    pose proof (Hm _ _ _ _ Hmw) as H1. pose proof (Hf _ _ _ _ _ Hfw) as H2.
    unfold one_compilation_at_most, no_compilation in *.
    rewrite compilations_app. lia.
  - intros [= <- <- <-]. by apply (Hm _ _ _ _ Hmw).
Qed.

Lemma once_of_none {A} (m : M A) :
  respects no_compilation m -> respects one_compilation_at_most m.
Proof.
  intros Hm w c w' t Hw. pose proof (Hm _ _ _ _ Hw).
  unfold one_compilation_at_most, no_compilation in *. lia.
Qed.

Lemma ToString_no_compilation `{Engine} (code : value) :
  respects no_compilation (ToString code).
Proof.
  destruct code as [| |[]| | | | | |]; cbn [ToString]; try respects_step;
    intros w c w' t; destruct (ObjectToString r w); by intros [= <- <- <-].
Qed.

Lemma super_ContextifyScript_once `{Engine} (a : compile_args) :
  respects one_compilation_at_most (super_ContextifyScript a).
Proof.
  intros w c w' t. unfold super_ContextifyScript.
  destruct (ContextifyScript a w); intros [= <- <- <-]; by cbv.
Qed.

Lemma Script_new_once `{Engine} (code : value) (o : arg) :
  respects one_compilation_at_most (Script_new code o).
Proof.
  unfold Script_new.
  apply once_bind_l; [apply ToString_no_compilation|intros s].
  apply once_bind_l; [respects_steps|intros o'].
  apply once_bind_l; [respects_steps|intros w].
  destruct (negb (bool_decide (typeof _ = "string")));
    [apply once_of_none; respects_steps|].
  apply once_bind_l;
    [apply respects_unchanged; [apply _|apply validateInteger_unchanged]|intros _].
  apply once_bind_l;
    [apply respects_unchanged; [apply _|apply validateInteger_unchanged]|intros _].
  destruct (negb (bool_decide (_ = VUndefined)) && negb (isUint8Array w _));
    [apply once_of_none; respects_steps|].
  destruct (negb (bool_decide (typeof _ = "boolean")));
    [apply once_of_none; respects_steps|].
  apply once_bind_r; [apply super_ContextifyScript_once|intros this].
  respects_steps. by intros w0 c w' t [= <- <- <-].
Qed.

Lemma alloc_no_compilation (o : object) : respects no_compilation (alloc o).
Proof. by intros w c w' t [= <- <- <-]. Qed.

Lemma next_default_name_no_compilation `{Engine} :
  respects no_compilation next_default_name.
Proof. by intros w c w' t [= <- <- <-]. Qed.

Lemma makeContext_no_compilation sandbox name origin strings wasm :
  respects no_compilation (makeContext sandbox name origin strings wasm).
Proof.
  intros w c w' t. unfold makeContext. by destruct sandbox; intros [= <- <- <-].
Qed.

Lemma createContext_no_compilation `{Engine} (x : value) (o : ctxarg) :
  respects no_compilation (createContext x o).
Proof.
  unfold createContext, or_default_M.
  respects_steps;
    first [ apply alloc_no_compilation
          | apply next_default_name_no_compilation
          | apply makeContext_no_compilation
          | apply respects_unchanged; [apply _|];
            first [ apply isContext_unchanged | apply validateString_unchanged
                  | apply validateObject_unchanged
                  | apply validateBool_unchanged ] ].
Qed.

Lemma getRunInContextArgs_unchanged (o : arg) :
  respects unchanged (getRunInContextArgs o).
Proof.
  intros w c w' t Hargs.
  by destruct (getRunInContextArgs_inv _ _ _ _ _ Hargs) as (-> & -> & _).
Qed.

Lemma super_run_no_compilation `{Engine} t this args :
  respects no_compilation (super_run t this args).
Proof.
  intros w c w' tr. unfold super_run.
  destruct (ContextifyScript_run _ _ _ _). by intros [= <- <- <-].
Qed.

Lemma sigintHandlersWrap_no_compilation {A} (fn : M A) :
  respects no_compilation fn -> respects no_compilation (sigintHandlersWrap fn).
Proof.
  intros Hfn w c w' t. rewrite sigintHandlersWrap_eq.
  destruct (fn (set_sigint [] w)) as [[c1 w1] t1] eqn:Hrun.
  intros [= <- <- <-]. pose proof (Hfn _ _ _ _ Hrun) as H1.
  unfold no_compilation in *.
  change (EvRemoveAllListeners :: ?l) with ([EvRemoveAllListeners] ++ l).
  rewrite !compilations_app, H1.
  assert (compilations (map EvAddListener (sigint w)) = 0%nat) as ->; [|done].
  by induction (sigint w).
Qed.

Lemma Script_runInContext_no_compilation `{Engine} this context o :
  respects no_compilation (Script_runInContext this context o).
Proof.
  unfold Script_runInContext.
  apply respects_bind; [apply _| |intros _].
  { apply respects_unchanged; [apply _|apply validateContext_unchanged]. }
  apply respects_bind; [apply _| |intros [b args]].
  { apply respects_unchanged; [apply _|apply getRunInContextArgs_unchanged]. }
  apply respects_bind; [apply _| |intros wrap].
  { intros w c w' t. rewrite wants_sigint_wrap_eq. by intros [= <- <- <-]. }
  destruct wrap.
  - apply sigintHandlersWrap_no_compilation, super_run_no_compilation.
  - apply super_run_no_compilation.
Qed.

Lemma Script_runInThisContext_no_compilation `{Engine} this o :
  respects no_compilation (Script_runInThisContext this o).
Proof.
  unfold Script_runInThisContext.
  apply respects_bind; [apply _| |intros [b args]].
  { apply respects_unchanged; [apply _|apply getRunInContextArgs_unchanged]. }
  apply respects_bind; [apply _| |intros wrap].
  { intros w c w' t. rewrite wants_sigint_wrap_eq. by intros [= <- <- <-]. }
  destruct wrap.
  - apply sigintHandlersWrap_no_compilation, super_run_no_compilation.
  - apply super_run_no_compilation.
Qed.

Lemma Script_runInNewContext_no_compilation `{Engine} this sandbox o :
  respects no_compilation (Script_runInNewContext this sandbox o).
Proof.
  unfold Script_runInNewContext.
  apply respects_bind; [apply _| |intros co].
  { apply respects_unchanged; [apply _|apply getContextOptions_unchanged]. }
  apply respects_bind; [apply _| |intros context].
  { apply createContext_no_compilation. }
  apply Script_runInContext_no_compilation.
Qed.

(** Each free function compiles once at most. *)
Lemma free_functions_compile_once `{Engine} (code : value) :
  (forall sandbox options,
     respects one_compilation_at_most (runInNewContext code sandbox options))
  /\ (forall context options,
       respects one_compilation_at_most (runInContext code context options))
  /\ (forall options,
       respects one_compilation_at_most (runInThisContext code options)).
Proof.
  split_and!.
  - intros sandbox options. unfold runInNewContext.
    apply once_bind_l; [|intros co].
    { apply respects_unchanged; [apply _|apply getContextOptions_unchanged]. }
    apply once_bind_l; [apply createContext_no_compilation|intros context].
    apply once_bind_l; [respects_steps|intros w].
    apply once_bind_r; [apply Script_new_once|intros this].
    apply Script_runInNewContext_no_compilation.
  - intros context options. unfold runInContext.
    apply once_bind_l; [|intros _].
    { apply respects_unchanged; [apply _|apply validateContext_unchanged]. }
    apply once_bind_l; [respects_steps|intros w].
    apply once_bind_r; [apply Script_new_once|intros this].
    apply Script_runInContext_no_compilation.
  - intros options. unfold runInThisContext.
    apply once_bind_r; [apply Script_new_once|intros this].
    apply Script_runInThisContext_no_compilation.
Qed.

(** [runInNewContext] with the module's own operations: the method
    [Script.runInNewContext] reads the context options again and calls
    [createContext] on the context just made, which returns it as it is. *)
Lemma runInNewContext_by_methods `{Engine} (code sandbox options : value)
    (w : World) :
  primitive code ->
  runInNewContext code sandbox options w =
    runInNewContext_composition code sandbox options w.
Proof.
  intros Hcode.
  unfold runInNewContext, runInNewContext_composition.
  fold (options_object options). cbv zeta.
  apply bind_ext_reach. intros contextOptions w1 t1 Hco.
  destruct (getContextOptions_unchanged _ _ _ _ _ Hco) as [-> ->].
  apply bind_ext_reach. intros context w2 t2 Hctx.
  rewrite !bind_get_world.
  apply bind_ext_reach. intros unit w3 t3 Hunit. unfold createScript in Hunit.
  pose proof (createContext_props_kept _ _ _ _ _ _ Hctx) as H2.
  pose proof (createContext_result_is_context _ _ _ _ _ _ Hctx) as Hc2.
  pose proof (Script_new_props_kept _ _ Hcode _ _ _ _ Hunit) as H3.
  pose proof (Script_new_contexts_kept _ _ Hcode _ _ _ _ Hunit) as Hc3.
  destruct (getContextOptions_again _ context _ _ _ _ Hco H2 H3)
    as [contextOptions' Hco'].
  unfold Script_runInNewContext.
  rewrite (bind_pure _ _ _ _ Hco').
  erewrite bind_pure; [done|].
  apply createContext_of_context.
  by rewrite (_isContext_contexts _ _ _ Hc3).
Qed.

(** ** The module at work *)

Example validateInteger_largest :
  validateInteger (VNum (NInt (2 ^ 31 - 1))) "options.lineOffset" empty_world =
    (Normal tt, empty_world, []).
Proof. reflexivity. Qed.

Example validateInteger_too_large :
  validateInteger (VNum (NInt (2 ^ 31))) "options.lineOffset" empty_world =
    (Throw (ERR_OUT_OF_RANGE "options.lineOffset" "32-bit integer"
              (VNum (NInt (2 ^ 31)))), empty_world, []).
Proof. reflexivity. Qed.

Example validateInteger_fraction :
  validateInteger (VNum (NFrac "1.5")) "options.lineOffset" empty_world =
    (Throw (ERR_INVALID_ARG_TYPE "options.lineOffset" ["integer"]
              (VNum (NFrac "1.5"))), empty_world, []).
Proof. reflexivity. Qed.

Example isContext_of_a_function :
  isContext (VFun 1) empty_world =
    (Throw (ERR_INVALID_ARG_TYPE "sandbox" ["Object"] (VFun 1)), empty_world, []).
Proof. reflexivity. Qed.

Example runInNewContext_calls :
  exists w',
    @runInNewContext idle_engine (VStr "x = 1") VUndefined (VStr "file.js")
       empty_world =
      (Normal VUndefined, w',
       [EvMakeContext (VObj 1)
          (ContextTag (VStr "VM Context 1") VUndefined (VBool true) (VBool true));
        EvCompile
          (CompileArgs "x = 1" (VStr "file.js") (VNum (NInt 0)) (VNum (NInt 0))
             VUndefined (VBool false) (VObj 1) (VBool false));
        EvRun (InContext (VObj 1)) 2
          (RunArgs (VNum (NInt (-1))) (VBool true) (VBool false))])
    /\ defaultContextNameIndex w' = 2.
Proof. eexists. split; reflexivity. Qed.

Example compileFunction_params_checked :
  @compileFunction idle_engine (VStr "return a") (VObj 3) VUndefined
     extensions_world =
    (Throw (ERR_INVALID_ARG_TYPE "params[0]" ["string"] VNull),
     extensions_world, []).
Proof. reflexivity. Qed.

(** * Further properties *)

(** ** The run arguments *)

Lemma getRunInContextArgs_returns (options : arg) (w : World)
    (b : value) (args : run_args) (w' : World) (t : list event) :
  getRunInContextArgs options w = (Normal (b, args), w', t) ->
  well_formed_run_args args
  /\ ra_timeout args =
       or_default (get_prop w (default_options options) "timeout")
                  (VNum (NInt (-1)))
  /\ ra_displayErrors args = option_of w options "displayErrors" (VBool true)
  /\ ra_breakOnSigint args = option_of w options "breakOnSigint" (VBool false)
  /\ b = ra_breakOnSigint args
  /\ arg_is_object (default_options options) = true
  /\ w' = w /\ t = [].
Proof.
  unfold getRunInContextArgs, option_of, well_formed_run_args.
  destruct (arg_is_object (default_options options)); [|done].
  cbn [negb]. rewrite bind_get_world.
  remember (get_prop w (default_options options) "timeout") as timeout.
  set (brk := or_default _ (VBool false)).
  set (disp := or_default _ (VBool true)).
  assert (Hnext : forall tm,
    (if negb (bool_decide (typeof disp = "boolean"))
     then invalid_arg_type "options.displayErrors" "boolean" disp
     else if negb (bool_decide (typeof brk = "boolean"))
          then invalid_arg_type "options.breakOnSigint" "boolean" brk
          else ret (brk, RunArgs tm disp brk)) w = (Normal (b, args), w', t) ->
    args = RunArgs tm disp brk /\ b = brk /\ typeof disp = "boolean"
    /\ typeof brk = "boolean" /\ w' = w /\ t = []).
  { intros tm. case_bool_decide as Hd; cbn [negb]; [|done].
    case_bool_decide as Hb; cbn [negb]; [|done]. by intros [= <- <- <- <-]. }
  destruct timeout as [| | |[z| | | |]| | | | |];
    try (by (erewrite bind_fail; [|done])).
  { rewrite bind_ret_l. intros Hn.
    apply Hnext in Hn as (-> & -> & ? & ? & -> & ->). cbn.
    split_and!; try done. by left. }
  destruct (z <=? 0)%Z eqn:Hz.
  - by (erewrite bind_fail; [|done]).
  - rewrite bind_ret_l. intros Hn.
    apply Hnext in Hn as (-> & -> & ? & ? & -> & ->). cbn.
    split_and!; try done. right. exists z. split; [done|]. lia.
Qed.

(** X1.  What [getRunInContextArgs] returns is fit for the engine: the
    timeout is -1 when the option is left out and the option itself, a
    positive integer, otherwise; [displayErrors] and [breakOnSigint] are
    booleans, with defaults true and false; the flag returned beside the
    arguments is the [breakOnSigint] among them; nothing is changed or
    called. *)
Theorem getRunInContextArgs_well_formed (options : arg) (w : World)
    (b : value) (args : run_args) (w' : World) (t : list event) :
  getRunInContextArgs options w = (Normal (b, args), w', t) ->
  well_formed_run_args args
  /\ ra_timeout args =
       or_default (get_prop w (default_options options) "timeout")
                  (VNum (NInt (-1)))
  /\ ra_displayErrors args = option_of w options "displayErrors" (VBool true)
  /\ ra_breakOnSigint args = option_of w options "breakOnSigint" (VBool false)
  /\ b = ra_breakOnSigint args
  /\ arg_is_object (default_options options) = true
  /\ w' = w /\ t = [].
Proof. apply getRunInContextArgs_returns. Qed.

Lemma getRunInContextArgs_well_formed_witness :
  well_formed_run_args (RunArgs (VNum (NInt (-1))) (VBool true) (VBool true)).
Proof.
  eapply (getRunInContextArgs_well_formed (AVal (VObj 2)) sigint_world).
  reflexivity.
Defined.

Lemma filter_is_run_addListener (l : list value) :
  List.filter is_run (map EvAddListener l) = [].
Proof. by induction l. Qed.

Lemma super_run_validated `{Engine} target this args w c w' t :
  well_formed_run_args args ->
  super_run target this args w = (c, w', t) ->
  validated_or_run target this w (c, w', t).
Proof.
  intros Hargs. unfold super_run.
  destruct (ContextifyScript_run _ _ _ _). intros [= <- <- <-].
  right. by exists args.
Qed.

Lemma bridged_run_validated `{Engine} target this args w c w' t :
  well_formed_run_args args ->
  bridged_run target this args w = (c, w', t) ->
  validated_or_run target this w (c, w', t).
Proof.
  intros Hargs. unfold bridged_run.
  destruct (ContextifyScript_run _ _ _ _). intros [= <- <- <-].
  right. exists args. split; [done|]. cbn.
  by rewrite filter_is_run_addListener.
Qed.

Lemma run_after_validation `{Engine} target this options w c w' t :
  (x <- getRunInContextArgs options ;;
   let '(breakOnSigint, args) := x in
   wrap <- wants_sigint_wrap breakOnSigint ;;
   if wrap : bool then sigintHandlersWrap (super_run target this args)
   else super_run target this args) w = (c, w', t) ->
  validated_or_run target this w (c, w', t).
Proof.
  destruct (getRunInContextArgs options w) as [[[[b args]|e] w0] t0] eqn:Hargs.
  - destruct (getRunInContextArgs_returns _ _ _ _ _ _ Hargs)
      as (Hwf & _ & _ & _ & _ & _ & -> & ->).
    rewrite (bind_pure _ _ _ _ Hargs).
    erewrite bind_pure; [|apply wants_sigint_wrap_eq].
    destruct (truthy b && _).
    + rewrite bridged_run_eq. by apply bridged_run_validated.
    + by apply super_run_validated.
  - destruct (getRunInContextArgs_unchanged _ _ _ _ _ Hargs) as [-> ->].
    rewrite (bind_fail _ _ _ _ _ _ Hargs). intros [= <- <- <-].
    left. eauto.
Qed.

(** X2.  Every outcome of [Script.runInThisContext] and of
    [Script.runInContext] is either a validation failure, a throw that
    changes nothing and calls nothing, or holds exactly one run of the
    engine: of this script, on the target asked for, with well-formed
    arguments.  [Script.runInContext] reaches the engine only with a
    recognised context, and checks the context before it looks at the
    options. *)
Theorem run_methods_validated `{Engine} (this : ref) (ctx : value)
    (options : arg) (w : World) :
  validated_or_run ThisContext this w (Script_runInThisContext this options w)
  /\ validated_or_run (InContext ctx) this w
       (Script_runInContext this ctx options w)
  /\ (is_object ctx && _isContext w ctx = false ->
      exists expected,
        Script_runInContext this ctx options w =
          (Throw (ERR_INVALID_ARG_TYPE "contextifiedSandbox" [expected] ctx),
           w, [])).
Proof.
  assert (Hctx := validateContext_eq ctx w).
  split_and!.
  - destruct (Script_runInThisContext this options w) as [[c w'] t] eqn:Hrun.
    by apply (run_after_validation _ _ options).
  - destruct (Script_runInContext this ctx options w) as [[c w'] t] eqn:Hrun.
    unfold Script_runInContext in Hrun.
    destruct (negb (is_object ctx));
      [rewrite (bind_fail _ _ _ _ _ _ Hctx) in Hrun;
       injection Hrun as <- <- <-; left; eauto|].
    destruct (negb (_isContext w ctx));
      [rewrite (bind_fail _ _ _ _ _ _ Hctx) in Hrun;
       injection Hrun as <- <- <-; left; eauto|].
    rewrite (bind_pure _ _ _ _ Hctx) in Hrun.
    by apply (run_after_validation _ _ options).
  - intros Hnot. unfold Script_runInContext.
    destruct (is_object ctx); cbn [negb andb] in *.
    + rewrite Hnot in Hctx. cbn [negb] in Hctx. eexists.
      by rewrite (bind_fail _ _ _ _ _ _ Hctx).
    + eexists. by rewrite (bind_fail _ _ _ _ _ _ Hctx).
Qed.

Lemma run_methods_validated_witness :
  exists expected,
    @Script_runInContext idle_engine 1 (VObj 2) (AVal VNull) sigint_world =
      (Throw (ERR_INVALID_ARG_TYPE "contextifiedSandbox" [expected] (VObj 2)),
       sigint_world, []).
Proof.
  apply (@run_methods_validated idle_engine 1 (VObj 2) (AVal VNull)
           sigint_world).
  reflexivity.
Defined.

(** ** The integer validator *)

Lemma validateInteger_cases (v : value) (name : string) (w : World) :
  (exists z, v = VNum (NInt z) /\ int32 z
             /\ validateInteger v name w = (Normal tt, w, []))
  \/ (exists e, validateInteger v name w = (Throw e, w, [])).
Proof.
  destruct v as [| | |[z| | | |]| | | | |];
    try (by right; eexists).
  destruct (validateInteger_int z name w) as [Hin Hout].
  destruct (decide (- 2 ^ 31 <= z <= 2 ^ 31 - 1)) as [Hz|Hz].
  - left. exists z. by rewrite (Hin Hz).
  - right. eexists. by rewrite (Hout Hz).
Qed.

(** X3.  [validateInteger] lets a value through exactly when it is an integer
    of the signed 32-bit range.  Whatever is no integer (a fraction, NaN, an
    infinity, a value that is not a number) gets the type error, never the
    range error: the test for an integer comes first. *)
Theorem validateInteger_accepts_iff (v : value) (name : string) (w : World) :
  (validateInteger v name w = (Normal tt, w, [])
   <-> exists z, v = VNum (NInt z) /\ int32 z)
  /\ ((forall z, v <> VNum (NInt z)) ->
      validateInteger v name w =
        (Throw (ERR_INVALID_ARG_TYPE name ["integer"] v), w, []))
  /\ (forall z, v = VNum (NInt z) -> ~ int32 z ->
      validateInteger v name w =
        (Throw (ERR_OUT_OF_RANGE name "32-bit integer" v), w, [])).
Proof.
  split_and!.
  - split.
    + intros Hok.
      destruct (validateInteger_cases v name w) as [(z & -> & Hz & _)|[e He]];
        [eauto|congruence].
    + intros (z & -> & Hz). by apply validateInteger_int.
  - intros Hv. unfold validateInteger.
    destruct v as [| | |[]| | | | |]; try done. by destruct (Hv z).
  - intros z -> Hz. by apply validateInteger_int.
Qed.

Lemma validateInteger_accepts_iff_witness :
  validateInteger (VNum NPosInf) "options.lineOffset" empty_world =
    (Throw (ERR_INVALID_ARG_TYPE "options.lineOffset" ["integer"] (VNum NPosInf)),
     empty_world, []).
Proof.
  apply (validateInteger_accepts_iff (VNum NPosInf) "options.lineOffset"
           empty_world).
  discriminate.
Defined.

(** ** What the constructor gives the engine *)

Lemma Script_new_string_options `{Engine} (code : value) (f : string) (w : World) :
  Script_new code (AVal (VStr f)) w =
    Script_new code (ALit (Literal {[ "filename" := VStr f ]} VUndefined)) w.
Proof.
  unfold Script_new. apply bind_ext. intros s w1.
  cbn [default_options arg_is_object negb]. by rewrite !bind_ret_l.
Qed.

Lemma Script_new_object_outcome `{Engine} (s : string) (options : arg)
    (w : World) c w' t :
  arg_is_object (default_options options) = true ->
  Script_new (VStr s) options w = (c, w', t) ->
  ((exists e, c = Throw e) /\ w' = w /\ t = [])
  \/ (t = [EvCompile (compile_args_of w s options)]
      /\ well_formed_compile_args w (compile_args_of w s options)).
Proof.
  intros Hobj. unfold Script_new. cbn [ToString]. rewrite bind_ret_l.
  rewrite (Script_new_options _ _ _ Hobj), bind_get_world.
  unfold compile_args_of, well_formed_compile_args. cbv zeta.
  cbn [ca_filename ca_lineOffset ca_columnOffset ca_cachedData
       ca_produceCachedData].
  set (o := default_options options).
  case_bool_decide as Hfile; cbn [negb];
    [|intros [= <- <- <-]; left; eauto].
  destruct (validateInteger_cases
              (or_default (get_prop w o "lineOffset") (VNum (NInt 0)))
              "options.lineOffset" w) as [(zl & Hl & Hzl & Hvl)|[e Hvl]];
    [rewrite (bind_pure _ _ _ _ Hvl)
    |rewrite (bind_fail _ _ _ _ _ _ Hvl); intros [= <- <- <-]; left; eauto].
  destruct (validateInteger_cases
              (or_default (get_prop w o "columnOffset") (VNum (NInt 0)))
              "options.columnOffset" w) as [(zc & Hc & Hzc & Hvc)|[e Hvc]];
    [rewrite (bind_pure _ _ _ _ Hvc)
    |rewrite (bind_fail _ _ _ _ _ _ Hvc); intros [= <- <- <-]; left; eauto].
  destruct (negb (bool_decide (_ = VUndefined)) && negb (isUint8Array w _))
    eqn:Hcached; [intros [= <- <- <-]; left; eauto|].
  assert (Hcached' : get_prop w o "cachedData" = VUndefined
                     \/ isUint8Array w (get_prop w o "cachedData") = true).
  { apply andb_false_iff in Hcached as [Hu|Hu].
    - left. by apply negb_false_iff, bool_decide_eq_true_1 in Hu.
    - right. by apply negb_false_iff in Hu. }
  clear Hcached.
  destruct (bool_decide (typeof (or_default (get_prop w o "produceCachedData")
                                             _) = "boolean")) eqn:Hproduce;
    cbn [negb]; [|intros [= <- <- <-]; left; eauto].
  apply bool_decide_eq_true_1 in Hproduce.
  intros Hrun. right. split.
  - revert Hrun. set (a := CompileArgs _ _ _ _ _ _ _ _).
    unfold bind at 1. unfold super_ContextifyScript.
    destruct (ContextifyScript a w); [|by intros [= <- <- <-]].
    case_bool_decide; cbn [negb].
    + rewrite bind_ret_l. by intros [= <- <- <-].
    + destruct (negb (bool_decide (typeof _ = "function"))).
      * by intros [= <- <- <-].
      * unfold callbackMap_set, bind, ret. by intros [= <- <- <-].
  - split_and!; eauto.
Qed.

Lemma Script_new_string_outcome `{Engine} (s : string) (options : arg)
    (w : World) c w' t :
  Script_new (VStr s) options w = (c, w', t) ->
  ((exists e, c = Throw e) /\ w' = w /\ t = [])
  \/ exists a, t = [EvCompile a] /\ ca_code a = s
               /\ well_formed_compile_args w a.
Proof.
  destruct (arg_is_object (default_options options)) eqn:Hobj.
  - intros Hrun.
    destruct (Script_new_object_outcome _ _ _ _ _ _ Hobj Hrun) as [?|[-> ?]];
      [by left|right; by eexists].
  - destruct options as [v|l]; [|done].
    destruct (decide (typeof v = "string")) as [Hstr|Hstr].
    + destruct v; try discriminate.
      rewrite Script_new_string_options. intros Hrun.
      destruct (Script_new_object_outcome _ (ALit _) _ _ _ _ eq_refl Hrun)
        as [?|[-> ?]]; [by left|right; by eexists].
    + unfold Script_new. cbn [ToString]. rewrite bind_ret_l.
      destruct v; try discriminate; try done;
        by intros [= <- <- <-]; left; eauto.
Qed.

(** X4.  The engine compiles only what the constructor has validated.  The
    constructor converts the code first; after that, every outcome is either
    a throw that changes nothing more and calls nothing more, or holds one
    compilation, the last outside call, of the converted code with a string
    for a file name, offsets that are signed 32-bit integers, cached data
    that is a [Uint8Array] when given, and a boolean [produceCachedData]. *)
Theorem Script_new_compiles_validated `{Engine} (code : value) (options : arg)
    (w : World) c w' t :
  Script_new code options w = (c, w', t) ->
  exists cs w1 t1,
    ToString code w = (cs, w1, t1)
    /\ (((exists e, c = Throw e) /\ w' = w1 /\ t = t1)
        \/ exists s a,
             cs = Normal s /\ t = t1 ++ [EvCompile a] /\ ca_code a = s
             /\ well_formed_compile_args w1 a).
Proof.
  rewrite Script_new_converts. unfold bind at 1.
  destruct (ToString code w) as [[[s|e] w1] t1] eqn:Hs.
  - destruct (Script_new (VStr s) options w1) as [[c2 w2] t2] eqn:Hrun.
    intros [= <- <- <-]. exists (Normal s), w1, t1. split; [done|].
    destruct (Script_new_string_outcome _ _ _ _ _ _ Hrun)
      as [(He & -> & ->)|(a & -> & Ha & Hwf)].
    + left. by rewrite app_nil_r.
    + right. by exists s, a.
  - intros [= <- <- <-]. exists (Throw e), w1, t1. split; [done|].
    left. eauto.
Qed.

Lemma Script_new_compiles_validated_witness :
  let r := @Script_new idle_engine (VStr "x") (AVal VUndefined) empty_world in
  exists cs w1 t1,
    @ToString idle_engine (VStr "x") empty_world = (cs, w1, t1)
    /\ (((exists e, r.1.1 = Throw e) /\ r.1.2 = w1 /\ r.2 = t1)
        \/ exists s a,
             cs = Normal s /\ r.2 = t1 ++ [EvCompile a] /\ ca_code a = s
             /\ @well_formed_compile_args w1 a).
Proof.
  intros r.
  apply (@Script_new_compiles_validated idle_engine (VStr "x")
           (AVal VUndefined) empty_world r.1.1 r.1.2 r.2).
  reflexivity.
Defined.

(** ** The resolver of a script *)

(** Split on the test at the head of a computation in a hypothesis. *)
Ltac case_if_in H :=
  match type of H with
  | (if ?b then _ else _) _ = _ => destruct b eqn:?
  end.

Ltac inv_bind H :=
  let a := fresh "a" in
  let w := fresh "w" in
  let t1 := fresh "t" in
  let t2 := fresh "t" in
  let Hm := fresh "Hm" in
  apply bind_Normal_inv in H as (a & w & t1 & t2 & Hm & H & ->).

(** X5.  The type of [importModuleDynamically] is checked only after the
    engine has compiled.  With options that are valid otherwise and a
    resolver that is neither [undefined] nor a function, the constructor
    first asks the engine to compile; when the engine throws, its error is
    the one raised, and when it succeeds the constructor throws the
    invalid-argument type error and registers no resolver. *)
Theorem importModuleDynamically_checked_last `{Engine} (code : string)
    (options : arg) (w : World) (zl zc : Z) (v : value) :
  valid_script_options w options ->
  option_of w options "lineOffset" (VNum (NInt 0)) = VNum (NInt zl) ->
  option_of w options "columnOffset" (VNum (NInt 0)) = VNum (NInt zc) ->
  int32 zl -> int32 zc ->
  get_prop w (default_options options) "importModuleDynamically" = v ->
  v <> VUndefined ->
  typeof v <> "function" ->
  (forall e,
     ContextifyScript (compile_args_of w code options) w = Throw e ->
     Script_new (VStr code) options w =
       (Throw e, w, [EvCompile (compile_args_of w code options)]))
  /\ (ContextifyScript (compile_args_of w code options) w = Normal tt ->
      exists w',
        Script_new (VStr code) options w =
          (Throw (ERR_INVALID_ARG_TYPE "options.importModuleDynamically"
                    ["function"] v), w',
           [EvCompile (compile_args_of w code options)])
        /\ callbackMap w' = callbackMap w).
Proof.
  intros (Hobj & Hfile & Hcached & Hproduce) Hline Hcol Hzl Hzc Hv Hu Hf.
  unfold option_of in *.
  unfold Script_new. cbn [ToString]. rewrite bind_ret_l.
  rewrite (Script_new_options _ _ _ Hobj), bind_get_world.
  rewrite (bool_decide_eq_true_2 _ Hfile). cbn [negb].
  unfold compile_args_of in *. cbv zeta in *. rewrite Hline, Hcol in *.
  destruct (validateInteger_int zl "options.lineOffset" w) as [Hl1 _].
  destruct (validateInteger_int zc "options.columnOffset" w) as [Hc1 _].
  rewrite (bind_pure _ _ _ _ (Hl1 Hzl)), (bind_pure _ _ _ _ (Hc1 Hzc)).
  replace (negb (bool_decide (_ = VUndefined)) && negb (isUint8Array w _))
    with false.
  2:{ destruct Hcached as [-> | ->]; [done|by rewrite andb_false_r]. }
  rewrite (bool_decide_eq_true_2 _ Hproduce). cbn [negb].
  rewrite Hv, (bool_decide_eq_false_2 _ Hu), (bool_decide_eq_false_2 _ Hf).
  cbn [negb]. split.
  - intros e He. unfold bind at 1, super_ContextifyScript. by rewrite He.
  - intros Hok. unfold bind at 1, super_ContextifyScript. rewrite Hok.
    eexists. split; reflexivity.
Qed.

Lemma importModuleDynamically_checked_last_witness :
  exists w',
    @Script_new idle_engine (VStr "1") (AVal (VObj 2)) resolver_world =
      (Throw (ERR_INVALID_ARG_TYPE "options.importModuleDynamically"
                ["function"] (VNum (NInt 5))), w',
       [EvCompile (compile_args_of resolver_world "1" (AVal (VObj 2)))])
    /\ callbackMap w' = callbackMap resolver_world.
Proof.
  apply (@importModuleDynamically_checked_last idle_engine "1" (AVal (VObj 2))
           resolver_world 0 0 (VNum (NInt 5)));
    try reflexivity; try discriminate; try (unfold int32; lia).
  split_and!; [reflexivity|reflexivity|by left|reflexivity].
Defined.

(** X6.  A constructed script is a new object, and constructing it leaves
    the resolvers of all other scripts as they are.  When the constructor
    returns a script, the script was no object of the heap before; the heap
    and the engine's scripts gain this one entry, by one compilation; with
    no [importModuleDynamically] option [callbackMap] is unchanged, and
    otherwise the option is a function and is registered for this script
    only; contexts and SIGINT listeners are untouched. *)
Theorem Script_new_fresh_script `{Engine} (code : string) (options : arg)
    (w : World) (this : ref) (w' : World) (t : list event) :
  Script_new (VStr code) options w = (Normal this, w', t) ->
  heap w !! this = None
  /\ heap w' = <[this := Object KScript ∅ []]> (heap w)
  /\ (exists a, scripts w' = <[this := a]> (scripts w) /\ t = [EvCompile a])
  /\ (resolver_option w options = VUndefined
        /\ callbackMap w' = callbackMap w
      \/ typeof (resolver_option w options) = "function"
         /\ callbackMap w' =
              <[this := resolver_option w options]> (callbackMap w))
  /\ (forall r, r <> this -> callbackMap w' !! r = callbackMap w !! r)
  /\ contexts w' = contexts w
  /\ sigint w' = sigint w.
Proof.
  intros Hrun. unfold Script_new in Hrun. cbn [ToString] in Hrun.
  rewrite bind_ret_l in Hrun. inv_bind Hrun.
  assert (Ho : w0 = w /\ t0 = []
               /\ get_prop w a "importModuleDynamically"
                   = resolver_option w options).
  { revert Hm. unfold resolver_option.
    destruct options as [[]|]; cbn [default_options arg_is_object];
      try (by intros [= <- <- <-]); try done. }
  destruct Ho as (-> & -> & Ho). clear Hm.
  rewrite bind_get_world in Hrun.
  case_if_in Hrun; [done|].
  inv_bind Hrun. destruct (validateInteger_unchanged _ _ _ _ _ _ Hm) as [-> ->].
  clear Hm. inv_bind Hrun.
  destruct (validateInteger_unchanged _ _ _ _ _ _ Hm) as [-> ->]. clear Hm.
  case_if_in Hrun; [done|]. case_if_in Hrun; [done|].
  inv_bind Hrun. inv_bind Hrun. injection Hrun as -> -> <-.
  unfold super_ContextifyScript in Hm.
  destruct (ContextifyScript _ w); [|done]. injection Hm as <- <- <-.
  rewrite Ho in Hm0. clear Ho.
  set (f := resolver_option w options) in *.
  set (this := fresh (dom (heap w))) in *.
  match type of Hm0 with
  | context [<[this := ?x]> (scripts w)] => set (ca := x) in *
  end.
  assert (Hw' :
    t1 = []
    /\ (f = VUndefined /\ callbackMap w' = callbackMap w
        \/ typeof f = "function"
           /\ callbackMap w' = <[this := f]> (callbackMap w))
    /\ heap w' = <[this := Object KScript ∅ []]> (heap w)
    /\ scripts w' = <[this := ca]> (scripts w)
    /\ contexts w' = contexts w /\ sigint w' = sigint w).
  { clear -Hm0. revert Hm0.
    destruct (decide (f = VUndefined)) as [Hu|Hu].
    - rewrite (bool_decide_eq_true_2 _ Hu). cbn [negb].
      intros [= <- <-]. split_and!; eauto.
    - rewrite (bool_decide_eq_false_2 _ Hu). cbn [negb].
      destruct (decide (typeof f = "function")) as [Hf|Hf].
      + rewrite (bool_decide_eq_true_2 _ Hf). cbn [negb].
        intros [= <- <-]. split_and!; eauto.
      + by rewrite (bool_decide_eq_false_2 _ Hf). }
  destruct Hw' as (-> & Hcases & Hheap & Hscripts & Hctx & Hsig).
  split_and!; try done.
  - apply not_elem_of_dom, is_fresh.
  - by exists ca.
  - intros r Hr.
    destruct Hcases as [[_ ->]|[_ ->]]; [done|].
    by rewrite lookup_insert_ne.
Qed.

Lemma Script_new_fresh_script_witness :
  let r := @Script_new idle_engine (VStr "1") (AVal (VObj 3)) resolver_world in
  let this := fresh (dom (heap resolver_world)) in
  r = (Normal this, r.1.2, r.2)
  /\ heap resolver_world !! this = None
  /\ callbackMap r.1.2 !! this = Some (VFun 8)
  /\ callbackMap r.1.2 !! 9%positive = Some (VFun 10).
Proof.
  intros r this.
  assert (Hr : r = (Normal this, r.1.2, r.2)) by reflexivity.
  destruct (@Script_new_fresh_script idle_engine "1" (AVal (VObj 3))
              resolver_world this r.1.2 r.2 Hr)
    as (Hfresh & _ & _ & Hcb & Hother & _).
  split_and!; [done|done| |].
  - destruct Hcb as [[Hu _]|[_ ->]]; [discriminate Hu|].
    by rewrite lookup_insert_eq.
  - rewrite Hother; [reflexivity|].
    intros Heq. rewrite <- Heq in Hfresh. discriminate Hfresh.
Defined.

(** ** Making contexts *)

Lemma undefined_or_spec (type : string) (v : value) :
  undefined_or type v = true <-> v = VUndefined \/ typeof v = type.
Proof.
  unfold undefined_or. rewrite orb_true_iff, !bool_decide_eq_true. done.
Qed.

Lemma undefined_or_boolean_default (v : value) :
  undefined_or "boolean" (or_default v (VBool true)) = true ->
  typeof (or_default v (VBool true)) = "boolean".
Proof. intros [Hv | Hv]%undefined_or_spec; [by destruct v|done]. Qed.

(** What [createContext] does with an object that is no context yet: it
    settles the name, drawing a default one when the options give none, and
    then either throws, before the native call, or wraps the object with the
    tag of the options, which is well formed. *)
Lemma createContext_object_outcome `{Engine} (r : ref) (o : ctxarg)
    (w : World) c w' t :
  _isContext w (VObj r) = false ->
  createContext (VObj r) o w = (c, w', t) ->
  ((exists e, c = Throw e) /\ t = []
   /\ (w' = w \/ w' = named w o))
  \/ (c = Normal (VObj r)
      /\ t = [EvMakeContext (VObj r) (context_tag_of w o)]
      /\ w' = set_contexts (<[r := context_tag_of w o]> (contexts w))
                           (named w o)
      /\ ctxarg_is_object (default_ctxarg o) = true
      /\ well_formed_tag (context_tag_of w o)).
Proof.
  intros Hctx. unfold createContext. rewrite bind_ret_l.
  rewrite (bind_pure _ _ _ _ (isContext_VObj r w)). rewrite Hctx.
  unfold named, default_name_used, context_tag_of, well_formed_tag.
  cbv zeta. cbn [ct_name ct_origin ct_strings ct_wasm].
  set (o' := default_ctxarg o).
  destruct (ctxarg_is_object o') eqn:Hobj; cbn [negb andb];
    [|intros [= <- <- <-]; left; eauto].
  rewrite bind_get_world.
  set (n := options_name w o'). set (og := options_origin w o').
  set (cg := options_codeGeneration w o').
  assert (Hrest : forall name w0,
    typeof name = "string" ->
    name = or_default n (VStr ("VM Context " +:+
              NumberToString (NInt (defaultContextNameIndex w)))) ->
    forall k,
    (k = (validateString og "options.origin" ;;
     match cg with
     | CGVal v => validateObject v "options.codeGeneration"
     | CGLit _ _ => ret tt
     end ;;
     if codeGeneration_is_undefined cg then
       makeContext (VObj r) name og (VBool true) (VBool true) ;;
       ret (VObj r)
     else
       validateBool (codeGeneration_strings w cg)
                    "options.codeGeneration.strings" ;;
       validateBool (codeGeneration_wasm w cg)
                    "options.codeGeneration.wasm" ;;
       makeContext (VObj r) name og (codeGeneration_strings w cg)
                   (codeGeneration_wasm w cg) ;;
       ret (VObj r))%vm) ->
    k w0 = (c, w', t) ->
    contexts w0 = contexts w ->
    ((exists e, c = Throw e) /\ t = [] /\ w' = w0)
    \/ (c = Normal (VObj r)
        /\ t = [EvMakeContext (VObj r)
                  (ContextTag name og
                     (if codeGeneration_is_undefined cg then VBool true
                      else codeGeneration_strings w cg)
                     (if codeGeneration_is_undefined cg then VBool true
                      else codeGeneration_wasm w cg))]
        /\ w' = set_contexts
                  (<[r := ContextTag name og
                     (if codeGeneration_is_undefined cg then VBool true
                      else codeGeneration_strings w cg)
                     (if codeGeneration_is_undefined cg then VBool true
                      else codeGeneration_wasm w cg)]> (contexts w)) w0
        /\ (og = VUndefined \/ typeof og = "string")
        /\ typeof (if codeGeneration_is_undefined cg then VBool true
                   else codeGeneration_strings w cg) = "boolean"
        /\ typeof (if codeGeneration_is_undefined cg then VBool true
                   else codeGeneration_wasm w cg) = "boolean")).
  { intros name w0 Hname _ k -> Hk Hw0. revert Hk.
    rewrite bind_validateString.
    destruct (undefined_or "string" og) eqn:Hog;
      [|intros [= <- <- <-]; left; eauto].
    apply undefined_or_spec in Hog.
    assert (Hmake : forall s ws,
      (makeContext (VObj r) name og s ws ;; ret (VObj r)) w0 =
        (Normal (VObj r),
         set_contexts (<[r := ContextTag name og s ws]> (contexts w)) w0,
         [EvMakeContext (VObj r) (ContextTag name og s ws)])).
    { intros s ws. rewrite bind_makeContext. cbn. by rewrite Hw0. }
    destruct cg as [v|s ws]; cbn [codeGeneration_is_undefined].
    - rewrite bind_validateObject.
      destruct (decide (v = VUndefined)) as [->|Hv].
      + decides. cbn [orb]. rewrite Hmake. intros [= <- <- <-].
        right. split_and!; done.
      + rewrite (bool_decide_eq_false_2 _ Hv). cbn [orb].
        destruct (is_object v); [|intros [= <- <- <-]; left; eauto].
        rewrite bind_validateBool.
        destruct (undefined_or "boolean" _) eqn:Hs;
          [|intros [= <- <- <-]; left; eauto].
        rewrite bind_validateBool.
        destruct (undefined_or "boolean" (codeGeneration_wasm _ _)) eqn:Hws;
          [|intros [= <- <- <-]; left; eauto].
        rewrite Hmake. intros [= <- <- <-]. right.
        cbn [codeGeneration_strings codeGeneration_wasm] in *.
        split_and!; try done; by apply undefined_or_boolean_default.
    - rewrite bind_ret_l, bind_validateBool.
      destruct (undefined_or "boolean" _) eqn:Hs;
        [|intros [= <- <- <-]; left; eauto].
      rewrite bind_validateBool.
      destruct (undefined_or "boolean" (codeGeneration_wasm _ _)) eqn:Hws;
        [|intros [= <- <- <-]; left; eauto].
      rewrite Hmake. intros [= <- <- <-]. right.
      cbn [codeGeneration_strings codeGeneration_wasm] in *.
      split_and!; try done; by apply undefined_or_boolean_default. }
  destruct (decide (n = VUndefined)) as [Hn|Hn].
  - rewrite (bool_decide_eq_true_2 _ Hn), Hn. cbn [or_default_M or_default].
    rewrite bind_next_default_name. cbv zeta. cbn [typeof]. decides.
    cbn [negb]. intros Hk.
    set (name := VStr ("VM Context " +:+
                NumberToString (NInt (defaultContextNameIndex w)))) in *.
    assert (Hdef : name = or_default n name) by (by rewrite Hn).
    pose proof (Hrest name _ eq_refl Hdef _ eq_refl Hk eq_refl) as Hk'.
    destruct Hk' as [(He & -> & ->)|(-> & -> & -> & Hog & Hs & Hws)].
    + left. split_and!; [done|done|by right].
    + right. split_and!; done.
  - rewrite (bool_decide_eq_false_2 _ Hn).
    rewrite (or_default_M_defined _ _ Hn), bind_ret_l.
    destruct (decide (typeof n = "string")) as [Hs|Hs].
    + rewrite (bool_decide_eq_true_2 _ Hs). cbn [negb]. intros Hk.
      assert (Hdef : n = or_default n (VStr ("VM Context " +:+
                NumberToString (NInt (defaultContextNameIndex w)))))
        by (by destruct n).
      pose proof (Hrest n _ Hs Hdef _ eq_refl Hk eq_refl) as Hk'.
      rewrite <- Hdef.
      destruct Hk' as [(He & -> & ->)|(-> & -> & -> & Hog & Hss & Hws)].
      * left. split_and!; [done|done|by left].
      * right. split_and!; done.
    + rewrite (bool_decide_eq_false_2 _ Hs). cbn [negb].
      intros [= <- <- <-]. left. split_and!; eauto.
Qed.

(** [sandbox = {}]: with no sandbox, [createContext] goes on with a new
    object. *)
Lemma createContext_undefined `{Engine} (o : ctxarg) (w : World) :
  createContext VUndefined o w =
    createContext (VObj (fresh (dom (heap w)))) o
      (set_heap (<[fresh (dom (heap w)) := Object KPlain ∅ []]> (heap w)) w).
Proof.
  unfold createContext. rewrite bind_assoc.
  erewrite bind_step; [|reflexivity]. by rewrite after_nil, !bind_ret_l.
Qed.

Lemma createContext_not_object `{Engine} (x : value) (o : ctxarg) (w : World) :
  x <> VUndefined -> is_object x = false ->
  createContext x o w =
    (Throw (ERR_INVALID_ARG_TYPE "sandbox" ["Object"] x), w, []).
Proof.
  intros Hu Hobj. unfold createContext.
  assert (forall k : value -> M value,
            bind (match x with
                  | VUndefined => r <- alloc (Object KPlain ∅ []) ;; ret (VObj r)
                  | _ => ret x
                  end) k w = k x w) as ->.
  { intros k. destruct x; try done; by rewrite bind_ret_l. }
  eapply bind_fail. by rewrite isContext_eq, Hobj.
Qed.

Lemma _isContext_false (w : World) (r : ref) :
  _isContext w (VObj r) = false <-> contexts w !! r = None.
Proof.
  unfold _isContext. rewrite bool_decide_eq_false, <- eq_None_not_Some. done.
Qed.

Lemma _isContext_true (w : World) (r : ref) :
  _isContext w (VObj r) = true <-> is_Some (contexts w !! r).
Proof. unfold _isContext. by rewrite bool_decide_eq_true. Qed.

(** Settling the name leaves all but the counter. *)
Lemma named_frame (w : World) (o : ctxarg) :
  heap (named w o) = heap w /\ contexts (named w o) = contexts w
  /\ scripts (named w o) = scripts w
  /\ callbackMap (named w o) = callbackMap w
  /\ sigint (named w o) = sigint w.
Proof. unfold named. by destruct (default_name_used w o). Qed.

(** The outcomes of [createContext] on an object, context or not. *)
Lemma createContext_VObj_outcome `{Engine} (r : ref) (o : ctxarg) (w : World)
    c w' t :
  createContext (VObj r) o w = (c, w', t) ->
  heap w' = heap w /\ scripts w' = scripts w
  /\ callbackMap w' = callbackMap w /\ sigint w' = sigint w
  /\ ((exists e, c = Throw e) /\ t = [] /\ contexts w' = contexts w
      \/ (c = Normal (VObj r) /\ t = [] /\ contexts w' = contexts w
          /\ is_Some (contexts w !! r))
      \/ (exists tag,
            c = Normal (VObj r) /\ t = [EvMakeContext (VObj r) tag]
            /\ contexts w !! r = None
            /\ contexts w' = <[r := tag]> (contexts w)
            /\ well_formed_tag tag)).
Proof.
  destruct (_isContext w (VObj r)) eqn:Hctx.
  - rewrite (createContext_of_context _ _ _ Hctx). intros [= <- <- <-].
    split_and!; try done. right. left.
    by apply _isContext_true in Hctx.
  - intros Hc.
    destruct (named_frame w o) as (Hh & Hcx & Hs & Hcb & Hsig).
    destruct (createContext_object_outcome _ _ _ _ _ _ Hctx Hc)
      as [(He & -> & [-> | ->])|(-> & -> & -> & _ & Htag)].
    + split_and!; try done. by left.
    + split_and!; try done. by left.
    + split_and!; try done. right. right. eexists. split_and!; try done.
      by apply _isContext_false.
Qed.

(** X7.  [createContext] adds at most one context and never touches the
    others.  Every outcome is a throw before any native call, with the
    contexts as they were; or the return of an object that was a context
    already, nothing called; or the return of an object that was none, after
    one [makeContext] call with a well-formed tag, which is the one context
    more.  So an existing context keeps its tag; scripts, resolvers and
    SIGINT listeners are as before; and a sandbox that is given and is no
    object is rejected with nothing changed. *)
Theorem createContext_keeps_contexts `{Engine} (x : value) (o : ctxarg)
    (w : World) c w' t :
  createContext x o w = (c, w', t) ->
  ((exists e, c = Throw e) /\ t = [] /\ contexts w' = contexts w
   \/ (exists r, c = Normal (VObj r) /\ t = [] /\ contexts w' = contexts w
                 /\ is_Some (contexts w !! r))
   \/ (exists r tag,
         c = Normal (VObj r) /\ t = [EvMakeContext (VObj r) tag]
         /\ contexts w !! r = None
         /\ contexts w' = <[r := tag]> (contexts w)
         /\ well_formed_tag tag))
  /\ (forall r tag, contexts w !! r = Some tag -> contexts w' !! r = Some tag)
  /\ scripts w' = scripts w /\ callbackMap w' = callbackMap w
  /\ sigint w' = sigint w
  /\ (x <> VUndefined -> is_object x = false ->
      c = Throw (ERR_INVALID_ARG_TYPE "sandbox" ["Object"] x) /\ w' = w).
Proof.
  intros Hc.
  assert (Hcases :
    ((exists e, c = Throw e) /\ t = [] /\ contexts w' = contexts w
     \/ (exists r, c = Normal (VObj r) /\ t = [] /\ contexts w' = contexts w
                   /\ is_Some (contexts w !! r))
     \/ (exists r tag,
           c = Normal (VObj r) /\ t = [EvMakeContext (VObj r) tag]
           /\ contexts w !! r = None
           /\ contexts w' = <[r := tag]> (contexts w)
           /\ well_formed_tag tag))
    /\ scripts w' = scripts w /\ callbackMap w' = callbackMap w
    /\ sigint w' = sigint w).
  { destruct (decide (x = VUndefined)) as [->|Hu].
    - rewrite createContext_undefined in Hc.
      apply createContext_VObj_outcome in Hc
        as (_ & Hs & Hcb & Hsig & Hcases).
      split_and!; try done.
      destruct Hcases as [?|[(-> & -> & Hcx & Hr)|(tag & ?)]]; eauto 10.
    - destruct (is_object x) eqn:Hobj.
      + apply is_object_VObj in Hobj as [r ->].
        apply createContext_VObj_outcome in Hc
          as (_ & Hs & Hcb & Hsig & Hcases).
        split_and!; try done.
        destruct Hcases as [?|[(-> & -> & Hcx & Hr)|(tag & ?)]]; eauto 10.
      + rewrite (createContext_not_object _ _ _ Hu Hobj) in Hc.
        injection Hc as <- <- <-. split_and!; try done. left. eauto. }
  destruct Hcases as (Hcases & Hs & Hcb & Hsig).
  split_and!; try done.
  - intros r tag Hr.
    destruct Hcases as [(_ & _ & ->)|[(_ & _ & _ & -> & _)
                                     |(r' & tag' & _ & _ & Hr' & -> & _)]];
      try done.
    rewrite lookup_insert_ne; [done|]. intros ->. by rewrite Hr in Hr'.
  - intros Hu Hobj.
    rewrite (createContext_not_object _ _ _ Hu Hobj) in Hc.
    by injection Hc as <- <- <-.
Qed.

Lemma createContext_keeps_contexts_witness :
  let r := @createContext idle_engine VUndefined (CVal VUndefined)
             context_world in
  contexts r.1.2 !! 1%positive =
    Some (ContextTag (VStr "c") VUndefined (VBool true) (VBool true)).
Proof.
  intros r.
  destruct (@createContext_keeps_contexts idle_engine VUndefined
              (CVal VUndefined) context_world r.1.1 r.1.2 r.2 eq_refl)
    as (_ & Hkept & _).
  apply Hkept. reflexivity.
Defined.

(** The options read the same after a new object has been made. *)
Lemma options_same_props (w w' : World) (o : ctxarg) :
  same_props w w' ->
  options_name w' o = options_name w o
  /\ options_origin w' o = options_origin w o
  /\ options_codeGeneration w' o = options_codeGeneration w o
  /\ (forall cg, codeGeneration_strings w' cg = codeGeneration_strings w cg)
  /\ (forall cg, codeGeneration_wasm w' cg = codeGeneration_wasm w cg).
Proof.
  intros Hsame. split_and!.
  - destruct o; cbn; by rewrite ?Hsame.
  - destruct o; cbn; by rewrite ?Hsame.
  - destruct o; cbn; by rewrite ?Hsame.
  - intros []; cbn; by rewrite ?Hsame.
  - intros []; cbn; by rewrite ?Hsame.
Qed.

Lemma context_tag_of_same `{Engine} (w w' : World) (o : ctxarg) :
  same_props w w' ->
  defaultContextNameIndex w' = defaultContextNameIndex w ->
  context_tag_of w' o = context_tag_of w o.
Proof.
  intros Hsame Hi. unfold context_tag_of. cbv zeta.
  destruct (options_same_props w w' (default_ctxarg o) Hsame)
    as (-> & -> & -> & Hs & Hws).
  by rewrite Hi, Hs, Hws.
Qed.

Lemma default_name_used_same (w w' : World) (o : ctxarg) :
  same_props w w' -> default_name_used w' o = default_name_used w o.
Proof.
  intros Hsame. unfold default_name_used.
  by destruct (options_same_props w w' (default_ctxarg o) Hsame) as (-> & _).
Qed.

(** X8.  Without a sandbox [createContext] contextifies a new object.  In a
    world whose contexts are all objects of the heap, when
    [createContext(undefined, options)] returns, the result is an object
    that was not in the heap before and is an empty plain object now; it is
    the one new context, tagged from the options by one [makeContext] call;
    the contexts are still all in the heap; and a second such call returns
    a different object. *)
Theorem createContext_fresh_sandbox `{Engine} (o : ctxarg) (w : World)
    (v : value) (w' : World) (t : list event) :
  contexts_in_heap w ->
  createContext VUndefined o w = (Normal v, w', t) ->
  (exists r,
     v = VObj r
     /\ heap w !! r = None /\ contexts w !! r = None
     /\ heap w' = <[r := Object KPlain ∅ []]> (heap w)
     /\ contexts w' = <[r := context_tag_of w o]> (contexts w)
     /\ t = [EvMakeContext v (context_tag_of w o)])
  /\ contexts_in_heap w'
  /\ (forall o2 v2 w2 t2,
        createContext VUndefined o2 w' = (Normal v2, w2, t2) -> v2 <> v).
Proof.
  intros Hinv Hc.
  assert (Hfirst : forall o w v w' t,
    contexts_in_heap w ->
    createContext VUndefined o w = (Normal v, w', t) ->
    exists r,
      v = VObj r
      /\ heap w !! r = None /\ contexts w !! r = None
      /\ heap w' = <[r := Object KPlain ∅ []]> (heap w)
      /\ contexts w' = <[r := context_tag_of w o]> (contexts w)
      /\ t = [EvMakeContext v (context_tag_of w o)]).
  { clear. intros o w v w' t Hinv Hc.
    rewrite createContext_undefined in Hc.
    set (r := fresh (dom (heap w))) in *.
    set (w0 := set_heap _ w) in *.
    assert (Hfresh : heap w !! r = None) by apply not_elem_of_dom, is_fresh.
    assert (Hnone : contexts w !! r = None).
    { apply eq_None_not_Some. intros Hr%Hinv.
      rewrite Hfresh in Hr. by destruct Hr. }
    assert (Hctx : _isContext w0 (VObj r) = false)
      by (by apply _isContext_false).
    assert (Hsame : same_props w w0) by apply same_props_fresh.
    destruct (named_frame w0 o) as (Hh & Hcx & _).
    destruct (createContext_object_outcome _ _ _ _ _ _ Hctx Hc)
      as [([e He] & _)|(Hv & -> & -> & _ & _)]; [done|].
    injection Hv as ->. exists r.
    rewrite (context_tag_of_same w w0 o Hsame eq_refl).
    split_and!; done. }
  destruct (Hfirst _ _ _ _ _ Hinv Hc)
    as (r & -> & Hfresh & Hnone & Hheap & Hctxs & ->).
  assert (Hinv' : contexts_in_heap w').
  { intros r' Hr'. rewrite Hheap. rewrite Hctxs in Hr'.
    destruct (decide (r = r')) as [<-|Hne].
    - by rewrite lookup_insert_eq.
    - rewrite lookup_insert_ne in Hr' by done.
      rewrite lookup_insert_ne by done. by apply Hinv. }
  split_and!; [by exists r|done|].
  intros o2 v2 w2 t2 Hc2.
  destruct (Hfirst _ _ _ _ _ Hinv' Hc2) as (r2 & -> & Hfresh2 & _).
  intros [= ->]. by rewrite Hheap, lookup_insert_eq in Hfresh2.
Qed.

Lemma createContext_fresh_sandbox_witness :
  let r := @createContext idle_engine VUndefined (CVal VUndefined)
             context_world in
  let v := VObj (fresh (dom (heap context_world))) in
  exists r',
    v = VObj r'
    /\ heap context_world !! r' = None /\ contexts context_world !! r' = None
    /\ heap r.1.2 = <[r' := Object KPlain ∅ []]> (heap context_world)
    /\ contexts r.1.2 =
         <[r' := @context_tag_of idle_engine context_world (CVal VUndefined)]>
           (contexts context_world)
    /\ r.2 = [EvMakeContext v
                (@context_tag_of idle_engine context_world (CVal VUndefined))].
Proof.
  intros r v.
  apply (@createContext_fresh_sandbox idle_engine (CVal VUndefined)
           context_world v r.1.2 r.2).
  - intros x [tag Hx].
    destruct (decide (x = 1%positive)) as [->|Hne]; [by eexists|].
    unfold context_world in Hx. cbn in Hx.
    by rewrite lookup_singleton_ne in Hx.
  - reflexivity.
Defined.

Lemma next_index_bounds (i : Z) : i <= next_index i <= i + 1.
Proof. unfold next_index. destruct (i <? 2 ^ 53)%Z; lia. Qed.

Lemma named_index (w : World) (o : ctxarg) :
  defaultContextNameIndex (named w o) =
    if default_name_used w o then next_index (defaultContextNameIndex w)
    else defaultContextNameIndex w.
Proof. unfold named. by destruct (default_name_used w o). Qed.

(** An invalid [origin] is found after the default name has been drawn. *)
Lemma createContext_origin_rejected `{Engine} (r : ref) (o : ctxarg)
    (w : World) :
  contexts w !! r = None ->
  ctxarg_is_object (default_ctxarg o) = true ->
  options_name w (default_ctxarg o) = VUndefined ->
  undefined_or "string" (options_origin w (default_ctxarg o)) = false ->
  createContext (VObj r) o w =
    (Throw (ERR_INVALID_ARG_TYPE "options.origin" ["string"]
              (options_origin w (default_ctxarg o))),
     set_defaultContextNameIndex (next_index (defaultContextNameIndex w)) w,
     []).
Proof.
  intros Hr Hobj Hn Hog. apply _isContext_false in Hr.
  unfold createContext.
  rewrite bind_ret_l, (bind_pure _ _ _ _ (isContext_VObj r w)), Hr, Hobj.
  cbn [negb]. rewrite bind_get_world, Hn. cbn [or_default_M].
  rewrite bind_next_default_name. cbv zeta. cbn [typeof]. decides.
  cbn [negb]. by rewrite bind_validateString, Hog.
Qed.

(** The counter and the name on an object. *)
Lemma createContext_VObj_index `{Engine} (r : ref) (o : ctxarg) (w : World)
    c w' t :
  createContext (VObj r) o w = (c, w', t) ->
  let i := defaultContextNameIndex w in
  let n := options_name w (default_ctxarg o) in
  (defaultContextNameIndex w' = i \/ defaultContextNameIndex w' = next_index i)
  /\ (forall v tag,
        t = [EvMakeContext v tag] ->
        (n <> VUndefined -> ct_name tag = n /\ defaultContextNameIndex w' = i)
        /\ (n = VUndefined ->
            ct_name tag = VStr ("VM Context " +:+ NumberToString (NInt i))
            /\ defaultContextNameIndex w' = next_index i))
  /\ (forall v, c = Normal v -> t = [] -> defaultContextNameIndex w' = i).
Proof.
  cbv zeta. destruct (_isContext w (VObj r)) eqn:Hctx.
  - rewrite (createContext_of_context _ _ _ Hctx). intros [= <- <- <-].
    split_and!; [by left|done|done].
  - intros Hc. pose proof (named_index w o) as Hi.
    destruct (createContext_object_outcome _ _ _ _ _ _ Hctx Hc)
      as [([e ->] & -> & [-> | ->])|(-> & -> & -> & Hobj & _)].
    + split_and!; [by left|done|done].
    + split_and!; [|done|done].
      rewrite Hi. destruct (default_name_used w o); [by right|by left].
    + unfold default_name_used in Hi. rewrite Hobj in Hi. cbn [andb] in Hi.
      cbn [defaultContextNameIndex set_contexts]. split_and!; [| |done].
      * rewrite Hi. case_bool_decide; [by right|by left].
      * intros v tag [= _ <-]. unfold context_tag_of. cbv zeta.
        cbn [ct_name]. split; intros Hn.
        -- rewrite (bool_decide_eq_false_2 _ Hn) in Hi.
           split; [|done]. by destruct (options_name w (default_ctxarg o)).
        -- rewrite (bool_decide_eq_true_2 _ Hn) in Hi. by rewrite Hn.
Qed.

(** X9.  Default context names are drawn from a counter that only the
    contexts without a name of their own advance.  Whatever [createContext]
    does, the counter stays or rises by one; when it wraps an object, the
    tag's name is the [name] option, the counter untouched, or else
    ["VM Context i"] for the counter's value [i], which then advances (up
    to 2^53, where adding one changes a double no more); an object that is
    a context already draws no name.  But a name is also used up by a call
    that fails afterwards: with no [name] and an [origin] that is no string,
    the call throws for the origin and the counter has advanced. *)
Theorem default_context_names `{Engine} (x : value) (o : ctxarg) (w : World)
    c w' t :
  createContext x o w = (c, w', t) ->
  let i := defaultContextNameIndex w in
  let n := options_name w (default_ctxarg o) in
  i <= defaultContextNameIndex w' <= i + 1
  /\ (forall v tag,
        t = [EvMakeContext v tag] ->
        (n <> VUndefined -> ct_name tag = n /\ defaultContextNameIndex w' = i)
        /\ (n = VUndefined ->
            ct_name tag = VStr ("VM Context " +:+ NumberToString (NInt i))
            /\ defaultContextNameIndex w' = next_index i))
  /\ (forall v, c = Normal v -> t = [] -> defaultContextNameIndex w' = i)
  /\ (forall r,
        x = VObj r -> contexts w !! r = None ->
        ctxarg_is_object (default_ctxarg o) = true ->
        n = VUndefined ->
        undefined_or "string" (options_origin w (default_ctxarg o)) = false ->
        c = Throw (ERR_INVALID_ARG_TYPE "options.origin" ["string"]
                     (options_origin w (default_ctxarg o)))
        /\ defaultContextNameIndex w' = next_index i).
Proof.
  intros Hc. cbv zeta.
  assert (Hgen :
    (defaultContextNameIndex w' = defaultContextNameIndex w
     \/ defaultContextNameIndex w' = next_index (defaultContextNameIndex w))
    /\ (forall v tag,
          t = [EvMakeContext v tag] ->
          (options_name w (default_ctxarg o) <> VUndefined ->
           ct_name tag = options_name w (default_ctxarg o)
           /\ defaultContextNameIndex w' = defaultContextNameIndex w)
          /\ (options_name w (default_ctxarg o) = VUndefined ->
              ct_name tag =
                VStr ("VM Context " +:+
                      NumberToString (NInt (defaultContextNameIndex w)))
              /\ defaultContextNameIndex w' =
                   next_index (defaultContextNameIndex w)))
    /\ (forall v, c = Normal v -> t = [] ->
                  defaultContextNameIndex w' = defaultContextNameIndex w)).
  { destruct (decide (x = VUndefined)) as [->|Hu].
    - rewrite createContext_undefined in Hc.
      apply createContext_VObj_index in Hc. cbv zeta in Hc.
      pose proof (same_props_fresh w KPlain []) as Hsame.
      destruct (options_same_props _ _ (default_ctxarg o) Hsame) as (Hn & _).
      by rewrite Hn in Hc.
    - destruct (is_object x) eqn:Hobj.
      + apply is_object_VObj in Hobj as [r ->].
        by apply createContext_VObj_index in Hc.
      + rewrite (createContext_not_object _ _ _ Hu Hobj) in Hc.
        injection Hc as <- <- <-. split_and!; [by left|done|done]. }
  destruct Hgen as (Hi & Htag & Hnone).
  pose proof (next_index_bounds (defaultContextNameIndex w)).
  split_and!; try done.
  - destruct Hi as [-> | ->]; lia.
  - destruct Hi as [-> | ->]; lia.
  - intros r -> Hr Hobj Hn Hog.
    rewrite (createContext_origin_rejected _ _ _ Hr Hobj Hn Hog) in Hc.
    by injection Hc as <- <- <-.
Qed.

Lemma default_context_names_witness :
  let r := @createContext idle_engine (VObj 1) (CVal (VObj 2)) origin_world in
  r.1.1 = Throw (ERR_INVALID_ARG_TYPE "options.origin" ["string"]
                   (VNum (NInt 5)))
  /\ defaultContextNameIndex r.1.2 = 2.
Proof.
  intros r.
  destruct (@default_context_names idle_engine (VObj 1) (CVal (VObj 2))
              origin_world r.1.1 r.1.2 r.2 eq_refl)
    as (_ & _ & _ & Hrejected).
  apply (Hrejected 1%positive); reflexivity.
Defined.

(** ** Context options of the run methods *)

Lemma falsy_no_prop (w : World) (options : arg) (k : string) :
  arg_truthy options = false -> get_prop w options k = VUndefined.
Proof. destruct options as [[]|]; try done. Qed.

(** What [getContextOptions] returns. *)
Lemma getContextOptions_returns (options : arg) (w : World) cl w1 t1 :
  getContextOptions options w = (Normal cl, w1, t1) ->
  w1 = w /\ t1 = []
  /\ valid_ctxLiteral cl
  /\ cl_name cl = get_prop w options "contextName"
  /\ cl_origin cl = get_prop w options "contextOrigin"
  /\ (let ccg := get_prop w options "contextCodeGeneration" in
      (ccg = VUndefined /\ cl_codeGeneration cl = None)
      \/ (is_object ccg = true
          /\ cl_codeGeneration cl =
               Some (get_value_prop w ccg "strings",
                     get_value_prop w ccg "wasm"))).
Proof.
  unfold getContextOptions, valid_ctxLiteral.
  destruct (arg_truthy options) eqn:Ht.
  - rewrite bind_get_world. cbv zeta.
    generalize (get_prop w options "contextCodeGeneration") as cg.
    generalize (get_prop w options "contextName") as name.
    generalize (get_prop w options "contextOrigin") as origin.
    intros origin name cg. cbn [cl_name cl_origin cl_codeGeneration].
    rewrite bind_validateObject.
    destruct (decide (cg = VUndefined)) as [->|Hcg].
    + decides. cbn [orb]. rewrite !bind_validateString.
      destruct (undefined_or "string" name) eqn:Hn; [|done].
      destruct (undefined_or "string" origin) eqn:Ho; [|done].
      cbn [typeof]. decides. rewrite !bind_ret_l.
      intros [= <- <- <-]. cbn. split_and!; try done. by left.
    + rewrite (bool_decide_eq_false_2 _ Hcg). cbn [orb].
      destruct (is_object cg) eqn:Hobj; [|done].
      rewrite !bind_validateString.
      destruct (undefined_or "string" name) eqn:Hn; [|done].
      destruct (undefined_or "string" origin) eqn:Ho; [|done].
      assert (Hty : typeof cg = "object").
      { by apply is_object_VObj in Hobj as [r ->]. }
      destruct (bool_decide (typeof cg = "object")) eqn:Hbd;
        [|by apply bool_decide_eq_false_1 in Hbd].
      rewrite !bind_assoc, !bind_validateBool.
      destruct (undefined_or "boolean" (get_value_prop w cg "strings")) eqn:Hs;
        [|done].
      destruct (undefined_or "boolean" (get_value_prop w cg "wasm")) eqn:Hws;
        [|done].
      rewrite ?bind_ret_l. intros [= <- <- <-]. cbn.
      split_and!; try done. by right.
  - intros [= <- <- <-]. rewrite !(falsy_no_prop _ _ _ Ht). cbn.
    split_and!; try done. by left.
Qed.

(** [createContext] accepts every valid literal. *)
Lemma createContext_literal `{Engine} (r : ref) (cl : ctxLiteral) (w : World) :
  contexts w !! r = None ->
  valid_ctxLiteral cl ->
  exists w',
    createContext (VObj r) (CLit cl) w =
      (Normal (VObj r), w',
       [EvMakeContext (VObj r) (context_tag_of w (CLit cl))])
    /\ contexts w' = <[r := context_tag_of w (CLit cl)]> (contexts w)
    /\ well_formed_tag (context_tag_of w (CLit cl)).
Proof.
  intros Hr (Hn & Ho & Hcg). apply _isContext_false in Hr.
  destruct (createContext (VObj r) (CLit cl) w) as [[c w'] t] eqn:Hc.
  pose proof (createContext_object_outcome _ _ _ _ _ _ Hr Hc) as Hout.
  assert (Hok : exists v, c = Normal v).
  { revert Hc. unfold createContext.
    rewrite bind_ret_l, (bind_pure _ _ _ _ (isContext_VObj r w)), Hr.
    cbn [default_ctxarg ctxarg_is_object negb options_name options_origin
         options_codeGeneration].
    rewrite bind_get_world.
    assert (Hrest : forall name w0,
      exists w1 t1,
        (validateString (cl_origin cl) "options.origin" ;;
         match
           match cl_codeGeneration cl with
           | Some (strings, wasm) => CGLit strings wasm
           | None => CGVal VUndefined
           end
         with
         | CGVal v => validateObject v "options.codeGeneration"
         | CGLit _ _ => ret tt
         end ;;
         if codeGeneration_is_undefined
              match cl_codeGeneration cl with
              | Some (strings, wasm) => CGLit strings wasm
              | None => CGVal VUndefined
              end
         then
           makeContext (VObj r) name (cl_origin cl) (VBool true) (VBool true) ;;
           ret (VObj r)
         else
           validateBool
             (codeGeneration_strings w
                match cl_codeGeneration cl with
                | Some (strings, wasm) => CGLit strings wasm
                | None => CGVal VUndefined
                end) "options.codeGeneration.strings" ;;
           validateBool
             (codeGeneration_wasm w
                match cl_codeGeneration cl with
                | Some (strings, wasm) => CGLit strings wasm
                | None => CGVal VUndefined
                end) "options.codeGeneration.wasm" ;;
           makeContext (VObj r) name (cl_origin cl)
             (codeGeneration_strings w
                match cl_codeGeneration cl with
                | Some (strings, wasm) => CGLit strings wasm
                | None => CGVal VUndefined
                end)
             (codeGeneration_wasm w
                match cl_codeGeneration cl with
                | Some (strings, wasm) => CGLit strings wasm
                | None => CGVal VUndefined
                end) ;;
           ret (VObj r))%vm w0 = (Normal (VObj r), w1, t1)).
    { intros name w0. rewrite bind_validateString, Ho.
      destruct (cl_codeGeneration cl) as [[s ws]|].
      - destruct Hcg as [Hs Hws].
        cbn [codeGeneration_is_undefined codeGeneration_strings
             codeGeneration_wasm].
        rewrite bind_ret_l, !bind_validateBool, !undefined_or_default, Hs, Hws.
        rewrite bind_makeContext. by eexists _, _.
      - rewrite bind_validateObject. decides. cbn [orb].
        cbn [codeGeneration_is_undefined]. decides.
        rewrite bind_makeContext. by eexists _, _. }
    destruct (decide (cl_name cl = VUndefined)) as [Hu|Hu].
    - rewrite Hu. cbn [or_default_M]. rewrite bind_next_default_name.
      cbv zeta. cbn [typeof]. decides. cbn [negb].
      destruct (Hrest (VStr ("VM Context " +:+
                  NumberToString (NInt (defaultContextNameIndex w))))
                  (set_defaultContextNameIndex
                     (if (defaultContextNameIndex w <? 2 ^ 53)%Z
                      then defaultContextNameIndex w + 1
                      else defaultContextNameIndex w) w))
        as (w1 & t1 & ->).
      intros [= <- _ _]. eauto.
    - rewrite (or_default_M_defined _ _ Hu), bind_ret_l.
      apply undefined_or_spec in Hn as [Hn|Hn]; [done|].
      rewrite (bool_decide_eq_true_2 _ Hn). cbn [negb].
      destruct (Hrest (cl_name cl) w) as (w1 & t1 & ->).
      intros [= <- _ _]. eauto. }
  destruct Hok as [v ->].
  destruct Hout as [([e He] & _)|(-> & -> & -> & _ & Htag)]; [done|].
  eexists. split_and!; done.
Qed.

(** X10.  The context options that [getContextOptions] has checked are never
    rejected by [createContext].  When [getContextOptions] returns (it has
    then changed and called nothing), [createContext] with its result wraps
    any object that is no context yet: one [makeContext] call with a
    well-formed tag, built from [contextName] (or a default name),
    [contextOrigin], and the [strings] and [wasm] of
    [contextCodeGeneration], each [true] when not given. *)
Theorem context_options_accepted `{Engine} (options : arg) (r : ref)
    (w : World) cl w1 t1 :
  getContextOptions options w = (Normal cl, w1, t1) ->
  contexts w !! r = None ->
  w1 = w /\ t1 = []
  /\ exists tag w',
       createContext (VObj r) (CLit cl) w1 =
         (Normal (VObj r), w', [EvMakeContext (VObj r) tag])
       /\ contexts w' = <[r := tag]> (contexts w)
       /\ well_formed_tag tag
       /\ ct_name tag =
            or_default (get_prop w options "contextName")
              (VStr ("VM Context " +:+
                     NumberToString (NInt (defaultContextNameIndex w))))
       /\ ct_origin tag = get_prop w options "contextOrigin"
       /\ (let ccg := get_prop w options "contextCodeGeneration" in
           ct_strings tag =
             or_default (get_value_prop w ccg "strings") (VBool true)
           /\ ct_wasm tag =
                or_default (get_value_prop w ccg "wasm") (VBool true)).
Proof.
  intros Hco Hr.
  destruct (getContextOptions_returns _ _ _ _ _ Hco)
    as (-> & -> & Hvalid & Hname & Horigin & Hcg).
  split_and!; try done.
  destruct (createContext_literal r cl w Hr Hvalid) as (w' & Hc & Hctx & Htag).
  exists (context_tag_of w (CLit cl)), w'. split_and!; try done.
  - unfold context_tag_of. cbn. by rewrite Hname.
  - cbv zeta in *. unfold context_tag_of. cbn.
    destruct Hcg as [[-> ->]|[Hobj ->]]; cbn; [done|].
    done.
Qed.

Lemma context_options_accepted_witness :
  exists tag w',
    @createContext idle_engine (VObj 1)
      (CLit (CtxLiteral (VStr "sandbox") VUndefined
               (Some (VBool false, VUndefined)))) run_options_world =
      (Normal (VObj 1), w', [EvMakeContext (VObj 1) tag])
    /\ ct_name tag = VStr "sandbox"
    /\ ct_strings tag = VBool false
    /\ ct_wasm tag = VBool true.
Proof.
  destruct (@context_options_accepted idle_engine (AVal (VObj 2)) 1
              run_options_world
              (CtxLiteral (VStr "sandbox") VUndefined
                 (Some (VBool false, VUndefined)))
              run_options_world [] eq_refl eq_refl)
    as (_ & _ & tag & w' & Hc & _ & _ & Hname & _ & Hs & Hws).
  exists tag, w'. split_and!; done.
Defined.

(** ** What [compileFunction] hands to the engine *)

(** A loop that checks the [typeof] of every element stops at the first
    element that fails, naming its index. *)
Lemma ArrayForEach_typeof_cases (type name : string) (items : list value)
    (i : nat) (w : World) :
  let body := fun (x : value) (j : nat) =>
    if negb (bool_decide (typeof x = type)) then
      invalid_arg_type (index_name name j) type x
    else ret tt in
  (Forall (fun x => typeof x = type) items
   /\ ArrayForEach_from i items body w = (Normal tt, w, []))
  \/ (exists pre x post,
        items = pre ++ x :: post
        /\ Forall (fun x => typeof x = type) pre
        /\ typeof x <> type
        /\ ArrayForEach_from i items body w =
             (Throw (ERR_INVALID_ARG_TYPE (index_name name (i + length pre))
                       [type] x), w, [])).
Proof.
  cbv zeta. revert i. induction items as [|x items IH]; intros i.
  - left. by split.
  - destruct (decide (typeof x = type)) as [Hx|Hx].
    + destruct (IH (S i)) as [[Hall Hrun]|(pre & y & post & -> & Hpre & Hy & Hrun)].
      * left. split; [by constructor|].
        cbn [ArrayForEach_from]. erewrite bind_pure; [exact Hrun|].
        by rewrite (bool_decide_eq_true_2 _ Hx).
      * right. exists (x :: pre), y, post. split_and!; [done|by constructor|done|].
        cbn [ArrayForEach_from app]. erewrite bind_pure.
        -- rewrite Hrun. do 4 f_equal. cbn [length]. f_equal. lia.
        -- by rewrite (bool_decide_eq_true_2 _ Hx).
    + right. exists [], x, items. split_and!; [done|by constructor|done|].
      cbn [ArrayForEach_from]. eapply bind_fail.
      rewrite (bool_decide_eq_false_2 _ Hx). cbn [negb length].
      by rewrite Nat.add_0_r.
Qed.

Lemma validate_params_cases (w : World) (params : value) :
  (valid_params w params /\ validate_params w params w = (Normal tt, w, []))
  \/ (params <> VUndefined /\ ArrayIsArray w params = None
      /\ validate_params w params w =
           (Throw (ERR_INVALID_ARG_TYPE "params" ["Array"] params), w, []))
  \/ (exists pre x post,
        ArrayIsArray w params = Some (pre ++ x :: post)
        /\ Forall (fun x => typeof x = "string") pre
        /\ typeof x <> "string"
        /\ validate_params w params w =
             (Throw (ERR_INVALID_ARG_TYPE (index_name "params" (length pre))
                       ["string"] x), w, [])).
Proof.
  unfold validate_params, valid_params.
  destruct (decide (params = VUndefined)) as [->|Hu].
  { left. split; [by left|done]. }
  rewrite (bool_decide_eq_false_2 _ Hu).
  destruct (ArrayIsArray w params) as [items|] eqn:Hitems; [|right; by left].
  destruct (ArrayForEach_typeof_cases "string" "params" items 0 w)
    as [[Hall Hrun]|(pre & x & post & -> & Hpre & Hx & Hrun)].
  - left. split; [right; by exists items|done].
  - right. right. by exists pre, x, post.
Qed.

Lemma validateUint32_cases (v : value) (name : string) (w : World) :
  (exists z, v = VNum (NInt z) /\ uint32 z
             /\ validateUint32 v name w = (Normal tt, w, []))
  \/ (exists e, validateUint32 v name w = (Throw e, w, [])).
Proof.
  destruct v as [| | |[z| | | |]| | | | |];
    try (by right; eexists).
  destruct (validateUint32_int z name w) as [Hin Hout].
  destruct (decide (0 <= z <= 2 ^ 32 - 1)) as [Hz|Hz].
  - left. exists z. by rewrite (Hin Hz).
  - right. eexists. by rewrite (Hout Hz).
Qed.

Lemma validate_parsingContext_cases (w : World) (parsingContext : value) :
  ((parsingContext = VUndefined \/ _isContext w parsingContext = true)
   /\ validate_parsingContext parsingContext w = (Normal tt, w, []))
  \/ validate_parsingContext parsingContext w =
       (Throw (ERR_INVALID_ARG_TYPE "options.parsingContext" ["Context"]
                 parsingContext), w, []).
Proof.
  destruct (decide (parsingContext = VUndefined)) as [->|Hu].
  { left. split; [by left|done]. }
  destruct (_isContext w parsingContext) eqn:Hctx.
  { left. split; [by right|].
    apply validate_parsingContext_valid. by right. }
  right. unfold validate_parsingContext.
  rewrite (bool_decide_eq_false_2 _ Hu).
  destruct (is_object parsingContext) eqn:Hobj; cbn [negb].
  - rewrite bind_assoc. erewrite bind_pure; [|by rewrite isContext_eq, Hobj].
    by rewrite Hctx, bind_ret_l.
  - by rewrite bind_ret_l.
Qed.

Lemma contextExtensions_items_cases (w : World) (contextExtensions : value) :
  (exists items,
     contextExtensions_items w contextExtensions w = (Normal items, w, []))
  \/ (exists e, contextExtensions_items w contextExtensions w = (Throw e, w, [])).
Proof.
  unfold contextExtensions_items. case_bool_decide; [left; by eexists|].
  destruct (ArrayIsArray w contextExtensions); [left|right]; by eexists.
Qed.

Lemma params_items_strings (w : World) (params : value) (items : list value) :
  valid_params w params ->
  params_items w params = Some items ->
  Forall (fun param => typeof param = "string") items.
Proof.
  unfold params_items. intros [->|(items' & Hitems & Hall)]; [done|].
  case_bool_decide; [done|]. rewrite Hitems. by intros [= <-].
Qed.

(** X11.  The engine's function compiler is called only with validated
    arguments.  Every outcome of [compileFunction] is a throw that has
    changed nothing and called nothing, or is the engine's answer to one
    call, with the code a string, a string file name, offsets in the
    unsigned 32-bit range, cached data that is a [Uint8Array] when given, a
    boolean [produceCachedData], a parsing context that is a context when
    given, context extensions whose [typeof] is ['object'] and parameters
    that are strings. *)
Theorem compileFunction_compiles_validated `{Engine}
    (code params options : value) (w : World) c w' t :
  compileFunction code params options w = (c, w', t) ->
  ((exists e, c = Throw e) /\ w' = w /\ t = [])
  \/ exists a,
       t = [EvCompileFunction a]
       /\ contextify_compileFunction a w = (c, w')
       /\ fa_code a = code
       /\ well_formed_function_args w a.
Proof.
  unfold compileFunction.
  destruct (decide (typeof code = "string")) as [Hcode|Hcode];
    [rewrite (bool_decide_eq_true_2 _ Hcode)
    |rewrite (bool_decide_eq_false_2 _ Hcode); intros [= <- <- <-]; left; eauto].
  cbn [negb]. rewrite bind_get_world.
  destruct (validate_params_cases w params)
    as [[Hparams Hvp]|[(_ & _ & Hvp)|(? & ? & ? & _ & _ & _ & Hvp)]];
    [rewrite (bind_pure _ _ _ _ Hvp)
    |rewrite (bind_fail _ _ _ _ _ _ Hvp); intros [= <- <- <-]; left; eauto..].
  set (o := default_options (AVal options)).
  destruct (bool_decide (o = AVal VNull));
    [intros [= <- <- <-]; left; eauto|rewrite bind_ret_l].
  destruct (bool_decide (typeof (or_default (get_prop w o "filename") _)
                         = "string")) eqn:Hfile;
    cbn [negb]; [|intros [= <- <- <-]; left; eauto].
  apply bool_decide_eq_true_1 in Hfile.
  destruct (validateUint32_cases
              (or_default (get_prop w o "columnOffset") (VNum (NInt 0)))
              "options.columnOffset" w) as [(zc & Hc & Hzc & Hvc)|[e Hvc]];
    [rewrite (bind_pure _ _ _ _ Hvc)
    |rewrite (bind_fail _ _ _ _ _ _ Hvc); intros [= <- <- <-]; left; eauto].
  destruct (validateUint32_cases
              (or_default (get_prop w o "lineOffset") (VNum (NInt 0)))
              "options.lineOffset" w) as [(zl & Hl & Hzl & Hvl)|[e Hvl]];
    [rewrite (bind_pure _ _ _ _ Hvl)
    |rewrite (bind_fail _ _ _ _ _ _ Hvl); intros [= <- <- <-]; left; eauto].
  destruct (negb (bool_decide (_ = VUndefined)) && negb (isUint8Array w _))
    eqn:Hcached; [intros [= <- <- <-]; left; eauto|].
  assert (Hcached' : get_prop w o "cachedData" = VUndefined
                     \/ isUint8Array w (get_prop w o "cachedData") = true).
  { apply andb_false_iff in Hcached as [Hu|Hu].
    - left. by apply negb_false_iff, bool_decide_eq_true_1 in Hu.
    - right. by apply negb_false_iff in Hu. }
  clear Hcached.
  destruct (bool_decide (typeof (or_default (get_prop w o "produceCachedData")
                                             _) = "boolean")) eqn:Hproduce;
    cbn [negb]; [|intros [= <- <- <-]; left; eauto].
  apply bool_decide_eq_true_1 in Hproduce.
  destruct (validate_parsingContext_cases w (get_prop w o "parsingContext"))
    as [[Hpc Hvpc]|Hvpc];
    [rewrite (bind_pure _ _ _ _ Hvpc)
    |rewrite (bind_fail _ _ _ _ _ _ Hvpc); intros [= <- <- <-]; left; eauto].
  destruct (contextExtensions_items_cases w (get_prop w o "contextExtensions"))
    as [[items Hce]|[e Hce]];
    [rewrite (bind_pure _ _ _ _ Hce)
    |rewrite (bind_fail _ _ _ _ _ _ Hce); intros [= <- <- <-]; left; eauto].
  destruct (ArrayForEach_typeof_cases "object" "options.contextExtensions"
              items 0 w)
    as [[Hall Hrun]|(pre & x & post & -> & Hpre & Hx & Hrun)];
    [unfold validate_contextExtensions, ArrayForEach;
     rewrite (bind_pure _ _ _ _ Hrun)
    |unfold validate_contextExtensions, ArrayForEach;
     rewrite (bind_fail _ _ _ _ _ _ Hrun); intros [= <- <- <-]; left; eauto].
  unfold _compileFunction.
  destruct (contextify_compileFunction _ w) as [c1 w1] eqn:Hnative.
  intros [= <- <- <-]. right. eexists. split_and!; [done|exact Hnative|done|].
  unfold well_formed_function_args.
  cbn [fa_code fa_filename fa_lineOffset fa_columnOffset fa_cachedData
       fa_produceCachedData fa_parsingContext fa_contextExtensions fa_params].
  split_and!; eauto.
  intros items' Hitems'. by eapply params_items_strings.
Qed.

Lemma compileFunction_compiles_validated_witness :
  let r := @compileFunction idle_engine (VStr "return 1") VUndefined
             (VObj 2) extensions_world in
  ((exists e, r.1.1 = Throw e) /\ r.1.2 = extensions_world /\ r.2 = [])
  \/ exists a,
       r.2 = [EvCompileFunction a]
       /\ @contextify_compileFunction idle_engine a extensions_world
          = (r.1.1, r.1.2)
       /\ fa_code a = VStr "return 1"
       /\ well_formed_function_args extensions_world a.
Proof.
  intros r.
  apply (@compileFunction_compiles_validated idle_engine (VStr "return 1")
           VUndefined (VObj 2) extensions_world r.1.1 r.1.2 r.2).
  reflexivity.
Defined.

Lemma validate_params_stop (w : World) (params : value)
    (pre post : list value) (x : value) :
  ArrayIsArray w params = Some (pre ++ x :: post) ->
  Forall (fun param => typeof param = "string") pre ->
  typeof x <> "string" ->
  validate_params w params w =
    (Throw (ERR_INVALID_ARG_TYPE (index_name "params" (length pre))
              ["string"] x), w, []).
Proof.
  intros Hitems Hall Hx. unfold validate_params.
  rewrite bool_decide_eq_false_2 by (by intros ->). rewrite Hitems.
  apply ArrayForEach_from_stop.
  - intros j y Hj. rewrite Forall_lookup in Hall. rewrite (Hall _ _ Hj).
    by decides.
  - by rewrite (bool_decide_eq_false_2 _ Hx).
Qed.

(** X12.  [compileFunction] checks its parameter names before it looks at
    its options.  For a string of code and whatever options, [null]
    included: parameters that are given and are no array raise the
    invalid-argument error for [params]; in an array, the first element that
    is no string raises the one that names its index; nothing is changed or
    called.  Only with valid parameters do the options [null] raise the
    engine's type error for destructuring. *)
Theorem params_checked_before_options `{Engine} (code params options : value)
    (w : World) :
  typeof code = "string" ->
  (params <> VUndefined -> ArrayIsArray w params = None ->
   compileFunction code params options w =
     (Throw (ERR_INVALID_ARG_TYPE "params" ["Array"] params), w, []))
  /\ (forall pre x post,
        ArrayIsArray w params = Some (pre ++ x :: post) ->
        Forall (fun param => typeof param = "string") pre ->
        typeof x <> "string" ->
        compileFunction code params options w =
          (Throw (ERR_INVALID_ARG_TYPE (index_name "params" (length pre))
                    ["string"] x), w, []))
  /\ (valid_params w params -> options = VNull ->
      exists msg,
        compileFunction code params options w = (Throw (TypeError msg), w, [])).
Proof.
  intros Hcode. unfold compileFunction.
  rewrite (bool_decide_eq_true_2 _ Hcode). cbn [negb].
  rewrite bind_get_world. split_and!.
  - intros Hu Hitems. eapply bind_fail. unfold validate_params.
    by rewrite (bool_decide_eq_false_2 _ Hu), Hitems.
  - intros pre x post Hitems Hall Hx. eapply bind_fail.
    by apply (validate_params_stop w params pre post x).
  - intros Hparams ->.
    rewrite (bind_pure _ _ _ _ (validate_params_valid _ _ Hparams)).
    eexists. by eapply bind_fail.
Qed.

Lemma params_checked_before_options_witness :
  @compileFunction idle_engine (VStr "return a") (VObj 2) VNull params_world =
    (Throw (ERR_INVALID_ARG_TYPE "params[1]" ["string"] (VNum (NInt 7))),
     params_world, []).
Proof.
  destruct (@params_checked_before_options idle_engine (VStr "return a")
              (VObj 2) VNull params_world eq_refl) as (_ & Hstop & _).
  apply (Hstop [VStr "a"] (VNum (NInt 7)) [VBool true]).
  - reflexivity.
  - by repeat constructor.
  - discriminate.
Defined.

(** ** Options that are no objects *)

Lemma primitive_no_object (w : World) (v : value) :
  primitive v -> lookup_object w v = None.
Proof. intros Hv. destruct v; try done; by destruct (Hv r). Qed.

Lemma primitive_no_prop (w : World) (v : value) (k : string) :
  primitive v -> get_value_prop w v k = VUndefined.
Proof.
  intros Hv. unfold get_value_prop. by rewrite (primitive_no_object _ _ Hv).
Qed.

Lemma primitive_no_own_props (w : World) (v : value) :
  primitive v -> own_props w v = ∅.
Proof.
  intros Hv. unfold own_props. by rewrite (primitive_no_object _ _ Hv).
Qed.

Lemma getContextOptions_primitive (v : value) (w : World) :
  primitive v ->
  getContextOptions (AVal v) w = (Normal empty_ctxLiteral, w, []).
Proof.
  intros Hv. destruct (arg_truthy (AVal v)) eqn:Ht.
  - apply getContextOptions_no_option; [done|].
    intros k. by apply primitive_no_prop.
  - unfold getContextOptions. by rewrite Ht.
Qed.

Lemma Script_new_rejects_options `{Engine} (code options : value) (w : World) :
  options <> VUndefined -> typeof options <> "string" ->
  is_object options = false ->
  Script_new code (AVal options) w =
    (ToString code ;; invalid_arg_type "options" "Object" options) w.
Proof.
  intros Hu Hs Hobj. unfold Script_new. apply bind_ext. intros s w'.
  eapply bind_fail.
  destruct options; try done; cbn [default_options arg_is_object arg_value];
    by rewrite ?Hobj.
Qed.

(** X13.  Options that are no objects are ignored by some entry points and
    rejected by others.  A primitive for options (a number, a boolean,
    [null], ...; a string is a file name) makes no difference to
    [runInContext] and [runInNewContext], which copy the options with
    [Object.assign], nor, unless it is [null], to [compileFunction], which
    destructures them: each behaves as with no options.  The [Script]
    constructor and [runInThisContext] convert the code and then throw the
    invalid-argument error for [options], for every value that is neither
    [undefined], a string nor an object, functions included. *)
Theorem options_that_are_no_objects `{Engine} (code options : value)
    (w : World) :
  (primitive options -> typeof options <> "string" ->
   (forall context,
      runInContext code context options w =
        runInContext code context VUndefined w)
   /\ (forall sandbox,
         runInNewContext code sandbox options w =
           runInNewContext code sandbox VUndefined w))
  /\ (primitive options -> options <> VNull ->
      forall params,
        compileFunction code params options w =
          compileFunction code params VUndefined w)
  /\ (options <> VUndefined -> typeof options <> "string" ->
      is_object options = false ->
      Script_new code (AVal options) w =
        (ToString code ;; invalid_arg_type "options" "Object" options) w
      /\ runInThisContext code options w =
           (ToString code ;; invalid_arg_type "options" "Object" options) w).
Proof.
  split_and!.
  - intros Hp Hs. split.
    + intros context. unfold runInContext.
      apply bind_ext. intros _ w1. rewrite !bind_get_world.
      assert (assign_parsingContext w1 (AVal options) context =
              assign_parsingContext w1 (AVal VUndefined) context) as Ha.
      { cbn [assign_parsingContext].
        by rewrite (primitive_no_own_props _ _ Hp). }
      destruct options; try done; by rewrite Ha.
    + intros sandbox. unfold runInNewContext.
      assert (Hopt : (match options with
                      | VStr _ =>
                          ALit (Literal {[ "filename" := options ]} VUndefined)
                      | _ => AVal options
                      end) = AVal options) by (by destruct options).
      rewrite Hopt. cbv zeta.
      rewrite (bind_pure _ _ _ _ (getContextOptions_primitive _ w Hp)).
      erewrite (bind_pure (getContextOptions _));
        [|by apply getContextOptions_primitive].
      apply bind_ext. intros context w1. rewrite !bind_get_world.
      cbn [assign_parsingContext].
      by rewrite (primitive_no_own_props _ _ Hp).
  - intros Hp Hnull params. unfold compileFunction.
    assert (Hread : forall k,
      get_prop w (default_options (AVal options)) k =
      get_prop w (default_options (AVal VUndefined)) k).
    { intros k. destruct options; try done; by destruct (Hp r). }
    assert (Hnull' :
      bool_decide (default_options (AVal options) = AVal VNull) = false).
    { apply bool_decide_eq_false_2. by destruct options. }
    assert (Hnone :
      bool_decide (default_options (AVal VUndefined) = AVal VNull) = false).
    { by apply bool_decide_eq_false_2. }
    cbv zeta. destruct (negb (bool_decide (typeof code = "string"))); [done|].
    rewrite !bind_get_world. by rewrite !Hread, Hnull', Hnone.
  - intros Hu Hs Hobj.
    pose proof (Script_new_rejects_options code options w Hu Hs Hobj) as Hnew.
    split; [done|]. unfold runInThisContext, createScript.
    assert (Hopt : (match options with
                    | VStr _ =>
                        ALit (Literal {[ "filename" := options ]} VUndefined)
                    | _ => AVal options
                    end) = AVal options) by (by destruct options).
    rewrite Hopt. unfold bind at 1. rewrite Hnew.
    unfold bind, invalid_arg_type, throw.
    destruct (ToString code w) as [[[s|e] w1] t1]; [|done].
    by rewrite app_nil_r.
Qed.

Lemma options_that_are_no_objects_witness :
  @runInThisContext idle_engine (VStr "1") (VNum (NInt 5)) empty_world =
    (Throw (ERR_INVALID_ARG_TYPE "options" ["Object"] (VNum (NInt 5))),
     empty_world, []).
Proof.
  destruct (@options_that_are_no_objects idle_engine (VStr "1")
              (VNum (NInt 5)) empty_world) as (_ & _ & Hrejected).
  destruct Hrejected as [_ ->]; [discriminate|discriminate|reflexivity|].
  reflexivity.
Defined.

(** ** A string for options *)

(** [createContext] leaves the objects of the heap as they are. *)
Lemma createContext_heap_kept `{Engine} (x : value) (o : ctxarg) (w : World)
    c w' t (r : ref) :
  createContext x o w = (c, w', t) ->
  is_Some (heap w !! r) -> heap w' !! r = heap w !! r.
Proof.
  intros Hc Hr. destruct (decide (x = VUndefined)) as [->|Hu].
  - rewrite createContext_undefined in Hc.
    apply createContext_VObj_outcome in Hc as (-> & _). cbn.
    apply lookup_insert_ne. intros Heq.
    assert (Hfresh : heap w !! fresh (dom (heap w)) = None)
      by apply not_elem_of_dom, is_fresh.
    rewrite <- Heq, Hfresh in Hr. by destruct Hr.
  - destruct (is_object x) eqn:Hobj.
    + apply is_object_VObj in Hobj as [r' ->].
      by apply createContext_VObj_outcome in Hc as (-> & _).
    + rewrite (createContext_not_object _ _ _ Hu Hobj) in Hc.
      by injection Hc as <- <- <-.
Qed.

(** The constructor and the run methods look at their options through the
    properties they read. *)
Lemma Script_new_reads `{Engine} (s : string) (o1 o2 : arg) (w : World) :
  arg_is_object o1 = true -> arg_is_object o2 = true ->
  get_parsingContext o1 = get_parsingContext o2 ->
  (forall k, get_prop w o1 k = get_prop w o2 k) ->
  Script_new (VStr s) o1 w = Script_new (VStr s) o2 w.
Proof.
  intros H1 H2 Hpc Hreads.
  assert (Hd : forall o, arg_is_object o = true -> default_options o = o).
  { by intros [[]|]. }
  unfold Script_new. rewrite (Hd _ H1), (Hd _ H2). cbn [ToString].
  rewrite !bind_ret_l, (Script_new_options _ _ _ H1),
    (Script_new_options _ _ _ H2), !bind_get_world.
  by rewrite Hpc, !Hreads.
Qed.

Lemma getRunInContextArgs_reads (o1 o2 : arg) (w : World) :
  arg_is_object o1 = true -> arg_is_object o2 = true ->
  (forall k, get_prop w o1 k = get_prop w o2 k) ->
  getRunInContextArgs o1 w = getRunInContextArgs o2 w.
Proof.
  intros H1 H2 Hreads.
  assert (Hd : forall o, arg_is_object o = true -> default_options o = o).
  { by intros [[]|]. }
  unfold getRunInContextArgs. rewrite (Hd _ H1), (Hd _ H2), H1, H2.
  cbn [negb]. rewrite !bind_get_world. by rewrite !Hreads.
Qed.

(** The options [{ filename: f }], as an object of the heap and as the
    literal the module makes of the string [f], read the same. *)
Lemma filename_object_reads (w : World) (r : ref) (o : object) (f k : string) :
  heap w !! r = Some o ->
  o_props o = {[ "filename" := VStr f ]} ->
  get_prop w (ALit (Literal {[ "filename" := VStr f ]} VUndefined)) k =
    get_prop w (AVal (VObj r)) k.
Proof.
  intros Hr Ho. unfold get_prop, get_value_prop, lookup_object.
  by rewrite Hr, Ho.
Qed.

Lemma getContextOptions_filename (o : arg) (w : World) :
  arg_truthy o = true ->
  (forall k, k <> "filename" -> get_prop w o k = VUndefined) ->
  getContextOptions o w = (Normal empty_ctxLiteral, w, []).
Proof.
  intros Ht Hreads. unfold getContextOptions.
  rewrite Ht, bind_get_world, !Hreads by done. cbv zeta.
  rewrite bind_validateObject. cbn [cl_name cl_origin cl_codeGeneration].
  decides. cbn [orb]. rewrite !bind_validateString.
  change (undefined_or "string" VUndefined) with true. cbv iota.
  by rewrite !bind_ret_l.
Qed.

(** X14.  A string for options is short for [{ filename: string }].  With
    an options object that has the one property [filename], a string, the
    three free functions and the constructor do exactly what they do with
    the string itself (for code that is no object, where its conversion
    could change the options object first; [runInContext] and
    [runInNewContext] copy the options before, so any code will do). *)
Theorem filename_shorthand `{Engine} (code : value) (f : string) (r : ref)
    (o : object) (w : World) :
  heap w !! r = Some o ->
  o_props o = {[ "filename" := VStr f ]} ->
  (forall context,
     runInContext code context (VStr f) w =
       runInContext code context (VObj r) w)
  /\ (forall sandbox,
        runInNewContext code sandbox (VStr f) w =
          runInNewContext code sandbox (VObj r) w)
  /\ (primitive code ->
      Script_new code (AVal (VStr f)) w = Script_new code (AVal (VObj r)) w
      /\ runInThisContext code (VStr f) w = runInThisContext code (VObj r) w).
Proof.
  intros Hr Ho.
  assert (Hown : forall w1, heap w1 !! r = heap w !! r ->
            own_props w1 (VObj r) = {[ "filename" := VStr f ]}).
  { intros w1 Hw1. unfold own_props, lookup_object. by rewrite Hw1, Hr. }
  split_and!.
  - intros context. unfold runInContext.
    apply bind_ext_reach. intros [] w1 t1 Hv.
    destruct (validateContext_unchanged _ _ _ _ _ Hv) as [-> ->].
    rewrite !bind_get_world. cbn [assign_parsingContext].
    by rewrite (Hown w eq_refl).
  - intros sandbox. unfold runInNewContext.
    assert (Hlit : forall k, k <> "filename" ->
      get_prop w (ALit (Literal {[ "filename" := VStr f ]} VUndefined)) k
      = VUndefined).
    { intros k Hk. unfold get_prop. cbn [l_props].
      by rewrite lookup_singleton_ne. }
    assert (Hobj : forall k, k <> "filename" ->
      get_prop w (AVal (VObj r)) k = VUndefined).
    { intros k Hk. rewrite <- (filename_object_reads w r o f k Hr Ho).
      by apply Hlit. }
    rewrite (bind_pure _ _ _ _
               (getContextOptions_filename (ALit _) w eq_refl Hlit)).
    rewrite (bind_pure _ _ _ _
               (getContextOptions_filename (AVal (VObj r)) w eq_refl Hobj)).
    apply bind_ext_reach. intros context w1 t1 Hc.
    rewrite !bind_get_world. cbn [assign_parsingContext l_props].
    rewrite (Hown w1); [done|].
    eapply createContext_heap_kept; [exact Hc|by rewrite Hr].
  - intros Hcode.
    assert (Hnew : forall w0,
      (forall k,
         get_prop w0 (ALit (Literal {[ "filename" := VStr f ]} VUndefined)) k
         = get_prop w0 (AVal (VObj r)) k) ->
      Script_new code (ALit (Literal {[ "filename" := VStr f ]} VUndefined)) w0
      = Script_new code (AVal (VObj r)) w0).
    { intros w0 Hreads. rewrite !(Script_new_converts code).
      apply bind_ext_reach. intros s w1 t1 Hs.
      destruct (ToString_unchanged _ Hcode _ _ _ _ Hs) as [-> ->].
      by apply Script_new_reads. }
    assert (Hreads : forall k,
      get_prop w (ALit (Literal {[ "filename" := VStr f ]} VUndefined)) k
      = get_prop w (AVal (VObj r)) k).
    { intros k. by eapply filename_object_reads. }
    split.
    + rewrite Script_new_string_options. by apply Hnew.
    + unfold runInThisContext, createScript. unfold bind at 2.
      rewrite <- (Hnew w Hreads). fold (bind (A := ref) (B := value)).
      apply bind_ext_reach. intros script w1 t1 Hscript.
      pose proof (Script_new_props_kept _ _ Hcode _ _ _ _ Hscript) as Hkept.
      unfold Script_runInThisContext. apply bind_cong.
      apply getRunInContextArgs_reads; [done|done|].
      intros k. unfold get_prop at 2. rewrite Hkept.
      by apply Hreads.
Qed.

Lemma filename_shorthand_witness :
  @runInThisContext idle_engine (VStr "1") (VStr "a.js") filename_world =
    @runInThisContext idle_engine (VStr "1") (VObj 2) filename_world.
Proof.
  destruct (@filename_shorthand idle_engine (VStr "1") "a.js" 2
              (plain [("filename", VStr "a.js")]) filename_world
              eq_refl eq_refl) as (_ & _ & Hthis).
  apply Hthis. by intros r.
Defined.

(** ** A new context and a failing run *)

(** The run options are checked the same wherever they read the same. *)
Lemma getRunInContextArgs_stable (o : arg) (w1 w2 : World) c :
  (forall k, get_prop w2 (default_options o) k
             = get_prop w1 (default_options o) k) ->
  getRunInContextArgs o w1 = (c, w1, []) ->
  getRunInContextArgs o w2 = (c, w2, []).
Proof.
  intros Hreads. unfold getRunInContextArgs.
  destruct (negb (arg_is_object (default_options o))).
  { by intros [= <-]. }
  rewrite !bind_get_world, !Hreads.
  set (timeout := get_prop w1 (default_options o) "timeout").
  set (brk := or_default _ (VBool false)).
  set (disp := or_default _ (VBool true)).
  unfold bind, ret, invalid_arg_type, throw.
  destruct timeout as [| | |[z| | | |]| | | | |];
    try (by intros [= <-]);
    try (destruct (z <=? 0)%Z; try (by intros [= <-]));
    destruct (negb (bool_decide (typeof disp = "boolean")));
    try (by intros [= <-]);
    destruct (negb (bool_decide (typeof brk = "boolean")));
    by intros [= <-].
Qed.

(** X15.  [script.runInNewContext] contextifies the sandbox before it looks
    at the run options, and a failing call leaves it contextified.  For an
    object that is no context, context options that pass and run options
    that are rejected ([timeout], [displayErrors], [breakOnSigint]), the
    method throws the run options' error after one [makeContext] call, the
    engine has run nothing, and the sandbox is a context afterwards (given
    again, it is used as it is). *)
Theorem runInNewContext_contextifies_first `{Engine} (this : ref) (r : ref)
    (options : arg) (w : World) cl e :
  contexts w !! r = None ->
  getContextOptions options w = (Normal cl, w, []) ->
  getRunInContextArgs options w = (Throw e, w, []) ->
  exists tag w',
    Script_runInNewContext this (VObj r) options w =
      (Throw e, w', [EvMakeContext (VObj r) tag])
    /\ contexts w' = <[r := tag]> (contexts w)
    /\ heap w' = heap w
    /\ isContext (VObj r) w' = (Normal true, w', [])
    /\ forall o, createContext (VObj r) o w' = (Normal (VObj r), w', []).
Proof.
  intros Hr Hco Hargs.
  destruct (getContextOptions_returns _ _ _ _ _ Hco) as (_ & _ & Hvalid & _).
  destruct (createContext_literal r cl w Hr Hvalid) as (w' & Hc & Hctx & _).
  assert (Hheap : heap w' = heap w).
  { by apply createContext_VObj_outcome in Hc as (-> & _). }
  assert (Hctx' : _isContext w' (VObj r) = true).
  { apply _isContext_true. rewrite Hctx, lookup_insert_eq. by eexists. }
  exists (context_tag_of w (CLit cl)), w'. split_and!; try done.
  - unfold Script_runInNewContext.
    rewrite (bind_pure _ _ _ _ Hco). erewrite bind_step; [|exact Hc].
    unfold Script_runInContext.
    erewrite bind_pure; [|by rewrite validateContext_eq, Hctx'].
    erewrite bind_fail; [done|].
    apply (getRunInContextArgs_stable options w w'); [|done].
    intros k. destruct (default_options options) as [v|l]; [|done].
    unfold get_prop. by apply same_props_heap.
  - by rewrite isContext_eq, Hctx'.
  - intros o. by apply createContext_of_context.
Qed.

Lemma runInNewContext_contextifies_first_witness :
  exists tag w',
    @Script_runInNewContext idle_engine 9 (VObj 1) (AVal (VObj 2))
      timeout_world =
      (Throw (ERR_INVALID_ARG_TYPE "options.timeout" ["a positive integer"]
                (VNum (NInt 0))), w', [EvMakeContext (VObj 1) tag])
    /\ contexts w' = <[1%positive := tag]> (contexts timeout_world)
    /\ heap w' = heap timeout_world
    /\ isContext (VObj 1) w' = (Normal true, w', []).
Proof.
  destruct (@runInNewContext_contextifies_first idle_engine 9 1
              (AVal (VObj 2)) timeout_world
              (CtxLiteral VUndefined VUndefined None)
              (ERR_INVALID_ARG_TYPE "options.timeout" ["a positive integer"]
                 (VNum (NInt 0))) eq_refl eq_refl eq_refl)
    as (tag & w' & Hrun & Hctx & Hheap & Hcontext & _).
  by exists tag, w'.
Defined.

(** ** Parsing where the code runs *)

#[local] Instance traced_frame (P : event -> Prop) : Frame (traced P).
Proof.
  split; [by constructor|]. unfold traced. intros w w1 w2 t1 t2 H1 H2.
  by apply Forall_app.
Qed.

Lemma bind_inv {A B} (m : M A) (f : A -> M B) (w : World) c w' t :
  bind m f w = (c, w', t) ->
  (exists e, m w = (Throw e, w', t) /\ c = Throw e)
  \/ (exists a w1 t1 t2,
        m w = (Normal a, w1, t1) /\ f a w1 = (c, w', t2) /\ t = t1 ++ t2).
Proof.
  unfold bind. destruct (m w) as [[[a|e] w1] t1].
  - destruct (f a w1) as [[c2 w2] t2] eqn:Hf. intros [= <- <- <-].
    right. by eexists _, _, _, _.
  - intros [= <- <- <-]. left. by eexists.
Qed.

Lemma ToString_traced `{Engine} (P : event -> Prop) (code : value) :
  (forall r, P (EvToString r)) -> respects (traced P) (ToString code).
Proof.
  intros HP. destruct code as [| |[]| | | | | |]; cbn [ToString];
    try respects_step;
    intros w c w' t; destruct (ObjectToString r w); intros [= <- <- <-];
    by repeat constructor.
Qed.

(** The constructor compiles for the parsing context of its options. *)
Lemma Script_new_string_trace `{Engine} (s : string) (options : arg)
    (w : World) c w' t :
  Script_new (VStr s) options w = (c, w', t) ->
  t = []
  \/ exists a,
       t = [EvCompile a]
       /\ ca_parsingContext a = get_parsingContext (default_options options).
Proof.
  destruct (arg_is_object (default_options options)) eqn:Hobj.
  - intros Hrun.
    destruct (Script_new_object_outcome _ _ _ _ _ _ Hobj Hrun)
      as [(_ & _ & ->)|[-> _]]; [by left|right; by eexists].
  - destruct options as [v|l]; [|done].
    destruct (decide (typeof v = "string")) as [Hstr|Hstr].
    + destruct v; try discriminate.
      rewrite Script_new_string_options. intros Hrun.
      destruct (Script_new_object_outcome _ (ALit _) _ _ _ _ eq_refl Hrun)
        as [(_ & _ & ->)|[-> _]]; [by left|right; by eexists].
    + unfold Script_new. cbn [ToString]. rewrite bind_ret_l.
      destruct v; try discriminate; try done;
        by intros [= <- <- <-]; left.
Qed.

Lemma Script_new_traced `{Engine} (P : event -> Prop) (code : value)
    (o : arg) :
  (forall r, P (EvToString r)) ->
  (forall a,
     ca_parsingContext a = get_parsingContext (default_options o) ->
     P (EvCompile a)) ->
  respects (traced P) (Script_new code o).
Proof.
  intros Hstring Hcompile w c w' t. rewrite Script_new_converts.
  intros [(e & Hs & _)|(s & w1 & t1 & t2 & Hs & Hrun & ->)]%bind_inv.
  - by apply (ToString_traced P code Hstring _ _ _ _ Hs).
  - apply Forall_app. split.
    + by apply (ToString_traced P code Hstring _ _ _ _ Hs).
    + destruct (Script_new_string_trace _ _ _ _ _ _ Hrun)
        as [->|(a & -> & Ha)]; [by constructor|].
      repeat constructor. by apply Hcompile.
Qed.

Lemma super_run_traced `{Engine} (P : event -> Prop) target this args :
  P (EvRun target this args) -> respects (traced P) (super_run target this args).
Proof.
  intros HP w c w' t. unfold super_run.
  destruct (ContextifyScript_run _ _ _ _). intros [= <- <- <-].
  by repeat constructor.
Qed.

Lemma sigintHandlersWrap_traced {A} (P : event -> Prop) (fn : M A) :
  P EvRemoveAllListeners -> (forall l, P (EvAddListener l)) ->
  respects (traced P) fn -> respects (traced P) (sigintHandlersWrap fn).
Proof.
  intros Hremove Hadd Hfn w c w' t. rewrite sigintHandlersWrap_eq.
  destruct (fn (set_sigint [] w)) as [[c1 w1] t1] eqn:Hrun.
  intros [= <- <- <-]. pose proof (Hfn _ _ _ _ Hrun) as H1.
  unfold traced in *. constructor; [done|]. apply Forall_app. split; [done|].
  induction (sigint w) as [|l ls IH]; by constructor.
Qed.

(** The run methods run on their target, under the bridge or not. *)
Lemma run_traced `{Engine} (P : event -> Prop) target this (o : arg) :
  P EvRemoveAllListeners -> (forall l, P (EvAddListener l)) ->
  (forall args, P (EvRun target this args)) ->
  respects (traced P)
    (x <- getRunInContextArgs o ;;
     let '(breakOnSigint, args) := x in
     wrap <- wants_sigint_wrap breakOnSigint ;;
     if wrap : bool then sigintHandlersWrap (super_run target this args)
     else super_run target this args).
Proof.
  intros Hremove Hadd Hrun.
  apply respects_bind; [apply _| |intros [b args]].
  { apply respects_unchanged; [apply _|apply getRunInContextArgs_unchanged]. }
  apply respects_bind; [apply _| |intros wrap].
  { intros w c w' t. rewrite wants_sigint_wrap_eq. intros [= <- <- <-].
    constructor. }
  destruct wrap.
  - apply sigintHandlersWrap_traced; [done|done|]. by apply super_run_traced.
  - by apply super_run_traced.
Qed.

Lemma Script_runInContext_traced `{Engine} (P : event -> Prop) this context
    (o : arg) :
  P EvRemoveAllListeners -> (forall l, P (EvAddListener l)) ->
  (forall args, P (EvRun (InContext context) this args)) ->
  respects (traced P) (Script_runInContext this context o).
Proof.
  intros Hremove Hadd Hrun. unfold Script_runInContext.
  apply respects_bind; [apply _| |intros _].
  { apply respects_unchanged; [apply _|apply validateContext_unchanged]. }
  by apply run_traced.
Qed.

(** What [createContext] calls and returns. *)
Lemma createContext_trace `{Engine} (x : value) (o : ctxarg) (w : World)
    c w' t :
  createContext x o w = (c, w', t) ->
  ((exists e, c = Throw e) /\ t = [])
  \/ (exists r,
        c = Normal (VObj r) /\ (x <> VUndefined -> x = VObj r)
        /\ (t = [] \/ exists tag, t = [EvMakeContext (VObj r) tag])).
Proof.
  intros Hc. destruct (decide (x = VUndefined)) as [->|Hu].
  - rewrite createContext_undefined in Hc.
    apply createContext_VObj_outcome in Hc
      as (_ & _ & _ & _ & [(He & -> & _)|[(-> & -> & _)|(tag & -> & -> & _)]]).
    + by left.
    + right. eexists. split_and!; [done|done|by left].
    + right. eexists. split_and!; [done|done|right; by eexists].
  - destruct (is_object x) eqn:Hobj.
    + apply is_object_VObj in Hobj as [r ->].
      apply createContext_VObj_outcome in Hc
        as (_ & _ & _ & _ & [(He & -> & _)|[(-> & -> & _)|(tag & -> & -> & _)]]).
      * by left.
      * right. eexists. split_and!; [done|done|by left].
      * right. eexists. split_and!; [done|done|right; by eexists].
    + rewrite (createContext_not_object _ _ _ Hu Hobj) in Hc.
      injection Hc as <- <- <-. left. eauto.
Qed.

Lemma Script_runInNewContext_traced `{Engine} (P : event -> Prop) this
    (r : ref) (o : arg) :
  P EvRemoveAllListeners -> (forall l, P (EvAddListener l)) ->
  (forall tag, P (EvMakeContext (VObj r) tag)) ->
  (forall args, P (EvRun (InContext (VObj r)) this args)) ->
  respects (traced P) (Script_runInNewContext this (VObj r) o).
Proof.
  intros Hremove Hadd Hmake Hrun w c w' t. unfold Script_runInNewContext.
  intros [(e & Hco & _)|(co & w1 & t1 & t2 & Hco & Hrest & ->)]%bind_inv.
  { destruct (getContextOptions_unchanged _ _ _ _ _ Hco) as [_ ->].
    constructor. }
  destruct (getContextOptions_unchanged _ _ _ _ _ Hco) as [-> ->].
  apply bind_inv in Hrest
    as [(e & Hc & _)|(v & w2 & t3 & t4 & Hc & Hrest & ->)].
  { destruct (createContext_trace _ _ _ _ _ _ Hc)
      as [(_ & ->)|(r' & [=] & _)]. constructor. }
  destruct (createContext_trace _ _ _ _ _ _ Hc)
    as [([e [=]] & _)|(r' & [= ->] & Hr' & Ht3)].
  specialize (Hr' ltac:(done)). injection Hr' as <-.
  cbn [app]. apply Forall_app. split.
  - destruct Ht3 as [->|(tag & ->)]; by repeat constructor.
  - by apply (Script_runInContext_traced P this (VObj r) o Hremove Hadd Hrun
                _ _ _ _ Hrest).
Qed.

(** X16.  The free functions have the code parsed for the context it then
    runs in.  Among the outside calls of [runInContext], whatever the
    outcome, every compilation carries the given context as its parsing
    context and every run of the engine is on that context; for
    [runInNewContext] there is one context (the sandbox, when one is given)
    that is the only one made, the parsing context of every compilation and
    the target of every run; for [runInThisContext] compilations carry no
    parsing context and runs are on the host's own context.  None of the
    three compiles a function or calls a resolver. *)
Theorem parsed_where_run `{Engine} (code options : value) (w : World)
    c w' t :
  (forall context,
     runInContext code context options w = (c, w', t) ->
     Forall (run_in (InContext context)) t)
  /\ (forall sandbox,
        runInNewContext code sandbox options w = (c, w', t) ->
        exists context,
          Forall (run_in (InContext context)) t
          /\ (sandbox <> VUndefined -> context = sandbox))
  /\ (runInThisContext code options w = (c, w', t) ->
      Forall (run_in ThisContext) t).
Proof.
  split_and!.
  - intros context. revert w c w' t.
    change (respects (traced (run_in (InContext context)))
              (runInContext code context options)).
    unfold runInContext.
    apply respects_bind; [apply _| |intros _].
    { apply respects_unchanged; [apply _|apply validateContext_unchanged]. }
    apply respects_bind; [apply _|apply respects_get_world; apply _|intros w].
    apply respects_bind; [apply _| |intros script].
    + apply Script_new_traced; [done|]. intros a Ha. cbn. rewrite Ha.
      by destruct options.
    + by apply Script_runInContext_traced.
  - intros sandbox. unfold runInNewContext.
    intros [(e & Hco & _)|(co & w1 & t1 & t2 & Hco & Hrest & ->)]%bind_inv.
    { destruct (getContextOptions_unchanged _ _ _ _ _ Hco) as [_ ->].
      exists sandbox. split; [constructor|done]. }
    destruct (getContextOptions_unchanged _ _ _ _ _ Hco) as [-> ->].
    apply bind_inv in Hrest
      as [(e & Hc & _)|(v & w2 & t3 & t4 & Hc & Hrest & ->)].
    { destruct (createContext_trace _ _ _ _ _ _ Hc)
        as [(_ & ->)|(r' & [=] & _)].
      exists sandbox. split; [constructor|done]. }
    destruct (createContext_trace _ _ _ _ _ _ Hc)
      as [([e [=]] & _)|(r & [= ->] & Hr & Ht3)].
    exists (VObj r). split; [|intros Hu; by rewrite (Hr Hu)].
    cbn [app]. apply Forall_app. split.
    { destruct Ht3 as [->|(tag & ->)]; by repeat constructor. }
    revert Hrest.
    generalize w2 c w' t4.
    change (respects (traced (run_in (InContext (VObj r))))
              (w0 <- get_world ;;
               script <- createScript code
                 (ALit (assign_parsingContext w0
                          match options with
                          | VStr _ =>
                              ALit (Literal {[ "filename" := options ]}
                                            VUndefined)
                          | _ => AVal options
                          end (VObj r))) ;;
               Script_runInNewContext script (VObj r)
                 (ALit (assign_parsingContext w0
                          match options with
                          | VStr _ =>
                              ALit (Literal {[ "filename" := options ]}
                                            VUndefined)
                          | _ => AVal options
                          end (VObj r))))%vm).
    apply respects_bind; [apply _|apply respects_get_world; apply _|intros w0].
    apply respects_bind; [apply _| |intros script].
    + apply Script_new_traced; [done|]. intros a Ha. cbn. rewrite Ha.
      by destruct options.
    + by apply Script_runInNewContext_traced.
  - revert w c w' t.
    change (respects (traced (run_in ThisContext))
              (runInThisContext code options)).
    unfold runInThisContext.
    apply respects_bind; [apply _| |intros script].
    + apply Script_new_traced; [done|]. intros a Ha. cbn. rewrite Ha.
      by destruct options.
    + unfold Script_runInThisContext. by apply run_traced.
Qed.

Lemma parsed_where_run_witness :
  let r := @runInNewContext idle_engine (VStr "1") (VObj 1) VUndefined
             sandbox_world in
  exists context,
    Forall (run_in (InContext context)) r.2
    /\ (VObj 1 <> VUndefined -> context = VObj 1).
Proof.
  intros r.
  apply (@parsed_where_run idle_engine (VStr "1") VUndefined sandbox_world
           r.1.1 r.1.2 r.2).
  reflexivity.
Defined.

(** ** The free functions, from the engine's operations *)

Lemma default_options_reads (w : World) (o : arg) (k : string) :
  get_prop w (default_options o) k = get_prop w o k.
Proof. by destruct o as [[]|]. Qed.

Lemma assign_reads (w w' : World) (o : arg) (context : value) (k : string) :
  get_prop w' (ALit (assign_parsingContext w o context)) k = get_prop w o k.
Proof.
  destruct o as [v|l]; unfold get_prop; cbn [assign_parsingContext l_props];
    [apply own_props_lookup|done].
Qed.

Lemma get_value_prop_heap (w w' : World) (v : value) (k : string) :
  heap w' = heap w -> get_value_prop w' v k = get_value_prop w v k.
Proof. intros Hh. by apply same_props_heap. Qed.

(** With valid options the constructor is the compiler. *)
Lemma Script_new_valid `{Engine} (s : string) (o1 o : arg) (w0 w : World)
    (parsingContext : value) :
  arg_is_object (default_options o1) = true ->
  get_parsingContext (default_options o1) = parsingContext ->
  (forall k, get_prop w0 (default_options o1) k
             = get_prop w (default_options o) k) ->
  valid_unit_options w o ->
  (isUint8Array w (get_prop w (default_options o) "cachedData") = true ->
   isUint8Array w0 (get_prop w (default_options o) "cachedData") = true) ->
  Script_new (VStr s) o1 w0 =
    compile_unit (unit_args w s o parsingContext)
      (get_prop w (default_options o) "importModuleDynamically") w0.
Proof.
  intros Hobj Hpc Hreads
    (Hfile & (zl & Hline & Hzl) & (zc & Hcol & Hzc) & Hcached & Hproduce & Hf)
    Hkept.
  unfold option_of in *.
  unfold Script_new. cbn [ToString]. rewrite bind_ret_l.
  rewrite (Script_new_options _ _ _ Hobj), bind_get_world.
  rewrite Hpc, !Hreads.
  rewrite (bool_decide_eq_true_2 _ Hfile). cbn [negb].
  unfold unit_args, option_of. rewrite Hline, Hcol.
  destruct (validateInteger_int zl "options.lineOffset" w0) as [Hl1 _].
  destruct (validateInteger_int zc "options.columnOffset" w0) as [Hc1 _].
  rewrite (bind_pure _ _ _ _ (Hl1 Hzl)), (bind_pure _ _ _ _ (Hc1 Hzc)).
  replace (negb (bool_decide (_ = VUndefined)) && negb (isUint8Array w0 _))
    with false.
  2:{ destruct Hcached as [-> | Hc%Hkept]; [done|].
      by rewrite Hc, andb_false_r. }
  rewrite (bool_decide_eq_true_2 _ Hproduce). cbn [negb].
  unfold compile_unit. apply bind_ext. intros this w2.
  destruct Hf as [-> | Hf]; [by decides|].
  rewrite (bool_decide_eq_true_2 _ Hf). cbn [negb].
  by destruct (bool_decide (_ = VUndefined)).
Qed.

(** What the compiler leaves: one new object, the script. *)
Lemma compile_unit_returns `{Engine} (a : compile_args) (resolver : value)
    (w0 : World) (this : ref) (w2 : World) (t : list event) :
  compile_unit a resolver w0 = (Normal this, w2, t) ->
  heap w2 = <[fresh (dom (heap w0)) := Object KScript ∅ []]> (heap w0)
  /\ contexts w2 = contexts w0 /\ sigint w2 = sigint w0.
Proof.
  unfold compile_unit. intros Hrun. inv_bind Hrun. inv_bind Hrun.
  injection Hrun as _ -> _.
  unfold super_ContextifyScript in Hm.
  destruct (ContextifyScript a w0); [|done]. injection Hm as _ <- _.
  revert Hm0. destruct (bool_decide (resolver = VUndefined));
    by intros [= _ <- _].
Qed.

(** With valid options the run methods are the executor. *)
Lemma run_valid `{Engine} (target : run_target) (this : ref) (o1 o : arg)
    (w2 w : World) :
  arg_is_object (default_options o1) = true ->
  (forall k, get_prop w2 (default_options o1) k
             = get_prop w (default_options o) k) ->
  valid_request w o ->
  (x <- getRunInContextArgs o1 ;;
   let '(breakOnSigint, args) := x in
   wrap <- wants_sigint_wrap breakOnSigint ;;
   if wrap : bool then sigintHandlersWrap (super_run target this args)
   else super_run target this args) w2 =
  run_unit target this (request_of w o) w2.
Proof.
  intros Hobj Hreads (Htimeout & Hdisplay & Hbreak).
  assert (Hargs : getRunInContextArgs o1 w2 =
            (Normal (option_of w o "breakOnSigint" (VBool false),
                     request_of w o), w2, [])).
  { unfold getRunInContextArgs. rewrite Hobj. cbn [negb].
    rewrite bind_get_world, !Hreads. unfold request_of, option_of in *.
    rewrite (bool_decide_eq_true_2 _ Hdisplay),
      (bool_decide_eq_true_2 _ Hbreak). cbn [negb].
    destruct Htimeout as [-> | (z & -> & Hz)].
    - by rewrite bind_ret_l.
    - assert ((z <=? 0)%Z = false) as -> by lia. by rewrite bind_ret_l. }
  rewrite (bind_pure _ _ _ _ Hargs).
  rewrite (bind_pure _ _ _ _ (wants_sigint_wrap_eq _ w2)).
  unfold run_unit. cbn [ra_breakOnSigint request_of].
  assert (Htruthy :
    truthy (option_of w o "breakOnSigint" (VBool false)) =
    bool_decide (option_of w o "breakOnSigint" (VBool false) = VBool true)).
  { destruct (option_of w o "breakOnSigint" (VBool false)) as [| |[]| | | | | |];
      try discriminate; by decides. }
  assert (Hlisteners :
    bool_decide (0 < length (sigint w2))%nat = bool_decide (sigint w2 <> [])).
  { destruct (sigint w2); cbn [length]; by decides. }
  rewrite Htruthy, Hlisteners.
  destruct (_ && _); [apply bridged_run_eq|done].
Qed.

Lemma string_of_primitive_primitive `{Engine} (code : value) (s : string) :
  string_of_primitive code = Some s -> primitive code.
Proof. by destruct code; intros Hs r'. Qed.

Lemma options_object_parsingContext (options : value) :
  get_parsingContext (default_options (options_object options)) = VUndefined.
Proof. by destruct options. Qed.

(** C8.  The free functions compile once and then run.  For a code that is
    no object (whose conversion to a string runs none of the caller's code)
    and options that are valid for compiling and for running,
    [runInContext] on a recognised context is: the engine compiles the
    source of the code with the options' metadata and the context for its
    parsing context, the resolver is attached to the unit, and the engine
    runs this unit on the context, under the SIGINT bridge when asked for;
    [runInNewContext] is the same after [createContext] has created (or
    recognised) the context from the sandbox with the context options
    derived from the options; [runInThisContext] is the same on the host's
    own context, with no parsing context.  Whatever the options,
    [runInNewContext] is: create the context, compile with the constructor,
    run with the method [runInContext].  [runInContext] fails with the type
    error, before compiling, when the supplied context is not a recognised
    context, and none of the three asks the engine to compile more than
    once. *)
Theorem free_functions_compose `{Engine} (code : value) (w : World) :
  (forall s options,
     string_of_primitive code = Some s ->
     valid_unit_options w (options_object options) ->
     valid_request w (options_object options) ->
     (forall context,
        is_object context && _isContext w context = true ->
        runInContext code context options w =
          compile_then_run (InContext context)
            (unit_args w s (options_object options) context)
            (get_prop w (default_options (options_object options))
               "importModuleDynamically")
            (request_of w (options_object options)) w)
     /\ (forall sandbox contextOptions,
          getContextOptions (options_object options) w
            = (Normal contextOptions, w, []) ->
          runInNewContext code sandbox options w =
            (context <- createContext sandbox (CLit contextOptions) ;;
             compile_then_run (InContext context)
               (unit_args w s (options_object options) context)
               (get_prop w (default_options (options_object options))
                  "importModuleDynamically")
               (request_of w (options_object options))) w)
     /\ (arg_is_object (default_options (options_object options)) = true ->
         runInThisContext code options w =
           compile_then_run ThisContext
             (unit_args w s (options_object options) VUndefined)
             (get_prop w (default_options (options_object options))
                "importModuleDynamically")
             (request_of w (options_object options)) w))
  /\ (primitive code ->
      forall sandbox options,
        runInNewContext code sandbox options w =
          runInNewContext_composition code sandbox options w)
  /\ (forall context options,
       is_object context && _isContext w context = false ->
       exists expected,
         runInContext code context options w =
           (Throw (ERR_INVALID_ARG_TYPE "contextifiedSandbox" [expected]
                     context), w, []))
  /\ (forall sandbox context options c w' t,
       runInNewContext code sandbox options w = (c, w', t)
       \/ runInContext code context options w = (c, w', t)
       \/ runInThisContext code options w = (c, w', t) ->
       (compilations t <= 1)%nat).
Proof.
  assert (Hcore : forall s context o w1,
    string_of_primitive code = Some s ->
    valid_unit_options w o -> valid_request w o ->
    is_object context && _isContext w1 context = true ->
    same_props w w1 ->
    (forall r, is_Some (heap w !! r) -> heap w1 !! r = heap w !! r) ->
    (script <- createScript code (ALit (assign_parsingContext w1 o context)) ;;
     Script_runInContext script context
       (ALit (assign_parsingContext w1 o context))) w1 =
    compile_then_run (InContext context) (unit_args w s o context)
      (get_prop w (default_options o) "importModuleDynamically")
      (request_of w o) w1).
  { intros s context o w1 Hs Hunit Hrequest Hctx Hsame Hheap.
    apply andb_true_iff in Hctx as [Hobj Hctx].
    set (lit := assign_parsingContext w1 o context).
    assert (Hreads : forall w' k,
      get_prop w' (default_options (ALit lit)) k
      = get_prop w (default_options o) k).
    { intros w' k. cbn [default_options]. unfold lit.
      rewrite assign_reads, default_options_reads.
      destruct o as [v|l]; [apply Hsame|done]. }
    assert (Hscript : createScript code (ALit lit) w1 =
      compile_unit (unit_args w s o context)
        (get_prop w (default_options o) "importModuleDynamically") w1).
    { unfold createScript. rewrite (Script_new_primitive _ _ _ _ Hs).
      apply Script_new_valid; [done|by destruct o|apply Hreads|done|].
      unfold isUint8Array, has_kind.
      destruct (get_prop w (default_options o) "cachedData"); try done.
      destruct (heap w !! r) as [obj|] eqn:Hr; [|done].
      by rewrite (Hheap r), Hr by (by rewrite Hr). }
    rewrite (bind_cong _ _ _ _ Hscript). unfold compile_then_run.
    apply bind_ext_reach. intros this w2 t Hc.
    destruct (compile_unit_returns _ _ _ _ _ _ Hc) as (_ & Hcontexts & _).
    unfold Script_runInContext.
    erewrite bind_pure.
    - by apply run_valid.
    - by rewrite validateContext_eq, Hobj,
        (_isContext_contexts _ _ _ Hcontexts), Hctx. }
  split_and!.
  - intros s options Hs Hunit Hrequest.
    set (o := options_object options) in *. split_and!.
    + intros context Hctx. unfold runInContext.
      pose proof Hctx as Hctx'.
      apply andb_true_iff in Hctx' as [Hobj Hc].
      erewrite bind_pure; [|by rewrite validateContext_eq, Hobj, Hc].
      rewrite bind_get_world.
      replace (match options with
               | VStr _ => Literal {[ "filename" := options ]} context
               | _ => assign_parsingContext w (AVal options) context
               end) with (assign_parsingContext w o context)
        by (by destruct options).
      by apply Hcore.
    + intros sandbox co Hco.
      rewrite (runInNewContext_by_methods _ _ _ _
                 (string_of_primitive_primitive _ _ Hs)).
      unfold runInNewContext_composition. cbv zeta. fold o.
      rewrite !(bind_pure _ _ _ _ Hco).
      apply bind_ext_reach. intros context w1 t1 Hc.
      rewrite bind_get_world.
      pose proof (createContext_result_is_context _ _ _ _ _ _ Hc) as Hctx.
      destruct (_isContext_VObj _ _ Hctx) as [r ->].
      apply Hcore; try done.
      * apply (createContext_props_kept _ _ _ _ _ _ Hc).
      * intros r' Hr'. by eapply createContext_heap_kept.
    + intros Hobj. unfold runInThisContext. fold (options_object options).
      fold o. cbv zeta.
      assert (Hscript : createScript code o w =
        compile_unit (unit_args w s o VUndefined)
          (get_prop w (default_options o) "importModuleDynamically") w).
      { unfold createScript. rewrite (Script_new_primitive _ _ _ _ Hs).
        apply Script_new_valid; try done.
        apply options_object_parsingContext. }
      rewrite (bind_cong _ _ _ _ Hscript). unfold compile_then_run.
      apply bind_ext_reach. intros this w2 t Hc.
      destruct (compile_unit_returns _ _ _ _ _ _ Hc) as (Hheap & _).
      unfold Script_runInThisContext. apply run_valid; [done| |done].
      intros k. destruct (default_options o) as [v|l]; [|done].
      unfold get_prop.
      rewrite <- (same_props_fresh w KScript [] v k).
      by apply get_value_prop_heap.
  - intros Hcode sandbox options. by apply runInNewContext_by_methods.
  - intros context options Hnot. unfold runInContext.
    pose proof (validateContext_eq context w) as Hv.
    destruct (is_object context); cbn [negb andb] in *.
    + rewrite Hnot in Hv. cbn [negb] in Hv. eexists.
      by rewrite (bind_fail _ _ _ _ _ _ Hv).
    + eexists. by rewrite (bind_fail _ _ _ _ _ _ Hv).
  - destruct (free_functions_compile_once code) as (Hnew & Hin & Hthis).
    intros sandbox context options c w' t [Hrun|[Hrun|Hrun]].
    + by apply (Hnew _ _ _ _ _ _ Hrun).
    + by apply (Hin _ _ _ _ _ _ Hrun).
    + by apply (Hthis _ _ _ _ _ Hrun).
Qed.

Lemma free_functions_compose_witness :
  exists w',
    @runInContext idle_engine (VStr "x = 1") (VObj 1) VUndefined context_world =
      (Normal VUndefined, w',
       [EvCompile
          (CompileArgs "x = 1" (VStr "evalmachine.<anonymous>")
             (VNum (NInt 0)) (VNum (NInt 0)) VUndefined (VBool false)
             (VObj 1) (VBool false));
        EvRun (InContext (VObj 1)) 2
          (RunArgs (VNum (NInt (-1))) (VBool true) (VBool false))]).
Proof.
  destruct (@free_functions_compose idle_engine (VStr "x = 1") context_world)
    as (Hvalid & _).
  destruct (Hvalid "x = 1" VUndefined eq_refl) as (Hin & _).
  - split_and!; try reflexivity; try (by left);
      (exists 0; split; [reflexivity|unfold int32; lia]).
  - split_and!; [by left|reflexivity|reflexivity].
  - rewrite Hin by reflexivity. eexists. reflexivity.
Defined.
